(** * vscode-go: the debug-adapter mutex and the debug configuration resolver

    A shallow embedding of

    - [src/debugAdapter/mutex.ts] (class [Mutex]: [lock], [dispatch]) over a
      small model of JavaScript promises and the microtask queue, and
    - [GoDebugConfigurationProvider] ([resolveDebugConfiguration],
      [resolveDebugConfigurationWithSubstitutedVariables], [showWarning],
      [removeFlag]) together with the state helpers of [stateUtils.ts]

    followed by the properties the specification states about them. *)

From stdpp Require Import gmap strings list fin_maps pretty.
From Stdlib Require Import Ascii.

Set Warnings "-register-all,-clear-no-such-hyp".

(** ** JavaScript values

    A debug configuration is a plain JavaScript object whose properties are
    typed [any]; the resolver inspects them with truthiness tests, strict
    equality against string literals, [hasOwnProperty] and property reads. *)
Module JS.

Inductive value :=
  | VUndefined
  | VNull
  | VBool (b : bool)
  | VNum (n : Z)
  | VStr (s : string)
  | VArr (l : list value)
  | VObj (o : gmap string value).

(** An object: own enumerable properties by name.  A property that was
    assigned [undefined] is still an own property. *)
Abbreviation object := (gmap string value).

(** [if (v)], [!v], [v || w]: ToBoolean.  Numbers are modelled as integers
    (the resolver only ever writes the literal [1]). *)
Definition truthy (v : value) : bool :=
  match v with
  | VUndefined | VNull => false
  | VBool b => b
  | VNum n => negb (n =? 0)%Z
  | VStr s => negb (String.eqb s "")
  | VArr _ | VObj _ => true
  end.

(** [o[k]] on an object: a missing property reads as [undefined]. *)
Definition get (o : object) (k : string) : value := default VUndefined (o !! k).

(** [o.hasOwnProperty(k)]. *)
Definition hasOwnProperty (o : object) (k : string) : bool := bool_decide (is_Some (o !! k)).

(** [v[k]] for a value [v] already known to be truthy (so never [null] or
    [undefined]): only objects carry named properties such as [GOFLAGS]. *)
Definition prop (v : value) (k : string) : value :=
  match v with
  | VObj o => get o k
  | _ => VUndefined
  end.

(** [v === 'literal']. *)
Definition is_str (v : value) (s : string) : bool :=
  match v with
  | VStr t => String.eqb t s
  | _ => false
  end.

(** [v === true]. *)
Definition is_true (v : value) : bool :=
  match v with
  | VBool b => b
  | _ => false
  end.

(** The own enumerable properties [Object.assign] copies from a source:
    those of an object, the indices of an array or of a string, nothing for
    the other primitives ([null] and [undefined] sources are skipped). *)
Definition indexed (l : list value) : object :=
  list_to_map (imap (λ i v, (pretty i, v)) l).

Definition ownProps (v : value) : object :=
  match v with
  | VObj o => o
  | VArr l => indexed l
  | VStr s => indexed ((λ c, VStr (String c EmptyString)) <$> String.list_ascii_of_string s)
  | _ => ∅
  end.

(** [Object.assign(target, source)]: every own property of [source] is
    written over [target]. *)
Definition assign (target source : object) : object := source ∪ target.

(** An object that is enumerated, so that the order of its properties
    shows: the own properties as [Object.keys] lists them. *)
Abbreviation properties := (list (string * value)).

(** [o[k]] and [delete o[k]] on such an object. *)
Definition property (o : properties) (k : string) : value :=
  match find (λ kv, String.eqb kv.1 k) o with
  | Some kv => kv.2
  | None => VUndefined
  end.

Definition deleteProperty (k : string) (o : properties) : properties :=
  filter (λ kv, kv.1 ≠ k) o.

(** ToString: [`${v}`] and [v + '']. *)
Fixpoint toText (v : value) : string :=
  match v with
  | VUndefined => "undefined"
  | VNull => "null"
  | VBool true => "true"
  | VBool false => "false"
  | VNum n => pretty n
  | VStr s => s
  | VArr l =>
      String.concat ","
        (map (λ e, match e with
                   | VUndefined | VNull => EmptyString
                   | _ => toText e
                   end) l)
  | VObj _ => "[object Object]"
  end.

End JS.
Import JS.

(** ** Node's [path] module (POSIX flavour) and [String.prototype.endsWith] *)
Module Path.

Definition is_slash (c : ascii) : bool := Ascii.eqb c "/"%char.

(** The backwards scan of [path.dirname]: [rs] holds the characters at
    indices [i, i-1, ..., 1]; the result is the index [end] of the slash that
    closes the directory part, if there is one. *)
Fixpoint dirname_scan (rs : list ascii) (i : nat) (matchedSlash : bool) : option nat :=
  match rs with
  | [] => None
  | c :: rs' =>
      if is_slash c then
        if matchedSlash then dirname_scan rs' (i - 1) true else Some i
      else dirname_scan rs' (i - 1) false
  end.

Definition dirname (path : string) : string :=
  match String.list_ascii_of_string path with
  | [] => "."
  | c0 :: rest =>
      let hasRoot := is_slash c0 in
      match dirname_scan (rev rest) (List.length rest) true with
      | None => if hasRoot then "/" else "."
      | Some e => if hasRoot && (e =? 1)%nat then "//" else String.substring 0 e path
      end
  end.

(** [path.isAbsolute(p)]: non-empty and starting with a slash. *)
Definition isAbsolute (path : string) : bool :=
  match path with
  | String c _ => is_slash c
  | EmptyString => false
  end.

(** [s.endsWith(suffix)]. *)
Definition endsWith (s suffix : string) : bool :=
  let n := String.length s in
  let m := String.length suffix in
  (m <=? n)%nat && String.eqb (String.substring (n - m) m s) suffix.

End Path.

(** ** The debug configuration resolver ([GoDebugConfigurationProvider]) *)
Module Resolver.

(** [vscode.window.activeTextEditor], as far as the resolver reads it:
    [document.languageId] and [document.fileName]. *)
Record TextEditor := {
  languageId : string;
  fileName : string;
}.

(** What the resolver reads from the extension host and the workspace. *)
Record Host := {
  activeTextEditor : option TextEditor;  (* vscode.window.activeTextEditor *)
  packagePathToGoModPathMap : object;    (* goModules.packagePathToGoModPathMap *)
  delveConfig : object;                  (* getGoConfig(...)['delveConfig'] *)
  dlvBinPath : string;                   (* getBinPath('dlv') *)
  globalState : option object;           (* stateUtils: the global Memento, if set *)
  processEnv : object;                   (* process.env *)
  toolsEnvVars : value;                  (* getGoConfig()['toolsEnvVars'] *)
  httpProxy : value;                     (* the 'http.proxy' setting *)
  currentGoPath : string;                (* getCurrentGoPath(uri) *)
}.

(** What the resolver shows to the user. *)
Inductive effect :=
  | ShowWarningMessage (ignoreWarningKey warningMessage : string)
  | PromptForMissingTool (tool : string).

(** How a call of [resolveDebugConfiguration] ends: it returns a
    configuration or [undefined], or the TypeError that [yargs-parser]
    throws goes up through [removeFlag]. *)
Inductive outcome :=
  | Returned (debugConfiguration : option object)
  | Thrown.

(** *** [stateUtils.ts] *)

Definition getFromGlobalState (globalState : option object) (key : string) : value :=
  match globalState with
  | None => VUndefined
  | Some st => get st key
  end.

Definition updateGlobalState (globalState : option object) (key : string) (v : value)
    : option object :=
  match globalState with
  | None => None
  | Some st => Some (<[key := v]> st)
  end.

Definition gcflagsBuildFlagsMessage : string :=
  "User specified build flag '--gcflags' in 'buildFlags' is being ignored (see [debugging with build flags](https://github.com/golang/vscode-go/blob/master/docs/debugging.md#specifying-other-build-flags) documentation)".

Definition gcflagsGoflagsMessage : string :=
  "User specified build flag '--gcflags' in 'GOFLAGS' is being ignored (see [debugging with build flags](https://github.com/golang/vscode-go/blob/master/docs/debugging.md#specifying-other-build-flags) documentation)".

Definition launchRemoteMessage : string :=
  "Request type of 'launch' with mode 'remote' is deprecated, please use request type 'attach' with mode 'remote' instead.".

Definition remoteProgramMessage : string :=
  "Request type of 'attach' with mode 'remote' does not work with 'program' attribute, please use 'cwd' attribute instead.".

Section Provider.

(** The constructor argument of the provider (['go'] by default). *)
Variable defaultDebugAdapterType : string.
(** [util.resolvePath]: expands a leading [~] and the like; it is declared
    for strings. *)
Variable resolvePath : value → value.
(** [yargs-parser] (called with short option groups off) and
    [yargs-unparser]: third-party packages, taken as given.  [parse] gives
    [None] where [yargs-parser] throws, as it does for an argument that is
    neither a string nor an array. *)
Variable parse : value → option properties.
Variable unparse : properties → list string.
(** [utils/envUtils.parseEnvFiles]. *)
Variable parseEnvFiles : value → object.

(** *** [goEnv.ts] *)

Definition resolveIfString (v : value) : value :=
  match v with
  | VStr _ => resolvePath v
  | _ => v
  end.

Definition newEnvironment (h : Host) : object :=
  let toolsEnvVars := toolsEnvVars h in
  let env := assign (assign ∅ (processEnv h)) (ownProps toolsEnvVars) in
  let env :=
    match toolsEnvVars with
    | VObj _ | VArr _ => assign env (resolveIfString <$> ownProps toolsEnvVars)
    | _ => env
    end in
  match httpProxy h with
  | VStr p =>
      if truthy (VStr p) then
        <["HTTPS_PROXY" := VStr p]> (<["https_proxy" := VStr p]>
          (<["HTTP_PROXY" := VStr p]> (<["http_proxy" := VStr p]> env)))
      else env
  | _ => env
  end.

Definition toolExecutionEnvironment (h : Host) : object :=
  let env := newEnvironment h in
  let gopath := currentGoPath h in
  if truthy (VStr gopath) then <["GOPATH" := VStr gopath]> env else env.

(** *** [showWarning] and [removeFlag] *)

Definition showWarning (h : Host) (ignoreWarningKey warningMessage : string) : list effect :=
  let ignoreWarning := getFromGlobalState (globalState h) ignoreWarningKey in
  if truthy ignoreWarning then []
  else [ShowWarningMessage ignoreWarningKey warningMessage].

(** The result [{args, removed}] as a pair; [None] when [parse] throws. *)
Definition removeFlag (args : value) (flag : string) : option (value * bool) :=
  match parse args with
  | None => None
  | Some argv =>
      Some (if truthy (property argv flag)
            then (VStr (String.concat " " (unparse (deleteProperty flag argv))), true)
            else (args, false))
  end.

(** *** [resolveDebugConfiguration], block by block *)

(** Lines 318-332: a missing configuration, or one without [request], is
    read as a missing launch.json. *)
Definition skeleton (h : Host) (debugConfiguration : option object) : option object :=
  let activeEditor := activeTextEditor h in
  if negb (bool_decide (is_Some debugConfiguration))
     || negb (truthy (get (default ∅ debugConfiguration) "request")) then
    match activeEditor with
    | None => None
    | Some ed =>
        if negb (String.eqb (languageId ed) "go") then None
        else Some (assign (default ∅ debugConfiguration)
                     {[ "name" := VStr "Launch";
                        "type" := VStr defaultDebugAdapterType;
                        "request" := VStr "launch";
                        "mode" := VStr "auto";
                        "program" := VStr (Path.dirname (fileName ed)) ]})
    end
  else debugConfiguration.

(** [if (!c.hasOwnProperty(k) && dlvConfig.hasOwnProperty(k)) c[k] = dlvConfig[k]]. *)
Definition inherit (dlvConfig : object) (k : string) (c : object) : object :=
  if negb (hasOwnProperty c k) && hasOwnProperty dlvConfig k
  then <[k := get dlvConfig k]> c else c.

(** Lines 334-369: adapter type, module map, Delve settings, [cwd]. *)
Definition fieldDefaults (h : Host) (c : object) : object :=
  let c := if negb (truthy (get c "type"))
           then <["type" := VStr defaultDebugAdapterType]> c else c in
  let c := <["packagePathToGoModPathMap" := VObj (packagePathToGoModPathMap h)]> c in
  let dlvConfig := delveConfig h in
  let useApiV1 :=
    if hasOwnProperty c "useApiV1" then is_true (get c "useApiV1")
    else if hasOwnProperty dlvConfig "useApiV1" then is_true (get dlvConfig "useApiV1")
    else false in
  let c := if useApiV1 then <["apiVersion" := VNum 1]> c else c in
  let c := inherit dlvConfig "apiVersion" c in
  let c := inherit dlvConfig "dlvLoadConfig" c in
  let c := inherit dlvConfig "showGlobalVariables" c in
  let c := if is_str (get c "request") "attach" && negb (truthy (get c "cwd"))
           then <["cwd" := VStr "${workspaceFolder}"]> c else c in
  if truthy (get c "cwd") then <["cwd" := resolvePath (get c "cwd")]> c else c.

(** Lines 371-381: [--gcflags] in [buildFlags]; [None] when [removeFlag]
    throws. *)
Definition stripBuildFlags (h : Host) (c : object) : option (object * list effect) :=
  if truthy (get c "buildFlags") then
    match removeFlag (get c "buildFlags") "gcflags" with
    | None => None
    | Some resp =>
        Some (if resp.2 then
                (<["buildFlags" := resp.1]> c,
                 showWarning h "ignoreDebugGCFlagsWarning" gcflagsBuildFlagsMessage)
              else (c, []))
    end
  else Some (c, []).

(** Lines 382-391: [--gcflags] in [env.GOFLAGS]; [None] when [removeFlag]
    throws.  A truthy [env.GOFLAGS] exists only when [env] is an object. *)
Definition stripGoflags (h : Host) (c : object) : option (object * list effect) :=
  if truthy (get c "env") && truthy (prop (get c "env") "GOFLAGS") then
    match removeFlag (prop (get c "env") "GOFLAGS") "gcflags" with
    | None => None
    | Some resp =>
        Some (if resp.2 then
                (<["env" := VObj (<["GOFLAGS" := resp.1]> (ownProps (get c "env")))]> c,
                 showWarning h "ignoreDebugGCFlagsWarning" gcflagsGoflagsMessage)
              else (c, []))
    end
  else Some (c, []).

(** Lines 399-402. *)
Definition concretizeMode (h : Host) (c : object) : object :=
  if is_str (get c "mode") "auto" then
    <["mode" := VStr (match activeTextEditor h with
                      | Some ed => if Path.endsWith (fileName ed) "_test.go"
                                   then "test" else "debug"
                      | None => "debug"
                      end)]> c
  else c.

(** Lines 404-420. *)
Definition remoteWarnings (h : Host) (c : object) : list effect :=
  (if is_str (get c "request") "launch" && is_str (get c "mode") "remote"
   then showWarning h "ignoreDebugLaunchRemoteWarning" launchRemoteMessage else [])
  ++
  (if is_str (get c "request") "attach" && is_str (get c "mode") "remote"
      && truthy (get c "program")
   then showWarning h "ignoreUsingRemotePathAndProgramWarning" remoteProgramMessage
   else []).

(** The function returns a configuration or [undefined], or throws; the
    second component lists what was shown to the user by then, in order. *)
Definition resolveDebugConfiguration (h : Host) (debugConfiguration : option object)
    : outcome * list effect :=
  match skeleton h debugConfiguration with
  | None => (Returned None, [])
  | Some c =>
      let c := fieldDefaults h c in
      match stripBuildFlags h c with
      | None => (Thrown, [])
      | Some (c, w1) =>
          match stripGoflags h c with
          | None => (Thrown, w1)
          | Some (c, w2) =>
              let c := <["dlvToolPath" := VStr (dlvBinPath h)]> c in
              if negb (Path.isAbsolute (dlvBinPath h)) then
                (Returned None, w1 ++ w2 ++ [PromptForMissingTool "dlv"])
              else
                let c := concretizeMode h c in
                (Returned (Some c), w1 ++ w2 ++ remoteWarnings h c)
          end
      end
  end.

(** *** [resolveDebugConfigurationWithSubstitutedVariables] *)

Definition resolveDebugConfigurationWithSubstitutedVariables
    (h : Host) (debugConfiguration : object) : object :=
  let goToolsEnvVars := toolExecutionEnvironment h in
  let fileEnvs := parseEnvFiles (get debugConfiguration "envFile") in
  let env := if truthy (get debugConfiguration "env")
             then get debugConfiguration "env" else VObj ∅ in
  let debugConfiguration :=
    <["env" := VObj (assign (assign goToolsEnvVars fileEnvs) (ownProps env))]>
      debugConfiguration in
  <["envFile" := VUndefined]> debugConfiguration.

End Provider.

(** Modelled from the spec: [utils/envUtils.parseEnvFiles] is not among the
    sources.  The specification says that [envFile] names one path or a
    list of paths, that the contents of the named files are merged, and that
    later files override earlier ones; anything else names no file.
    [parseEnvFile] gives the variables a file at a path defines. *)
Definition parseEnvFiles (parseEnvFile : string → object) (envFiles : value) : object :=
  match envFiles with
  | VStr f => assign ∅ (parseEnvFile f)
  | VArr fs =>
      foldl (λ acc f, match f with
                      | VStr p => assign acc (parseEnvFile p)
                      | _ => acc
                      end) ∅ fs
  | _ => ∅
  end.

End Resolver.

(** ** Promises and the microtask queue

    [Mutex] is written against three facts of the JavaScript run time: a
    promise is pending with a list of reactions or settled once and for
    all; reactions of a settled promise are queued as microtasks, never run
    on the spot; and microtasks run one at a time, in queue order.  The
    closures the class creates are listed by [reaction].  An [await] of a
    promise of the run time registers the rest of the function as a
    reaction of that very promise, and [Promise.resolve] of such a promise
    is that promise (ECMAScript 2019). *)
Module Mutex.

(** A promise is named by the expression that creates it and by the call
    of [lock] (and so of [dispatch]) it belongs to, counted from 0. *)
Inductive pid :=
  | PInit                (* Promise.resolve(), the initial value of this.mutex *)
  | PChain (k : nat)     (* this.mutex.then(...) *)
  | PLock (k : nat)      (* return new Promise((res) => { begin = res; }) *)
  | PInner (k : nat)     (* new Promise(begin) *)
  | PResult (k : nat)    (* the promise of the async function dispatch *)
  | PBody (k : nat).     (* Promise.resolve(fn()) *)

#[global] Instance pid_eq_dec : EqDecision pid.
Proof. solve_decision. Defined.

Definition pid_code (p : pid) : nat * nat :=
  match p with
  | PInit => (0, 0)
  | PChain k => (1, k)
  | PLock k => (2, k)
  | PInner k => (3, k)
  | PResult k => (4, k)
  | PBody k => (5, k)
  end.

Definition pid_decode (c : nat * nat) : pid :=
  match c with
  | (1, k) => PChain k
  | (2, k) => PLock k
  | (3, k) => PInner k
  | (4, k) => PResult k
  | (5, k) => PBody k
  | _ => PInit
  end.

#[global] Instance pid_countable : Countable pid.
Proof. by apply (inj_countable' pid_code pid_decode); intros []. Defined.

(** What promises are settled with.  [VResolve p] is the resolving
    function of promise [p]: the [unlock] handed to a caller. *)
Inductive val :=
  | VUndef
  | VData (n : nat)
  | VResolve (p : pid)
  | VTypeError.

Inductive outcome :=
  | Fulfilled (v : val)
  | Rejected (e : val).

(** The closures registered on promises. *)
Inductive reaction :=
  | RThen (k : nat)                  (* () => new Promise(begin), of lock call k *)
  | RAdopt (target : pid)            (* the resolving functions of [target], given
                                        to the [then] of the promise it adopts *)
  | RAwaitLock (k : nat)             (* dispatch k at [await this.lock()] *)
  | RAwaitBody (k : nat) (unlock : val)
                                     (* dispatch k at [await Promise.resolve(fn())] *)
  | RHolder (k : nat).               (* unlock => ..., of a direct caller of lock *)

Inductive pstate :=
  | Pending (reactions : list reaction)
  | Settled (o : outcome).

Inductive job :=
  | JReact (r : reaction) (o : outcome)       (* PromiseReactionJob *)
  | JThenable (target thenable : pid).        (* NewPromiseResolveThenableJob *)

(** The unit of work [fn] of a call [dispatch(fn)]: it returns a plain
    value, throws, or returns a promise that its own later events settle. *)
Inductive body :=
  | Returns (v : val)
  | Throws (e : val)
  | Async.

(** Who submitted: [dispatch(fn)], or a direct [lock().then(unlock => ...)]
    whose critical section lasts until the caller calls [unlock]. *)
Inductive caller :=
  | Dispatch (fn : body)
  | Direct.

(** What an observer of the critical sections sees. *)
Inductive event :=
  | Begin (k : nat)
  | End (k : nat) (o : outcome).

Record state := {
  heap : gmap pid pstate;      (* the promises *)
  begins : list (option pid);  (* the variable [begin] of each lock call:
                                  [None] is the initial no-op, [Some p] is
                                  [res], the resolving function of [p] *)
  queue : list job;            (* the microtask queue *)
  mutex : pid;                 (* this.mutex *)
  callers : list caller;       (* the submissions so far *)
  held : gmap nat val;         (* the unlock functions direct callers hold *)
  trace : list event;
}.

Definition init : state := {|
  heap := {[ PInit := Settled (Fulfilled VUndef) ]};
  begins := [];
  queue := [];
  mutex := PInit;
  callers := [];
  held := ∅;
  trace := [];
|}.

(** *** State updates *)

Definition upd_heap (f : gmap pid pstate → gmap pid pstate) (s : state) : state :=
  {| heap := f (heap s); begins := begins s; queue := queue s; mutex := mutex s;
     callers := callers s; held := held s; trace := trace s |}.

Definition upd_begins (f : list (option pid) → list (option pid)) (s : state) : state :=
  {| heap := heap s; begins := f (begins s); queue := queue s; mutex := mutex s;
     callers := callers s; held := held s; trace := trace s |}.

Definition enqueue (js : list job) (s : state) : state :=
  {| heap := heap s; begins := begins s; queue := queue s ++ js; mutex := mutex s;
     callers := callers s; held := held s; trace := trace s |}.

Definition set_queue (q : list job) (s : state) : state :=
  {| heap := heap s; begins := begins s; queue := q; mutex := mutex s;
     callers := callers s; held := held s; trace := trace s |}.

Definition set_mutex (p : pid) (s : state) : state :=
  {| heap := heap s; begins := begins s; queue := queue s; mutex := p;
     callers := callers s; held := held s; trace := trace s |}.

Definition add_caller (c : caller) (s : state) : state :=
  {| heap := heap s; begins := begins s; queue := queue s; mutex := mutex s;
     callers := callers s ++ [c]; held := held s; trace := trace s |}.

Definition hold (k : nat) (unlock : val) (s : state) : state :=
  {| heap := heap s; begins := begins s; queue := queue s; mutex := mutex s;
     callers := callers s; held := <[k := unlock]> (held s); trace := trace s |}.

Definition log (es : list event) (s : state) : state :=
  {| heap := heap s; begins := begins s; queue := queue s; mutex := mutex s;
     callers := callers s; held := held s; trace := trace s ++ es |}.

(** *** Promise operations *)

(** [new Promise(...)], still pending, and a promise created settled. *)
Definition alloc (p : pid) (st : pstate) (s : state) : state :=
  upd_heap (insert p st) s.

(** Settling a pending promise queues its reactions; a settled promise
    stays as it is. *)
Definition settle (p : pid) (o : outcome) (s : state) : state :=
  match heap s !! p with
  | Some (Pending rs) =>
      enqueue ((λ r, JReact r o) <$> rs) (upd_heap (insert p (Settled o)) s)
  | _ => s
  end.

(** The resolving function of [p] called with [v].  No value of the model
    is a thenable, so this fulfils [p]. *)
Definition resolve (p : pid) (v : val) (s : state) : state :=
  settle p (Fulfilled v) s.

(** [p.then(...)] and [await p]: register the reaction, or queue it when
    [p] is settled already. *)
Definition then_ (p : pid) (r : reaction) (s : state) : state :=
  match heap s !! p with
  | Some (Pending rs) => upd_heap (insert p (Pending (rs ++ [r]))) s
  | Some (Settled o) => enqueue [JReact r o] s
  | None => s
  end.

(** Calling a value: only a resolving function can be called, and it is
    called without argument. *)
Definition call (f : val) (s : state) : option state :=
  match f with
  | VResolve p => Some (resolve p VUndef s)
  | _ => None
  end.

(** *** [Mutex.lock] *)

Definition lock (s : state) : pid * state :=
  let k := length (begins s) in
  (* let begin = (unlock) => {} *)
  let s := upd_begins (λ bs, bs ++ [None]) s in
  (* this.mutex = this.mutex.then(() => { return new Promise(begin); }) *)
  let s := alloc (PChain k) (Pending []) s in
  let s := then_ (mutex s) (RThen k) s in
  let s := set_mutex (PChain k) s in
  (* return new Promise((res) => { begin = res; }) *)
  let s := alloc (PLock k) (Pending []) s in
  let s := upd_begins (λ bs, <[k := Some (PLock k)]> bs) s in
  (PLock k, s).

(** The callback [() => new Promise(begin)] of lock call [k], run as a
    microtask: [begin] is read when the callback runs. *)
Definition run_then (k : nat) (s : state) : state :=
  let s := alloc (PInner k) (Pending []) s in
  let s := match begins s !! k with
           | Some (Some l) => resolve l (VResolve (PInner k)) s
           | _ => s
           end in
  (* the callback returns a promise, which the promise of [then] adopts *)
  enqueue [JThenable (PChain k) (PInner k)] s.

(** *** [Mutex.dispatch] *)

(** Up to the first [await]. *)
Definition dispatch (fn : body) (s : state) : state :=
  let k := length (callers s) in
  let s := add_caller (Dispatch fn) s in
  let s := alloc (PResult k) (Pending []) s in
  let '(l, s) := lock s in
  then_ l (RAwaitLock k) s.

(** [finally { unlock(); }], then the async function settles with [o]. *)
Definition finally_unlock (k : nat) (unlock : val) (o : outcome) (s : state) : state :=
  match call unlock s with
  | Some s => settle (PResult k) o s
  | None => settle (PResult k) (Rejected VTypeError) s
  end.

(** From [const unlock = ...] to the second [await]. *)
Definition run_await_lock (k : nat) (unlock : val) (s : state) : state :=
  match callers s !! k with
  | Some (Dispatch (Returns v)) =>
      let s := log [Begin k; End k (Fulfilled v)] s in
      let s := alloc (PBody k) (Settled (Fulfilled v)) s in
      then_ (PBody k) (RAwaitBody k unlock) s
  | Some (Dispatch (Throws e)) =>
      let s := log [Begin k; End k (Rejected e)] s in
      finally_unlock k unlock (Rejected e) s
  | Some (Dispatch Async) =>
      let s := log [Begin k] s in
      let s := alloc (PBody k) (Pending []) s in
      then_ (PBody k) (RAwaitBody k unlock) s
  | _ => s
  end.

(** *** Microtasks *)

Definition run_reaction (r : reaction) (o : outcome) (s : state) : state :=
  match r, o with
  | RThen k, Fulfilled _ => run_then k s
  | RThen k, Rejected e => settle (PChain k) (Rejected e) s
  | RAdopt t, Fulfilled v => resolve t v s
  | RAdopt t, Rejected e => settle t (Rejected e) s
  | RAwaitLock k, Fulfilled unlock => run_await_lock k unlock s
  | RAwaitLock k, Rejected e => settle (PResult k) (Rejected e) s
  | RAwaitBody k unlock, o => finally_unlock k unlock o s
  | RHolder k, Fulfilled unlock => hold k unlock (log [Begin k] s)
  | RHolder k, Rejected _ => s
  end.

Definition run_job (j : job) (s : state) : state :=
  match j with
  | JReact r o => run_reaction r o s
  | JThenable t p => then_ p (RAdopt t) s
  end.

(** *** The event loop and its surroundings *)

Inductive input :=
  | CallDispatch (fn : body)             (* mutex.dispatch(fn) *)
  | CallLock                             (* mutex.lock().then(unlock => ...) *)
  | RunJob                               (* the next microtask *)
  | SettleBody (k : nat) (o : outcome)   (* the promise the k-th fn returned settles *)
  | CallUnlock (k : nat).                (* the k-th caller calls its unlock *)

Definition step (i : input) (s : state) : state :=
  match i with
  | CallDispatch fn => dispatch fn s
  | CallLock =>
      let k := length (callers s) in
      let s := add_caller Direct s in
      let '(l, s) := lock s in
      then_ l (RHolder k) s
  | RunJob =>
      match queue s with
      | [] => s
      | j :: q => run_job j (set_queue q s)
      end
  | SettleBody k o =>
      match callers s !! k, heap s !! PBody k with
      | Some (Dispatch Async), Some (Pending _) =>
          settle (PBody k) o (log [End k o] s)
      | _, _ => s
      end
  | CallUnlock k =>
      match held s !! k with
      | Some (VResolve p) =>
          match heap s !! p with
          | Some (Pending _) => resolve p VUndef (log [End k (Fulfilled VUndef)] s)
          | _ => s
          end
      | _ => s
      end
  end.

Definition run (inputs : list input) (s : state) : state :=
  foldl (λ s i, step i s) s inputs.

(** The submissions among the inputs, in the order they were made. *)
Definition submissions (inputs : list input) : list caller :=
  omap (λ i, match i with
             | CallDispatch fn => Some (Dispatch fn)
             | CallLock => Some Direct
             | _ => None
             end) inputs.

(** *** Reading a trace *)

(** The critical sections are serial from [k] on: [Begin k], [End k],
    [Begin (k+1)], [End (k+1)], ..., possibly stopping after a [Begin]. *)
Fixpoint serial (k : nat) (t : list event) : Prop :=
  match t with
  | [] => True
  | [Begin j] => j = k
  | Begin j :: End j' _ :: t' => j = k ∧ j' = k ∧ serial (S k) t'
  | _ => False
  end.

(** The submissions in the order their bodies began. *)
Definition begun (t : list event) : list nat :=
  omap (λ e, match e with Begin k => Some k | End _ _ => None end) t.

Definition ended (t : list event) : list nat :=
  omap (λ e, match e with End k _ => Some k | Begin _ => None end) t.

(** The submissions inside their critical section at the end of [t]. *)
Definition running (t : list event) : list nat :=
  filter (λ k, k ∉ ended t) (begun t).

(** The outcomes the critical section of a caller can end with: what its
    body returned or threw; however the promise its body returned settles;
    and [undefined] for a direct caller, whose critical section ends when
    it calls [unlock]. *)
Definition outcome_of (c : caller) (o : outcome) : Prop :=
  match c with
  | Dispatch (Returns v) => o = Fulfilled v
  | Dispatch (Throws e) => o = Rejected e
  | Dispatch Async => True
  | Direct => o = Fulfilled VUndef
  end.

End Mutex.

(** ** The mutex as a queue of turns

    Every reachable state of the promise machine is described by the
    callers so far, the outcomes of the critical sections that are over
    (their promise of the chain is settled), and the phase of the one
    submission whose turn it is, if any.  [Rep] reads a state off such a
    view; it is the invariant behind the properties of the mutex. *)
Module View.

Import Mutex.

(** The phases of the submission whose turn it is.  The flag tells whether
    the microtask that makes the chain adopt [new Promise(begin)] has run. *)
Inductive phase :=
  | Turn                                   (* the then-callback is queued *)
  | Granted                                (* unlock is on its way to the caller *)
  | Running (adopted : bool)               (* inside the critical section *)
  | Ended (o : outcome) (adopted : bool)   (* the body has settled *)
  | Released (o : outcome) (adopted : bool). (* unlock has been called *)

Inductive stage :=
  | Absent
  | Waiting
  | Active (ph : phase)
  | Finished (o : outcome).

Record view := {
  v_callers : list caller;
  v_done : list outcome;
  v_phase : option phase;
}.

(** A phase is that of a submission made, and only a [dispatch] passes
    through [Ended]: a direct caller ends its critical section by calling
    [unlock]. *)
Definition wf (A : view) : Prop :=
  match v_phase A with
  | Some ph =>
      length (v_done A) < length (v_callers A)
      ∧ match ph with
        | Ended _ _ => v_callers A !! length (v_done A) ≠ Some Direct
        | _ => True
        end
  | None => length (v_done A) = length (v_callers A)
  end.

(** The outcomes a view records are outcomes of the bodies they are
    recorded for. *)
Definition fitting (A : view) : Prop :=
  (∀ k o c, v_done A !! k = Some o → v_callers A !! k = Some c → outcome_of c o)
  ∧ (∀ o b c,
       v_phase A = Some (Ended o b) ∨ v_phase A = Some (Released o b) →
       v_callers A !! length (v_done A) = Some c → outcome_of c o).

Definition stage_of (A : view) (k : nat) : stage :=
  match v_done A !! k with
  | Some o => Finished o
  | None =>
      if decide (k = length (v_done A)) then from_option Active Absent (v_phase A)
      else if decide (k < length (v_callers A)) then Waiting else Absent
  end.

Definition unlock_of (k : nat) : val := VResolve (PInner k).

Definition awaiter (c : option caller) (k : nat) : reaction :=
  match c with
  | Some Direct => RHolder k
  | _ => RAwaitLock k
  end.

Definition chain_at (st : stage) (next : bool) (k : nat) : option pstate :=
  match st with
  | Absent => None
  | Finished _ => Some (Settled (Fulfilled VUndef))
  | Waiting | Active _ => Some (Pending (if next then [RThen (S k)] else []))
  end.

Definition lock_at (st : stage) (c : option caller) (k : nat) : option pstate :=
  match st with
  | Absent => None
  | Waiting | Active Turn => Some (Pending [awaiter c k])
  | Active _ | Finished _ => Some (Settled (Fulfilled (unlock_of k)))
  end.

Definition inner_at (st : stage) (k : nat) : option pstate :=
  match st with
  | Absent | Waiting | Active Turn => None
  | Active Granted | Active (Running false) | Active (Ended _ false) => Some (Pending [])
  | Active (Running true) | Active (Ended _ true) => Some (Pending [RAdopt (PChain k)])
  | Active (Released _ _) | Finished _ => Some (Settled (Fulfilled VUndef))
  end.

Definition result_at (st : stage) (c : option caller) : option pstate :=
  match c with
  | Some (Dispatch _) =>
      match st with
      | Absent => None
      | Active (Released o _) | Finished o => Some (Settled o)
      | Waiting | Active _ => Some (Pending [])
      end
  | _ => None
  end.

Definition body_at (st : stage) (c : option caller) (k : nat) : option pstate :=
  match c with
  | Some (Dispatch (Returns _)) | Some (Dispatch Async) =>
      match st with
      | Active (Running _) => Some (Pending [RAwaitBody k (unlock_of k)])
      | Active (Ended o _) | Active (Released o _) | Finished o => Some (Settled o)
      | _ => None
      end
  | _ => None
  end.

Definition held_at (st : stage) (c : option caller) (k : nat) : option val :=
  match c with
  | Some Direct =>
      match st with
      | Active (Running _) | Active (Ended _ _) | Active (Released _ _) | Finished _ =>
          Some (unlock_of k)
      | _ => None
      end
  | _ => None
  end.

Definition heap_at (A : view) (p : pid) : option pstate :=
  match p with
  | PInit => Some (Settled (Fulfilled VUndef))
  | PChain k =>
      chain_at (stage_of A k) (bool_decide (S k < length (v_callers A))) k
  | PLock k => lock_at (stage_of A k) (v_callers A !! k) k
  | PInner k => inner_at (stage_of A k) k
  | PResult k => result_at (stage_of A k) (v_callers A !! k)
  | PBody k => body_at (stage_of A k) (v_callers A !! k) k
  end.

(** The submission a promise belongs to. *)
Definition owner (p : pid) : option nat :=
  match p with
  | PInit => None
  | PChain k | PLock k | PInner k | PResult k | PBody k => Some k
  end.

Definition tail_of (n : nat) : pid :=
  match n with
  | 0 => PInit
  | S m => PChain m
  end.

Definition thenable_job (a : nat) : job := JThenable (PChain a) (PInner a).

Definition queue_of (A : view) : list job :=
  let a := length (v_done A) in
  match v_phase A with
  | None => []
  | Some Turn => [JReact (RThen a) (Fulfilled VUndef)]
  | Some Granted =>
      [JReact (awaiter (v_callers A !! a) a) (Fulfilled (unlock_of a)); thenable_job a]
  | Some (Running false) => [thenable_job a]
  | Some (Running true) => []
  | Some (Ended o false) => [thenable_job a; JReact (RAwaitBody a (unlock_of a)) o]
  | Some (Ended o true) => [JReact (RAwaitBody a (unlock_of a)) o]
  | Some (Released _ false) => [thenable_job a]
  | Some (Released _ true) => [JReact (RAdopt (PChain a)) (Fulfilled VUndef)]
  end.

(** The critical sections [k], [k+1], ... with the given outcomes, one
    after the other. *)
Fixpoint turns (k : nat) (done : list outcome) : list event :=
  match done with
  | [] => []
  | o :: done => Begin k :: End k o :: turns (S k) done
  end.

Definition finished_trace (done : list outcome) : list event := turns 0 done.

Definition trace_of (A : view) : list event :=
  let a := length (v_done A) in
  finished_trace (v_done A) ++
  match v_phase A with
  | Some (Running _) => [Begin a]
  | Some (Ended o _) | Some (Released o _) => [Begin a; End a o]
  | _ => []
  end.

Record Rep (A : view) (s : state) : Prop := {
  rep_callers : callers s = v_callers A;
  rep_begins : begins s = (λ k, Some (PLock k)) <$> seq 0 (length (v_callers A));
  rep_mutex : mutex s = tail_of (length (v_callers A));
  rep_queue : queue s = queue_of A;
  rep_trace : trace s = trace_of A;
  rep_held : ∀ k, held s !! k = held_at (stage_of A k) (v_callers A !! k) k;
  rep_heap : ∀ p, heap s !! p = heap_at A p;
}.

(** How the view moves with the machine. *)
Definition submit (c : caller) (A : view) : view :=
  {| v_callers := v_callers A ++ [c];
     v_done := v_done A;
     v_phase := match v_phase A with
                | None => Some Turn
                | Some ph => Some ph
                end |}.

Definition set_phase (ph : phase) (A : view) : view :=
  {| v_callers := v_callers A; v_done := v_done A; v_phase := Some ph |}.

Definition finish (o : outcome) (A : view) : view :=
  {| v_callers := v_callers A;
     v_done := v_done A ++ [o];
     v_phase := if decide (S (length (v_done A)) < length (v_callers A))
                then Some Turn else None |}.

Definition next_view (i : input) (A : view) : view :=
  let a := length (v_done A) in
  match i with
  | CallDispatch fn => submit (Dispatch fn) A
  | CallLock => submit Direct A
  | RunJob =>
      match v_phase A with
      | None => A
      | Some Turn => set_phase Granted A
      | Some Granted =>
          match v_callers A !! a with
          | Some (Dispatch (Returns v)) => set_phase (Ended (Fulfilled v) false) A
          | Some (Dispatch (Throws e)) => set_phase (Released (Rejected e) false) A
          | Some (Dispatch Async) | Some Direct => set_phase (Running false) A
          | None => A
          end
      | Some (Running false) => set_phase (Running true) A
      | Some (Running true) => A
      | Some (Ended o false) => set_phase (Ended o true) A
      | Some (Ended o true) => set_phase (Released o true) A
      | Some (Released o false) => set_phase (Released o true) A
      | Some (Released o true) => finish o A
      end
  | SettleBody k o =>
      match v_phase A, v_callers A !! k with
      | Some (Running b), Some (Dispatch Async) =>
          if decide (k = a) then set_phase (Ended o b) A else A
      | _, _ => A
      end
  | CallUnlock k =>
      match v_phase A, v_callers A !! k with
      | Some (Running b), Some Direct =>
          if decide (k = a) then set_phase (Released (Fulfilled VUndef) b) A else A
      | _, _ => A
      end
  end.

(** What the two ways to submit have in common: [dispatch(fn)] up to its
    first [await], and [lock().then(unlock => ...)]. *)
Definition submission (c : caller) (s : state) : state :=
  let k := length (callers s) in
  let s := add_caller c s in
  let s := match c with
           | Dispatch _ => alloc (PResult k) (Pending []) s
           | Direct => s
           end in
  then_ (lock s).1 (awaiter (Some c) k) (lock s).2.

(** Microtasks left before the queue is empty, at most. *)
Definition rank (ph : phase) : nat :=
  match ph with
  | Turn => 5
  | Granted => 4
  | Running false => 1
  | Running true => 0
  | Ended _ false => 3
  | Ended _ true => 2
  | Released _ false => 2
  | Released _ true => 1
  end.

Definition fuel (A : view) : nat :=
  match v_phase A with
  | None | Some (Running true) => 0
  | Some ph => 5 * (length (v_callers A) - S (length (v_done A))) + rank ph
  end.

Definition view0 : view := {| v_callers := []; v_done := []; v_phase := None |}.

Definition view_after (inputs : list input) : view :=
  foldl (λ A i, next_view i A) view0 inputs.

End View.

(** ** Concrete hosts and configurations *)
Module Examples.

Import Resolver.

(** A host with [/ws/main.go] open, [dlv] installed, nothing suppressed and
    the single environment variable [A=1]. *)
Definition host : Host := {|
  activeTextEditor := Some {| languageId := "go"; fileName := "/ws/main.go" |};
  packagePathToGoModPathMap := ∅;
  delveConfig := ∅;
  dlvBinPath := "/go/bin/dlv";
  globalState := Some ∅;
  processEnv := {[ "A" := VStr "1" ]};
  toolsEnvVars := VUndefined;
  httpProxy := VUndefined;
  currentGoPath := "";
|}.

(** The same host with a test file open, with no editor, and without [dlv]. *)
Definition hostTestFile : Host := {|
  activeTextEditor := Some {| languageId := "go"; fileName := "/ws/foo_test.go" |};
  packagePathToGoModPathMap := ∅;
  delveConfig := ∅;
  dlvBinPath := "/go/bin/dlv";
  globalState := Some ∅;
  processEnv := ∅;
  toolsEnvVars := VUndefined;
  httpProxy := VUndefined;
  currentGoPath := "";
|}.

Definition hostNoEditor : Host := {|
  activeTextEditor := None;
  packagePathToGoModPathMap := ∅;
  delveConfig := ∅;
  dlvBinPath := "/go/bin/dlv";
  globalState := Some ∅;
  processEnv := ∅;
  toolsEnvVars := VUndefined;
  httpProxy := VUndefined;
  currentGoPath := "";
|}.


(** The host [host] after the user chose not to see the [gcflags] warning
    again. *)
Definition hostSuppressed : Host := {|
  activeTextEditor := Some {| languageId := "go"; fileName := "/ws/main.go" |};
  packagePathToGoModPathMap := ∅;
  delveConfig := ∅;
  dlvBinPath := "/go/bin/dlv";
  globalState := updateGlobalState (Some ∅) "ignoreDebugGCFlagsWarning" (VBool true);
  processEnv := {[ "A" := VStr "1" ]};
  toolsEnvVars := VUndefined;
  httpProxy := VUndefined;
  currentGoPath := "";
|}.

Definition launchAuto : object :=
  {[ "name" := VStr "Launch"; "type" := VStr "go"; "request" := VStr "launch";
     "mode" := VStr "auto"; "program" := VStr "/ws" ]}.


Definition gcflagsInGoflags : object :=
  <["buildFlags" := VStr "--other=1"]>
    (<["env" := VObj {[ "GOFLAGS" := VStr "--gcflags=all=-l" ]}]> launchAuto).

Definition gcflagsInBoth : object :=
  <["buildFlags" := VStr "--gcflags=all=-l"]>
    (<["env" := VObj {[ "GOFLAGS" := VStr "--gcflags=all=-l" ]}]> launchAuto).


(** The configuration a call has returned, if it has returned one. *)
Definition returned (r : outcome * list effect) : object :=
  match r.1 with
  | Returned (Some c) => c
  | _ => ∅
  end.

(** One env file, [/ws/.env], defining [A=2] and [B=2]; inline [B=3]. *)
Definition envFileContents (path : string) : object :=
  if String.eqb path "/ws/.env" then {[ "A" := VStr "2"; "B" := VStr "2" ]} else ∅.

Definition withEnvFile : object :=
  <["envFile" := VStr "/ws/.env"]>
    (<["env" := VObj {[ "B" := VStr "3" ]}]> launchAuto).

End Examples.

(** ** Concrete histories of the mutex *)
Module Histories.

Import Mutex.

(** Four submissions at once: one returns, one throws, one returns a
    promise that is rejected later, and one locks directly. *)
Definition history : list input :=
  [CallDispatch (Returns (VData 1)); CallDispatch (Throws (VData 2));
   CallDispatch Async; CallLock]
  ++ replicate 20 RunJob
  ++ [SettleBody 2 (Rejected (VData 7))]
  ++ replicate 20 RunJob
  ++ [CallUnlock 3].

(** The first body throws; a second submission is waiting. *)
Definition failing : list input :=
  [CallDispatch (Throws (VData 7)); CallDispatch (Returns (VData 1)); RunJob; RunJob].

End Histories.

(** ** Answering a warning

    [showWarning] shows a message with the single item [Don't Show Again];
    the promise of [showWarningMessage] resolves with the item the user
    picked, or with [undefined] when the message is closed. *)
Module Warning.

Import Resolver.

Inductive answer :=
  | NeverAgain    (* result === neverAgain *)
  | Closed.       (* result === undefined *)

(** The callback [(result) => { if (result === neverAgain)
    updateGlobalState(ignoreWarningKey, true); }] of the warning [e]. *)
Definition answerWarning (h : Host) (e : effect) (result : answer) : Host :=
  match e, result with
  | ShowWarningMessage ignoreWarningKey _, NeverAgain =>
      {| activeTextEditor := activeTextEditor h;
         packagePathToGoModPathMap := packagePathToGoModPathMap h;
         delveConfig := delveConfig h;
         dlvBinPath := dlvBinPath h;
         globalState := updateGlobalState (globalState h) ignoreWarningKey (VBool true);
         processEnv := processEnv h;
         toolsEnvVars := toolsEnvVars h;
         httpProxy := httpProxy h;
         currentGoPath := currentGoPath h |}
  | _, _ => h
  end.

(** The key a shown effect can be suppressed under, if it is a warning. *)
Definition keyOf (e : effect) : option string :=
  match e with
  | ShowWarningMessage ignoreWarningKey _ => Some ignoreWarningKey
  | PromptForMissingTool _ => None
  end.

End Warning.

(** ** [goEnv.ts]: the environment for installing tools *)
Module GoEnv.

Import Resolver.

(** [vscode.window.showInformationMessage(msg, ...items)]. *)
Inductive effect :=
  | ShowInformationMessage (msg : string) (items : list string).

(** The callback of the message: the command run for the item picked. *)
Definition settingsCommand (selected : option string) : option string :=
  match selected with
  | Some item =>
      if String.eqb item "Open User Settings"
      then Some "workbench.action.openGlobalSettings"
      else if String.eqb item "Open Workspace Settings"
      then Some "workbench.action.openWorkspaceSettings"
      else None
  | None => None
  end.

Definition cannotInstallMessage : string :=
  "Cannot install Go tools. Set either go.gopath or go.toolsGopath in settings.".

Section Env.

Variable resolvePath : value → value.

(** [toolInstallationEnvironment()].  [toolsGopath] is what
    [getToolsGopath()] returns and [gopath] what [getCurrentGoPath()]
    returns, the empty string standing for any falsy result.  The function
    returns [undefined] ([None]) when it cannot name a GOPATH. *)
Definition toolInstallationEnvironment (h : Host) (toolsGopath gopath : string)
    : option object * list effect :=
  let env := newEnvironment resolvePath h in
  let '(env, toolsGopath) :=
    if truthy (VStr toolsGopath)
    then (<["GOBIN" := VStr ""]> env, toolsGopath)
    else (env, gopath) in
  if negb (truthy (VStr toolsGopath)) then
    (None,
     [ShowInformationMessage cannotInstallMessage
        ["Open User Settings"; "Open Workspace Settings"]])
  else
    let env := <["GOPATH" := VStr toolsGopath]> env in
    let env := delete "GOOS" env in
    let env := delete "GOARCH" env in
    let env := delete "GOROOT" env in
    let env := delete "GOFLAGS" env in
    let env := delete "GOENV" env in
    (Some env, []).

End Env.

End GoEnv.

(** ** [goLint.ts]: [lintCode] and [goLint]

    Strings are the sequences of their character codes, all taken to be
    below 256. *)
Module Lint.

Import Resolver.

(** *** The string methods [goLint] uses *)

(** [s.startsWith(prefix)]. *)
Definition startsWith (s prefix : string) : bool := String.prefix prefix s.

(** [s.indexOf('=') + 1]: 0 when there is no [=]. *)
Definition afterEquals (s : string) : nat :=
  match String.index 0 "=" s with
  | Some i => S i
  | None => 0
  end.

(** [s.substr(start)] and [s.substr(0, length)]. *)
Definition substrFrom (start : nat) (s : string) : string :=
  String.substring start (String.length s - start) s.

Definition substrTo (len : nat) (s : string) : string := String.substring 0 len s.

(** White space and line terminators below 256: TAB, LF, VT, FF, CR, SP and
    NBSP. *)
Definition isWhiteSpace (c : ascii) : bool :=
  let n := nat_of_ascii c in
  ((9 <=? n)%nat && (n <=? 13)%nat) || (n =? 32)%nat || (n =? 160)%nat.

Fixpoint trimStart (s : string) : string :=
  match s with
  | String c r => if isWhiteSpace c then trimStart r else s
  | EmptyString => EmptyString
  end.

Definition reverse (s : string) : string :=
  String.string_of_list_ascii (rev (String.list_ascii_of_string s)).

Definition trimEnd (s : string) : string := reverse (trimStart (reverse s)).

(** [s.trim()]. *)
Definition trim (s : string) : string := trimEnd (trimStart s).

(** *** [lintCode] *)

Definition noEditorMessage : string :=
  "No editor is active, cannot find current package to lint".

Definition notGoMessage : string :=
  "File in the active editor is not a Go file, cannot find current package to lint".

(** How [lintCode] ends, up to its call of [goLint]. *)
Inductive lintCodeResult :=
  | ShowInformationMessage (msg : string)   (* message shown, then [return] *)
  | ThrowsTypeError                         (* [editor.document] on [undefined] *)
  | CallsGoLint (editor : TextEditor).      (* [goLint(documentUri, goConfig, scope)] *)

Definition lintCode (editor : option TextEditor) (scope : value) : lintCodeResult :=
  if negb (bool_decide (is_Some editor)) && negb (is_str scope "workspace") then
    ShowInformationMessage noEditorMessage
  else
    match editor with
    | None => ThrowsTypeError
    | Some ed =>
        if negb (String.eqb (languageId ed) "go") && negb (is_str scope "workspace")
        then ShowInformationMessage notGoMessage
        else CallsGoLint ed
    end.

(** *** [goLint] *)

(** The module variables [epoch], [tokenSource] and [running].  A
    cancellation token source is named by the value of [epoch] at its
    creation; [cancelled] and [disposed] list the sources that [cancel()]
    and [dispose()] were called on. *)
Record state := {
  epoch : nat;
  tokenSource : option nat;
  running : bool;
  cancelled : list nat;
  disposed : list nat;
}.

Definition init : state :=
  {| epoch := 0; tokenSource := None; running := false; cancelled := []; disposed := [] |}.

(** What a call reads: the arguments and the configuration values. *)
Record call := {
  fsPath : string;            (* fileUri.fsPath *)
  scope : value;              (* scope, [undefined] when omitted *)
  currentWorkspace : string;  (* getWorkspaceFolderPath(fileUri); empty for a falsy result *)
  lintTool : value;           (* goConfig['lintTool'] *)
  lintFlags : list string;    (* goConfig['lintFlags'] || [] *)
  toolsGopath : value;        (* goConfig['toolsGopath'] *)
  getToolsGopath : string;    (* getToolsGopath() *)
}.

(** The call [runTool(args, cwd, 'warning', false, lintTool, lintEnv, false,
    tokenSource.token)], whose promise runs the callback of [closureEpoch]
    when it resolves. *)
Record toolRun := {
  args : list string;
  cwd : string;
  tool : value;
  env : object;
  token : nat;
  closureEpoch : nat;
}.

Inductive result :=
  | ResolvedEmpty            (* Promise.resolve([]) *)
  | RunTool (r : toolRun).

Section GoLint.

(** [util.resolvePath], and ToString of the language (in [+=] and in a
    template literal). *)
Variable resolvePath : value → value.
Variable toString : value → string.

(** The callback of [lintFlags.forEach]. *)
Definition addFlag (args : list string) (flag : string) : list string :=
  if String.eqb flag "--json" then args
  else if startsWith flag "--config=" || startsWith flag "-config=" then
    let configFilePath := trim (substrFrom (afterEquals flag) flag) in
    if negb (truthy (VStr configFilePath)) then args
    else
      let configFilePath := resolvePath (VStr configFilePath) in
      args ++ [substrTo (afterEquals flag) flag +:+ toString configFilePath]
  else args ++ [flag].

(** [if (args.indexOf(x) === -1) args.push(x)]. *)
Definition pushMissing (x : string) (args : list string) : list string :=
  if bool_decide (x ∈ args) then args else args ++ [x].

Definition gometalinterArgs (args : list string) : list string :=
  pushMissing "--aggregate" args.

Definition gometalinterEnv (c : call) (lintEnv : object) : object :=
  if truthy (toolsGopath c)
  then <["GOPATH" := VStr (toString (get lintEnv "GOPATH") +:+ ":" +:+ getToolsGopath c)]>
         lintEnv
  else lintEnv.

Definition golangciArgs (args : list string) : list string :=
  let args := if bool_decide ("run" ∈ args) then args else "run" :: args in
  let args := pushMissing "--print-issued-lines=false" args in
  let args := pushMissing "--out-format=colored-line-number" args in
  if bool_decide ("--issues-exit-code=" ∈ args) then args
  else args ++ ["--issues-exit-code=0"].

(** The start of [goLint]: a new epoch and a new token source; the old
    source is cancelled if a run is flagged and disposed in any case. *)
Definition renew (s : state) : state :=
  {| epoch := S (epoch s);
     tokenSource := Some (S (epoch s));
     running := running s;
     cancelled := match tokenSource s with
                  | Some t => if running s then t :: cancelled s else cancelled s
                  | None => cancelled s
                  end;
     disposed := match tokenSource s with
                 | Some t => t :: disposed s
                 | None => disposed s
                 end |}.

Definition setRunning (b : bool) (s : state) : state :=
  {| epoch := epoch s; tokenSource := tokenSource s; running := b;
     cancelled := cancelled s; disposed := disposed s |}.

(** [goLint(fileUri, goConfig, scope)]: the new state, the lines written to
    the output channel and the promise returned. *)
Definition goLint (h : Host) (c : call) (s : state) : state * list string * result :=
  let s := renew s in
  let closureEpoch := epoch s in
  let inWorkspace := is_str (scope c) "workspace" && truthy (VStr (currentWorkspace c)) in
  let cwd := if inWorkspace then currentWorkspace c else Path.dirname (fsPath c) in
  if negb (Path.isAbsolute cwd) then (s, [], ResolvedEmpty)
  else
    let lintTool := if truthy (lintTool c) then lintTool c else VStr "golint" in
    let lintEnv := toolExecutionEnvironment resolvePath h in
    let args := foldl addFlag [] (lintFlags c) in
    let '(args, lintEnv) :=
      if is_str lintTool "gometalinter"
      then (gometalinterArgs args, gometalinterEnv c lintEnv)
      else (args, lintEnv) in
    let args := if is_str lintTool "golangci-lint" then golangciArgs args else args in
    let '(args, out) :=
      if inWorkspace then
        (args ++ ["./..."],
         ["Starting linting the current workspace at " +:+ currentWorkspace c])
      else if is_str (scope c) "file" then
        (args ++ [fsPath c], ["Starting linting the current file at " +:+ fsPath c])
      else (args, ["Starting linting the current package at " +:+ cwd]) in
    let s := setRunning true s in
    (s, out,
     RunTool {| args := args; cwd := cwd; tool := lintTool; env := lintEnv;
                token := default 0 (tokenSource s); closureEpoch := closureEpoch |}).

(** The callback of the promise of [runTool]:
    [if (closureEpoch === epoch) running = false]. *)
Definition finished (closureEpoch : nat) (s : state) : state :=
  if (closureEpoch =? epoch s)%nat then setRunning false s else s.

End GoLint.

(** *** Lint runs over time *)

(** [goLint] is called, or the tool run started by the call of an epoch
    comes to its end. *)
Inductive event :=
  | Lint (h : Host) (c : call)
  | Finished (closureEpoch : nat).

Section Runs.

Variable resolvePath : value → value.
Variable toString : value → string.

(** The module variables and the tokens of the tool runs in flight. *)
Definition step (st : state * list nat) (e : event) : state * list nat :=
  let '(s, inFlight) := st in
  match e with
  | Lint h c =>
      match goLint resolvePath toString h c s with
      | (s, _, RunTool r) => (s, token r :: inFlight)
      | (s, _, ResolvedEmpty) => (s, inFlight)
      end
  | Finished e =>
      if bool_decide (e ∈ inFlight)
      then (finished e s, filter (λ t, t ≠ e) inFlight)
      else (s, inFlight)
  end.

Definition runs (events : list event) : state * list nat :=
  foldl step (init, []) events.

End Runs.

End Lint.

(** ** Open critical sections *)
Module Progress.

Import Mutex View.

(** A critical section stays open only for a body that returned a promise
    and for a direct caller. *)
Definition waits_for_others (A : view) : Prop :=
  ∀ b, v_phase A = Some (Running b) →
       v_callers A !! length (v_done A) = Some (Dispatch Async)
       ∨ v_callers A !! length (v_done A) = Some Direct.

End Progress.

(** ** [GoDebugConfigurationProvider.pickConfiguration] *)
Module Pick.

(** The six items of the quick pick, in the order of [debugConfigurations]. *)
Inductive choice :=
  | LaunchPackage
  | LaunchFile
  | LaunchTestPackage
  | LaunchTestFunction
  | AttachToProcess
  | ConnectToServer.

(** What the input boxes of the two [fill] callbacks resolve with:
    [undefined] ([None]) when an input box is dismissed.  [port] is
    [Number(await showInputBox(...))], with [None] for [NaN]. *)
Record answers := {
  testFunc : option string;
  host : option string;
  port : option value;
}.

Definition label (ch : choice) : string :=
  match ch with
  | LaunchPackage => "Go: Launch package"
  | LaunchFile => "Go: Launch file"
  | LaunchTestPackage => "Go: Launch test package"
  | LaunchTestFunction => "Go: Launch test function"
  | AttachToProcess => "Go: Attach to local process"
  | ConnectToServer => "Go: Connect to server"
  end.

Definition description (ch : choice) : string :=
  match ch with
  | LaunchPackage => "Debug the package in the program attribute"
  | LaunchFile => "Debug the file in the program attribute"
  | LaunchTestPackage => "Debug the test package in the program attribute"
  | LaunchTestFunction =>
      "Debug the test function in the args, ensure program attributes points to right package"
  | AttachToProcess => "Attach to an existing process by process ID"
  | ConnectToServer => "Connect to a remote headless debug server"
  end.

Section Provider.

Variable defaultDebugAdapterType : string.

Definition config (ch : choice) : object :=
  match ch with
  | LaunchPackage =>
      {[ "name" := VStr "Launch Package"; "type" := VStr defaultDebugAdapterType;
         "request" := VStr "launch"; "mode" := VStr "debug";
         "program" := VStr "${workspaceFolder}" ]}
  | LaunchFile =>
      {[ "name" := VStr "Launch file"; "type" := VStr "go";
         "request" := VStr "launch"; "mode" := VStr "debug";
         "program" := VStr "${file}" ]}
  | LaunchTestPackage =>
      {[ "name" := VStr "Launch test package"; "type" := VStr "go";
         "request" := VStr "launch"; "mode" := VStr "test";
         "program" := VStr "${workspaceFolder}" ]}
  | LaunchTestFunction =>
      {[ "name" := VStr "Launch test function"; "type" := VStr "go";
         "request" := VStr "launch"; "mode" := VStr "test";
         "program" := VStr "${workspaceFolder}";
         "args" := VArr [VStr "-test.run"; VStr "MyTestFunction"] ]}
  | AttachToProcess =>
      {[ "name" := VStr "Attach to Process"; "type" := VStr "go";
         "request" := VStr "attach"; "mode" := VStr "local";
         "processId" := VNum 0 ]}
  | ConnectToServer =>
      {[ "name" := VStr "Connect to server"; "type" := VStr "go";
         "request" := VStr "attach"; "mode" := VStr "remote";
         "remotePath" := VStr "${workspaceFolder}"; "port" := VNum 2345;
         "host" := VStr "127.0.0.1" ]}
  end.

(** [!!x] for what an input box resolved with. *)
Definition entered (x : option string) : option string :=
  match x with
  | Some s => if truthy (VStr s) then Some s else None
  | None => None
  end.

(** [choice.fill(choice.config)], for the two items that have a [fill]. *)
Definition fill (ch : choice) (a : answers) (config : object) : object :=
  match ch with
  | LaunchTestFunction =>
      match entered (testFunc a) with
      | Some f => <["args" := VArr [VStr "-test.run"; VStr f]]> config
      | None => config
      end
  | ConnectToServer =>
      let config :=
        match entered (host a) with
        | Some h => <["host" := VStr h]> config
        | None => config
        end in
      match port a with
      | Some p => if truthy p then <["port" := p]> config else config
      | None => config
      end
  | _ => config
  end.

(** [pickConfiguration()]: [picked] is what [showQuickPick] resolves
    with. *)
Definition pickConfiguration (picked : option choice) (a : answers) : list object :=
  match picked with
  | None => []
  | Some ch => [fill ch a (config ch)]
  end.

End Provider.

End Pick.

(** ** More hosts, configurations and calls *)
Module MoreExamples.

Import Resolver Examples.

(** The host [host] in a workspace whose [go.delveConfig] sets the API
    version, the load configuration and [useApiV1]. *)
Definition hostDelve : Host := {|
  activeTextEditor := Some {| languageId := "go"; fileName := "/ws/main.go" |};
  packagePathToGoModPathMap := {[ "/ws" := VStr "/ws" ]};
  delveConfig := {[ "apiVersion" := VNum 2; "useApiV1" := VBool false;
                    "dlvLoadConfig" := VObj {[ "maxStringLen" := VNum 64 ]} ]};
  dlvBinPath := "/go/bin/dlv";
  globalState := Some ∅;
  processEnv := {[ "A" := VStr "1"; "GOOS" := VStr "plan9" ]};
  toolsEnvVars := VObj {[ "GOFLAGS" := VStr "-mod=vendor" ]};
  httpProxy := VStr "http://proxy:8080";
  currentGoPath := "/go";
|}.

(** An [attach] configuration in mode [remote] that names a program, asks
    for API version 1 and carries a property the resolver does not know. *)
Definition attachRemote : object :=
  {[ "name" := VStr "Attach"; "type" := VStr "go"; "request" := VStr "attach";
     "mode" := VStr "remote"; "program" := VStr "/ws"; "useApiV1" := VBool true;
     "trace" := VStr "verbose" ]}.

(** A configuration without [request]. *)
Definition partial : object :=
  {[ "mode" := VStr "test"; "args" := VArr [VStr "-v"] ]}.

(** ToString, for the property keys of the examples. *)
Definition text (v : value) : string := toText v.

(** A lint of the package of [/ws/main.go] with [golangci-lint]. *)
Definition lintPackage : Lint.call := {|
  Lint.fsPath := "/ws/main.go";
  Lint.scope := VUndefined;
  Lint.currentWorkspace := "/ws";
  Lint.lintTool := VStr "golangci-lint";
  Lint.lintFlags := ["--json"; "--config= ~/lint.yml "; "--issues-exit-code=1"];
  Lint.toolsGopath := VUndefined;
  Lint.getToolsGopath := "";
|}.

(** The tool run of a result, if it is one. *)
Definition started (r : Lint.result) : Lint.toolRun :=
  match r with
  | Lint.RunTool r => r
  | Lint.ResolvedEmpty =>
      {| Lint.args := []; Lint.cwd := ""; Lint.tool := VUndefined; Lint.env := ∅;
         Lint.token := 0; Lint.closureEpoch := 0 |}
  end.

End MoreExamples.

(** ** One more history of the mutex *)
Module MoreHistories.

Import Mutex.

(** A direct caller takes the lock and keeps it; a [dispatch] waits. *)
Definition holding : list input :=
  [CallLock; CallDispatch (Returns (VData 1))] ++ replicate 6 RunJob.

End MoreHistories.

(** ** [goTools.ts]: the tools of the extension *)
Module Tools.

(** A tool.  Versions are given by the argument of [semver.coerce],
    timestamps by the date passed to [moment]; [close] tells whether the
    tool has a [close] function. *)
Record Tool := {
  name : string;
  importPath : string;
  isImportant : bool;
  replacedByGopls : option bool;
  description : string;
  minimumGoVersion : option string;
  latestVersion : option string;
  latestVersionTimestamp : option string;
  latestPrereleaseVersion : option string;
  latestPrereleaseVersionTimestamp : option string;
  close : bool;
}.

(** [util.GoVersion], as far as it is asked: [lt(version)] and
    [gt(version)]. *)
Record GoVersion := {
  lt : string → bool;
  gt : string → bool;
}.

Definition allToolsInformation : gmap string Tool :=
  list_to_map [
    ("gocode",
     {| name := "gocode";
        importPath := "github.com/mdempsky/gocode";
        isImportant := true;
        replacedByGopls := Some true;
        description := "Auto-completion, does not work with modules";
        minimumGoVersion := None;
        latestVersion := None;
        latestVersionTimestamp := None;
        latestPrereleaseVersion := None;
        latestPrereleaseVersionTimestamp := None;
        close := true |});
    ("gocode-gomod",
     {| name := "gocode-gomod";
        importPath := "github.com/stamblerre/gocode";
        isImportant := true;
        replacedByGopls := Some true;
        description := "Auto-completion, works with modules";
        minimumGoVersion := Some "1.11";
        latestVersion := None;
        latestVersionTimestamp := None;
        latestPrereleaseVersion := None;
        latestPrereleaseVersionTimestamp := None;
        close := false |});
    ("gopkgs",
     {| name := "gopkgs";
        importPath := "github.com/uudashr/gopkgs/v2/cmd/gopkgs";
        isImportant := true;
        replacedByGopls := Some false;
        description := "Auto-completion of unimported packages & Add Import feature";
        minimumGoVersion := None;
        latestVersion := None;
        latestVersionTimestamp := None;
        latestPrereleaseVersion := None;
        latestPrereleaseVersionTimestamp := None;
        close := false |});
    ("go-outline",
     {| name := "go-outline";
        importPath := "github.com/ramya-rao-a/go-outline";
        isImportant := true;
        replacedByGopls := Some false;
        description := "Go to symbol in file";
        minimumGoVersion := None;
        latestVersion := None;
        latestVersionTimestamp := None;
        latestPrereleaseVersion := None;
        latestPrereleaseVersionTimestamp := None;
        close := false |});
    ("go-symbols",
     {| name := "go-symbols";
        importPath := "github.com/acroca/go-symbols";
        isImportant := false;
        replacedByGopls := Some true;
        description := "Go to symbol in workspace";
        minimumGoVersion := None;
        latestVersion := None;
        latestVersionTimestamp := None;
        latestPrereleaseVersion := None;
        latestPrereleaseVersionTimestamp := None;
        close := false |});
    ("guru",
     {| name := "guru";
        importPath := "golang.org/x/tools/cmd/guru";
        isImportant := false;
        replacedByGopls := Some true;
        description := "Find all references and Go to implementation of symbols";
        minimumGoVersion := None;
        latestVersion := None;
        latestVersionTimestamp := None;
        latestPrereleaseVersion := None;
        latestPrereleaseVersionTimestamp := None;
        close := false |});
    ("gorename",
     {| name := "gorename";
        importPath := "golang.org/x/tools/cmd/gorename";
        isImportant := false;
        replacedByGopls := Some true;
        description := "Rename symbols";
        minimumGoVersion := None;
        latestVersion := None;
        latestVersionTimestamp := None;
        latestPrereleaseVersion := None;
        latestPrereleaseVersionTimestamp := None;
        close := false |});
    ("gomodifytags",
     {| name := "gomodifytags";
        importPath := "github.com/fatih/gomodifytags";
        isImportant := false;
        replacedByGopls := Some false;
        description := "Modify tags on structs";
        minimumGoVersion := None;
        latestVersion := None;
        latestVersionTimestamp := None;
        latestPrereleaseVersion := None;
        latestPrereleaseVersionTimestamp := None;
        close := false |});
    ("goplay",
     {| name := "goplay";
        importPath := "github.com/haya14busa/goplay/cmd/goplay";
        isImportant := false;
        replacedByGopls := Some false;
        description := "The Go playground";
        minimumGoVersion := None;
        latestVersion := None;
        latestVersionTimestamp := None;
        latestPrereleaseVersion := None;
        latestPrereleaseVersionTimestamp := None;
        close := false |});
    ("impl",
     {| name := "impl";
        importPath := "github.com/josharian/impl";
        isImportant := false;
        replacedByGopls := Some false;
        description := "Stubs for interfaces";
        minimumGoVersion := None;
        latestVersion := None;
        latestVersionTimestamp := None;
        latestPrereleaseVersion := None;
        latestPrereleaseVersionTimestamp := None;
        close := false |});
    ("gotype-live",
     {| name := "gotype-live";
        importPath := "github.com/tylerb/gotype-live";
        isImportant := false;
        replacedByGopls := Some true;
        description := "Show errors as you type";
        minimumGoVersion := None;
        latestVersion := None;
        latestVersionTimestamp := None;
        latestPrereleaseVersion := None;
        latestPrereleaseVersionTimestamp := None;
        close := false |});
    ("godef",
     {| name := "godef";
        importPath := "github.com/rogpeppe/godef";
        isImportant := true;
        replacedByGopls := Some true;
        description := "Go to definition";
        minimumGoVersion := None;
        latestVersion := None;
        latestVersionTimestamp := None;
        latestPrereleaseVersion := None;
        latestPrereleaseVersionTimestamp := None;
        close := false |});
    ("gogetdoc",
     {| name := "gogetdoc";
        importPath := "github.com/zmb3/gogetdoc";
        isImportant := true;
        replacedByGopls := Some true;
        description := "Go to definition & text shown on hover";
        minimumGoVersion := None;
        latestVersion := None;
        latestVersionTimestamp := None;
        latestPrereleaseVersion := None;
        latestPrereleaseVersionTimestamp := None;
        close := false |});
    ("gofumports",
     {| name := "gofumports";
        importPath := "mvdan.cc/gofumpt/gofumports";
        isImportant := false;
        replacedByGopls := Some true;
        description := "Formatter";
        minimumGoVersion := None;
        latestVersion := None;
        latestVersionTimestamp := None;
        latestPrereleaseVersion := None;
        latestPrereleaseVersionTimestamp := None;
        close := false |});
    ("gofumpt",
     {| name := "gofumpt";
        importPath := "mvdan.cc/gofumpt";
        isImportant := false;
        replacedByGopls := Some true;
        description := "Formatter";
        minimumGoVersion := None;
        latestVersion := None;
        latestVersionTimestamp := None;
        latestPrereleaseVersion := None;
        latestPrereleaseVersionTimestamp := None;
        close := false |});
    ("goimports",
     {| name := "goimports";
        importPath := "golang.org/x/tools/cmd/goimports";
        isImportant := true;
        replacedByGopls := Some true;
        description := "Formatter";
        minimumGoVersion := None;
        latestVersion := None;
        latestVersionTimestamp := None;
        latestPrereleaseVersion := None;
        latestPrereleaseVersionTimestamp := None;
        close := false |});
    ("goreturns",
     {| name := "goreturns";
        importPath := "github.com/sqs/goreturns";
        isImportant := true;
        replacedByGopls := Some true;
        description := "Formatter";
        minimumGoVersion := None;
        latestVersion := None;
        latestVersionTimestamp := None;
        latestPrereleaseVersion := None;
        latestPrereleaseVersionTimestamp := None;
        close := false |});
    ("goformat",
     {| name := "goformat";
        importPath := "winterdrache.de/goformat/goformat";
        isImportant := false;
        replacedByGopls := Some true;
        description := "Formatter";
        minimumGoVersion := None;
        latestVersion := None;
        latestVersionTimestamp := None;
        latestPrereleaseVersion := None;
        latestPrereleaseVersionTimestamp := None;
        close := false |});
    ("gotests",
     {| name := "gotests";
        importPath := "github.com/cweill/gotests/...";
        isImportant := false;
        replacedByGopls := Some false;
        description := "Generate unit tests";
        minimumGoVersion := Some "1.9";
        latestVersion := None;
        latestVersionTimestamp := None;
        latestPrereleaseVersion := None;
        latestPrereleaseVersionTimestamp := None;
        close := false |});
    ("golint",
     {| name := "golint";
        importPath := "golang.org/x/lint/golint";
        isImportant := true;
        replacedByGopls := Some false;
        description := "Linter";
        minimumGoVersion := Some "1.9";
        latestVersion := None;
        latestVersionTimestamp := None;
        latestPrereleaseVersion := None;
        latestPrereleaseVersionTimestamp := None;
        close := false |});
    ("staticcheck",
     {| name := "staticcheck";
        importPath := "honnef.co/go/tools/...";
        isImportant := true;
        replacedByGopls := Some false;
        description := "Linter";
        minimumGoVersion := None;
        latestVersion := None;
        latestVersionTimestamp := None;
        latestPrereleaseVersion := None;
        latestPrereleaseVersionTimestamp := None;
        close := false |});
    ("golangci-lint",
     {| name := "golangci-lint";
        importPath := "github.com/golangci/golangci-lint/cmd/golangci-lint";
        isImportant := true;
        replacedByGopls := Some false;
        description := "Linter";
        minimumGoVersion := None;
        latestVersion := None;
        latestVersionTimestamp := None;
        latestPrereleaseVersion := None;
        latestPrereleaseVersionTimestamp := None;
        close := false |});
    ("revive",
     {| name := "revive";
        importPath := "github.com/mgechev/revive";
        isImportant := true;
        replacedByGopls := None;
        description := "Linter";
        minimumGoVersion := None;
        latestVersion := None;
        latestVersionTimestamp := None;
        latestPrereleaseVersion := None;
        latestPrereleaseVersionTimestamp := None;
        close := false |});
    ("gopls",
     {| name := "gopls";
        importPath := "golang.org/x/tools/gopls";
        isImportant := true;
        replacedByGopls := Some false;
        description := "Language Server from Google";
        minimumGoVersion := Some "1.12";
        latestVersion := Some "0.5.1";
        latestVersionTimestamp := Some "2020-09-30";
        latestPrereleaseVersion := Some "0.5.1";
        latestPrereleaseVersionTimestamp := Some "2020-09-30";
        close := false |});
    ("dlv",
     {| name := "dlv";
        importPath := "github.com/go-delve/delve/cmd/dlv";
        isImportant := true;
        replacedByGopls := Some false;
        description := "Debugging";
        minimumGoVersion := None;
        latestVersion := None;
        latestVersionTimestamp := None;
        latestPrereleaseVersion := None;
        latestPrereleaseVersionTimestamp := None;
        close := false |});
    ("fillstruct",
     {| name := "fillstruct";
        importPath := "github.com/davidrjenni/reftools/cmd/fillstruct";
        isImportant := false;
        replacedByGopls := Some true;
        description := "Fill structs with defaults";
        minimumGoVersion := None;
        latestVersion := None;
        latestVersionTimestamp := None;
        latestPrereleaseVersion := None;
        latestPrereleaseVersionTimestamp := None;
        close := false |});
    ("godoctor",
     {| name := "godoctor";
        importPath := "github.com/godoctor/godoctor";
        isImportant := false;
        replacedByGopls := Some true;
        description := "Extract to functions and variables";
        minimumGoVersion := None;
        latestVersion := None;
        latestVersionTimestamp := None;
        latestPrereleaseVersion := None;
        latestPrereleaseVersionTimestamp := None;
        close := false |})
  ].

(** [!tool.replacedByGopls]. *)
Definition notReplaced (tool : Tool) : bool :=
  match replacedByGopls tool with
  | Some b => negb b
  | None => true
  end.

Definition getImportPath (tool : Tool) (goVersion : GoVersion) : string :=
  if String.eqb (name tool) "gocode" && lt goVersion "1.10"
  then "github.com/nsf/gocode"
  else importPath tool.

(** [version] is the text of the version, [None] when there is none. *)
Definition getImportPathWithVersion (tool : Tool) (version : option string)
    (goVersion : GoVersion) : string :=
  let importPath := getImportPath tool goVersion in
  match version with
  | Some v => importPath +:+ "@v" +:+ v
  | None => importPath
  end.

Definition disableModulesForWildcard (tool : Tool) (goVersion : GoVersion) : bool :=
  let importPath := getImportPath tool goVersion in
  let isWildcard := Path.endsWith importPath "..." in
  isWildcard && lt goVersion "1.13".

Definition containsString (tools : list Tool) (toolName : string) : bool :=
  existsb (λ tool, String.eqb (name tool) toolName) tools.

Definition hasModSuffix (tool : Tool) : bool := Path.endsWith (name tool) "-gomod".

Definition isGocode (tool : Tool) : bool :=
  String.eqb (name tool) "gocode" || String.eqb (name tool) "gocode-gomod".

(** What [allToolsInformation[name]] can be when it is truthy: a tool of
    the table, or a property that the table inherits from
    [Object.prototype]. *)
Inductive entry :=
  | Known (tool : Tool)
  | Inherited (name : string).

(** What [getConfiguredTools] reads from the configuration and the
    process. *)
Record settings := {
  useLanguageServer : value;   (* goConfig['useLanguageServer'] *)
  docsTool : value;            (* goConfig['docsTool'] *)
  formatTool : value;          (* goConfig['formatTool'] *)
  lintTool : value;            (* goConfig['lintTool'] *)
  arch : string;               (* process.arch *)
  goLiveErrorsEnabled : bool;  (* goLiveErrorsEnabled() *)
}.

Section Configured.

(** The names [Object.prototype] has a property for, and the property key
    of a value (ToString of the language). *)
Variable inherited : string → bool.
Variable toString : value → string.

(** [allToolsInformation[name]], if it is truthy. *)
Definition lookup (name : string) : option entry :=
  match allToolsInformation !! name with
  | Some tool => Some (Known tool)
  | None => if inherited name then Some (Inherited name) else None
  end.

Definition maybeAddTool (useLanguageServer : bool) (tools : list entry) (name : string)
    : list entry :=
  match lookup name with
  | Some (Known tool) =>
      if negb useLanguageServer || notReplaced tool then tools ++ [Known tool] else tools
  | Some (Inherited name) => tools ++ [Inherited name]
  | None => tools
  end.

Definition defaultTools : list string :=
  ["gocode"; "gopkgs"; "go-outline"; "go-symbols"; "guru"; "gorename"; "gotests";
   "gomodifytags"; "impl"; "fillstruct"; "goplay"; "godoctor"].

Definition dlvArchitectures : list string :=
  ["arm64"; "mips"; "mipsel"; "ppc64"; "s390"; "s390x"; "x64"].

Definition getConfiguredTools (goVersion : GoVersion) (goConfig : settings)
    : list entry :=
  let useLanguageServer := truthy (useLanguageServer goConfig) && gt goVersion "1.11" in
  let maybeAddTool := maybeAddTool useLanguageServer in
  let tools := foldl maybeAddTool [] defaultTools in
  let tools := if bool_decide (arch goConfig ∈ dlvArchitectures)
               then maybeAddTool tools "dlv" else tools in
  let tools := if gt goVersion "1.10" then maybeAddTool tools "gocode-gomod" else tools in
  let tools := if is_str (docsTool goConfig) "godoc"
               then maybeAddTool tools "godef"
               else maybeAddTool tools (toString (docsTool goConfig)) in
  let tools := maybeAddTool tools (toString (formatTool goConfig)) in
  let tools := maybeAddTool tools (toString (lintTool goConfig)) in
  let tools := if useLanguageServer then maybeAddTool tools "gopls" else tools in
  if goLiveErrorsEnabled goConfig then maybeAddTool tools "gotype-live" else tools.

End Configured.

End Tools.

(** ** [goModules.ts]: [getCurrentPackage] *)
Module Modules.

Import Lint.

(** *** The string methods [getCurrentPackage] uses *)

(** [\d]. *)
Definition isDigit (c : ascii) : bool :=
  let n := nat_of_ascii c in (48 <=? n)%nat && (n <=? 57)%nat.

(** Whether [/@v\d+(\.\d+)?(\.\d+)?/] matches at the start of [s]: the
    optional groups never make a match fail. *)
Definition versionHere (s : string) : bool :=
  match s with
  | String "@" (String "v" (String d _)) => isDigit d
  | _ => false
  end.

(** [/@v\d+(\.\d+)?(\.\d+)?/.exec(s)]: the index of the leftmost match, if
    there is one. *)
Fixpoint versionIndex (s : string) : option nat :=
  match s with
  | EmptyString => None
  | String _ r => if versionHere s then Some 0 else S <$> versionIndex r
  end.

(** [s.split('\n')]. *)
Fixpoint splitLines (s : string) : list string :=
  match s with
  | EmptyString => [EmptyString]
  | String c r =>
      if Ascii.eqb c "010" then EmptyString :: splitLines r
      else match splitLines r with
           | line :: rest => String c line :: rest
           | [] => [String c EmptyString]
           end
  end.

(** [line.indexOf(' ') === -1]. *)
Definition noSpace (line : string) : bool :=
  negb (existsb (Ascii.eqb " ") (String.list_ascii_of_string line)).

(** *** [getCurrentPackage] *)

(** What a call resolves with: a string, [undefined], or the property of
    [Object.prototype] that [folderToPackageMapping[cwd]] reads for an
    inherited name. *)
Inductive package :=
  | Package (path : string)
  | Undefined
  | InheritedProperty (name : string).

Inductive effect :=
  | Warn (msg : string)                                (* console.warn *)
  | Spawn (command : string) (args : list string) (cwd : string) (env : object).

(** What a call reads outside [folderToPackageMapping]. *)
Record world := {
  moduleCache : string;     (* getModuleCache() *)
  goRuntimePath : string;   (* getBinPath('go'), empty for a falsy result *)
  currentGoRoot : string;   (* getCurrentGoRoot(), as printed *)
  envPath : string;         (* envPath, as printed *)
  toolEnv : object;         (* toolExecutionEnvironment() *)
  stdout : string;          (* all that [go list] writes to its output *)
}.

(** The double quote. *)
Definition quote : string := String "034" EmptyString.

Definition goMissingMessage (w : world) : string :=
  "Failed to run " +:+ quote +:+ "go list" +:+ quote
  +:+ " to find current package as the " +:+ quote +:+ "go" +:+ quote
  +:+ " binary cannot be found in either GOROOT("
  +:+ currentGoRoot w +:+ ") or PATH(" +:+ envPath w +:+ ")".

Section CurrentPackage.

(** The names [Object.prototype] has a property for ([__proto__] among
    them). *)
Variable inherited : string → bool.

(** The import path of a directory inside the module cache. *)
Definition importPathInCache (moduleCache cwd : string) : string :=
  let importPath := substrFrom (String.length moduleCache + 1) cwd in
  match versionIndex importPath with
  | Some index => substrTo index importPath
  | None => importPath
  end.

(** The lines of the output that name a package. *)
Definition packageLines (out : string) : list string :=
  filter (λ line, truthy (VStr line) && noSpace line = true) (splitLines out).

(** [getCurrentPackage(cwd)], run from the call to the end of [go list]:
    the new [folderToPackageMapping], what the promise resolves with, and
    what was done on the way. *)
Definition getCurrentPackage (folderToPackageMapping : gmap string string) (w : world)
    (cwd : string) : gmap string string * package * list effect :=
  let uncached :=
    if startsWith cwd (moduleCache w) then
      let importPath := importPathInCache (moduleCache w) cwd in
      (<[cwd := importPath]> folderToPackageMapping, Package importPath, [])
    else if negb (truthy (VStr (goRuntimePath w))) then
      (folderToPackageMapping, Undefined, [Warn (goMissingMessage w)])
    else
      let spawned := [Spawn (goRuntimePath w) ["list"] cwd (toolEnv w)] in
      match packageLines (stdout w) with
      | [pkg] => (<[cwd := pkg]> folderToPackageMapping, Package pkg, spawned)
      | _ => (folderToPackageMapping, Package "", spawned)
      end in
  match folderToPackageMapping !! cwd with
  | Some pkg =>
      if truthy (VStr pkg) then (folderToPackageMapping, Package pkg, []) else uncached
  | None =>
      if inherited cwd then (folderToPackageMapping, InheritedProperty cwd, [])
      else uncached
  end.

End CurrentPackage.

End Modules.

(** ** Settings, Go versions and directories for the examples *)
Module ToolExamples.

Import Tools Modules.

(** The names [Object.prototype] has a property for. *)
Definition objectPrototype (k : string) : bool :=
  bool_decide (k ∈ ["constructor"; "__proto__"; "hasOwnProperty"; "isPrototypeOf";
                    "propertyIsEnumerable"; "toLocaleString"; "toString"; "valueOf";
                    "__defineGetter__"; "__defineSetter__"; "__lookupGetter__";
                    "__lookupSetter__"]).

(** Go 1.15. *)
Definition go115 : GoVersion := {|
  lt := λ v, bool_decide (v ∈ ["1.16"; "1.17"]);
  gt := λ v, bool_decide (v ∈ ["1.9"; "1.10"; "1.11"; "1.12"; "1.13"; "1.14"]);
|}.

(** A workspace that uses the language server. *)
Definition withGopls : settings := {|
  useLanguageServer := VBool true;
  docsTool := VStr "godoc";
  formatTool := VStr "goreturns";
  lintTool := VStr "golint";
  arch := "x64";
  goLiveErrorsEnabled := false;
|}.

(** The entry of [golint] in the table. *)
Definition golint : Tool := {|
  name := "golint";
  importPath := "golang.org/x/lint/golint";
  isImportant := true;
  replacedByGopls := Some false;
  description := "Linter";
  minimumGoVersion := Some "1.9";
  latestVersion := None;
  latestVersionTimestamp := None;
  latestPrereleaseVersion := None;
  latestPrereleaseVersionTimestamp := None;
  close := false;
|}.

(** The output of [go list] in a workspace whose dependency is downloaded
    first. *)
Definition listed : world := {|
  moduleCache := "/go/pkg/mod";
  goRuntimePath := "/usr/local/go/bin/go";
  currentGoRoot := "/usr/local/go";
  envPath := "/usr/local/go/bin:/usr/bin";
  toolEnv := {[ "GOPATH" := VStr "/go" ]};
  stdout := String.concat (String "010" "")
              ["go: downloading example.com/dep v1.2.0"; "example.com/ws"; ""];
|}.

(** The same machine later: no [go] binary, another module cache. *)
Definition later : world := {|
  moduleCache := "/ws";
  goRuntimePath := "";
  currentGoRoot := "";
  envPath := "";
  toolEnv := ∅;
  stdout := "";
|}.

End ToolExamples.

(** ** A reader and a writer of flag strings

    The statements about the provider hold for every [parse] and [unparse].
    To run the resolver on concrete configurations, this module follows
    [yargs-parser] (called with [short-option-groups] off and its other
    settings at their defaults) and [yargs-unparser] on the flags the
    examples use: a string is trimmed and split at the spaces outside
    quotes; an option is [-name], [--name], [-name=value], [--name=value],
    [--name value] or [--no-name]; a value loses the quotes around it and
    becomes a number when it is written as one; an option given twice
    collects its values in an array; what is no option is collected in the
    property [_], and so is everything after [--]; an argument that is
    neither a string nor an array makes the parser throw.  The writer lists
    the entries of [_] first and then the options in the order of the
    properties.

    Outside of that the module is no model of the two packages: option names
    with a dot (which [yargs-parser] nests) or a hyphen (for which it adds a
    camel-cased twin), two options that differ in case only, numbers
    written with a leading zero, a plus sign, a point, an exponent or a
    hexadecimal prefix, tokens that hold three dashes in a row, and arrays
    whose elements are no plain strings. *)
Module Flags.

Import Lint.

Definition isDash (c : ascii) : bool := Ascii.eqb c "-".
Definition isEquals (c : ascii) : bool := Ascii.eqb c "=".
Definition isQuote (c : ascii) : bool := Ascii.eqb c "'" || Ascii.eqb c "034".
Definition isLineTerminator (c : ascii) : bool := Ascii.eqb c "010" || Ascii.eqb c "013".
Definition isDigit (c : ascii) : bool :=
  let n := nat_of_ascii c in (48 <=? n)%nat && (n <=? 57)%nat.

(** *** [tokenizeArgString] *)

(** The loop over the characters: [prevC], [opening] and the token
    [args[i]] that is being built ([None] before its first character). *)
Fixpoint tokenizeFrom (cs : list ascii) (prevC opening : option ascii)
    (current : option string) : list string :=
  match cs with
  | [] => option_list current
  | c :: cs' =>
      if Ascii.eqb c " " && negb (bool_decide (is_Some opening)) then
        if bool_decide (prevC = Some " "%char)
        then tokenizeFrom cs' (Some c) opening current
        else option_list current ++ tokenizeFrom cs' (Some c) opening None
      else
        let opening :=
          if bool_decide (opening = Some c) then None
          else if isQuote c && negb (bool_decide (is_Some opening)) then Some c
          else opening in
        tokenizeFrom cs' (Some c) opening
          (Some (default EmptyString current +:+ String c EmptyString))
  end.

(** A string is trimmed and split; the elements of an array are the tokens,
    each turned into a string; for anything else [args.slice] is no
    function and a TypeError is thrown. *)
Definition tokenizeArgString (args : value) : option (list string) :=
  match args with
  | VStr s => Some (tokenizeFrom (String.list_ascii_of_string (trim s)) None None None)
  | VArr l => Some (toText <$> l)
  | _ => None
  end.

(** *** The patterns of the parser *)

(** [/---+(=|$)/]: three dashes or more, followed by [=] or the end. *)
Fixpoint dashRun (cs : list ascii) (n : nat) : bool :=
  match cs with
  | [] => (3 <=? n)%nat
  | c :: r =>
      if isDash c then dashRun r (S n)
      else (isEquals c && (3 <=? n)%nat) || dashRun r 0
  end.

Definition noKeyName (arg : string) : bool := dashRun (String.list_ascii_of_string arg) 0.

(** [.+=] from the start of [cs]. *)
Fixpoint dotsThenEquals (cs : list ascii) (some : bool) : bool :=
  match cs with
  | [] => false
  | c :: r => (some && isEquals c) || (negb (isLineTerminator c) && dotsThenEquals r true)
  end.

(** [/^-.+=/], which holds whenever [/^--.+=/] does. *)
Definition hasValue (arg : string) : bool :=
  match arg with
  | String "-" body => dotsThenEquals (String.list_ascii_of_string body) false
  | _ => false
  end.

(** The text before the first [=] and the text after it. *)
Fixpoint splitAtEquals (s : string) : option (string * string) :=
  match s with
  | EmptyString => None
  | String c r =>
      if isEquals c then Some (EmptyString, r)
      else '(k, v) ← splitAtEquals r; Some (String c k, v)
  end.

Definition keyed (kv : option (string * string)) : option (string * string) :=
  match kv with
  | Some (String c k, v) => kv
  | _ => None
  end.

(** The key and the value of [-key=value] and [--key=value] (the match of
    the pattern with [--?], a key without [=], [=] and the rest): the
    second dash is part of the key when nothing but [=] follows it. *)
Definition keyValue (arg : string) : option (string * string) :=
  match arg with
  | String "-" (String "-" body as dashed) =>
      match keyed (splitAtEquals body) with
      | Some kv => Some kv
      | None => keyed (splitAtEquals dashed)
      end
  | String "-" body => keyed (splitAtEquals body)
  | _ => None
  end.

(** [.+]: the characters up to the first line terminator. *)
Fixpoint dots (s : string) : string :=
  match s with
  | EmptyString => EmptyString
  | String c r => if isLineTerminator c then EmptyString else String c (dots r)
  end.

Definition nonEmpty (s : string) : option string :=
  match s with
  | EmptyString => None
  | _ => Some s
  end.

(** [/^--no-(.+)/]. *)
Definition negated (arg : string) : option string :=
  match arg with
  | String "-" (String "-" (String "n" (String "o" (String "-" rest)))) =>
      nonEmpty (dots rest)
  | _ => None
  end.

(** [/^--.+/] or [/^-[^-]+/]. *)
Definition isOption (arg : string) : bool :=
  match arg with
  | String "-" (String "-" (String c _)) => negb (isLineTerminator c)
  | String "-" (String c _) => negb (isDash c)
  | _ => false
  end.

(** [/^--?(.+)/]. *)
Definition optionKey (arg : string) : option string :=
  match arg with
  | String "-" (String "-" body as dashed) =>
      match nonEmpty (dots body) with
      | Some key => Some key
      | None => nonEmpty (dots dashed)
      end
  | String "-" body => nonEmpty (dots body)
  | _ => None
  end.

Definition startsWithDash (arg : string) : bool :=
  match arg with
  | String "-" _ => true
  | _ => false
  end.

Fixpoint allDigits (cs : list ascii) : bool :=
  match cs with
  | [] => true
  | c :: r => isDigit c && allDigits r
  end.

(** [[0-9]+] at the start of [cs], and what follows it. *)
Fixpoint afterDigits (cs : list ascii) : list ascii :=
  match cs with
  | c :: r => if isDigit c then afterDigits r else cs
  | [] => []
  end.

Definition digitsOnly (cs : list ascii) : bool :=
  match cs with
  | [] => false
  | _ => allDigits cs
  end.

(** [/^-([0-9]+(\.[0-9]+)?|\.[0-9]+)$/]. *)
Definition isNegative (arg : string) : bool :=
  match String.list_ascii_of_string arg with
  | "-"%char :: "."%char :: ds => digitsOnly ds
  | "-"%char :: d :: ds =>
      isDigit d
      && match afterDigits ds with
         | [] => true
         | "."%char :: fs => digitsOnly fs
         | _ => false
         end
  | _ => false
  end.

(** *** Values *)

(** The quotes around a value are dropped: [val.substring(1, val.length - 1)],
    which for a single quote character is that character. *)
Definition stripQuotes (val : string) : string :=
  match val with
  | String q (String c r as rest) =>
      if isQuote q
         && bool_decide (last (String.list_ascii_of_string rest) = Some q)
      then String.substring 0 (String.length rest - 1) rest
      else val
  | _ => val
  end.

Fixpoint digitsValue (cs : list ascii) (acc : Z) : Z :=
  match cs with
  | [] => acc
  | c :: r => digitsValue r (10 * acc + (Z.of_nat (nat_of_ascii c) - 48))%Z
  end.

(** [looksLikeNumber], for the integers in decimal notation: an optional
    minus sign and digits, the first character not being a zero that others
    follow. *)
Definition looksLikeNumber (x : string) : option Z :=
  match String.list_ascii_of_string x with
  | "0"%char :: _ :: _ => None
  | "-"%char :: ds => if digitsOnly ds then Some (- digitsValue ds 0)%Z else None
  | ds => if digitsOnly ds then Some (digitsValue ds 0) else None
  end.

(** [maybeCoerceNumber]: a string that looks like a number and is a safe
    integer becomes that number. *)
Definition maybeCoerceNumber (val : string) : value :=
  match looksLikeNumber val with
  | Some n => if (Z.abs n <=? 9007199254740991)%Z then VNum n else VStr val
  | None => VStr val
  end.

(** [processValue] on the text of a value. *)
Definition processValue (inputIsString : bool) (val : string) : value :=
  maybeCoerceNumber (if inputIsString then stripQuotes val else val).

(** *** Properties in the order of [Object.keys] *)

(** The array indices among the property names: they are listed first, in
    ascending order. *)
Definition arrayIndex (k : string) : option Z :=
  match String.list_ascii_of_string k with
  | ["0"%char] => Some 0%Z
  | "0"%char :: _ => None
  | ds => if digitsOnly ds && (digitsValue ds 0 <? 4294967295)%Z
          then Some (digitsValue ds 0) else None
  end.

Fixpoint insertIndexed (n : Z) (k : string) (v : value) (o : properties) : properties :=
  match o with
  | [] => [(k, v)]
  | (k', v') :: r =>
      match arrayIndex k' with
      | Some m => if (m <? n)%Z then (k', v') :: insertIndexed n k v r else (k, v) :: o
      | None => (k, v) :: o
      end
  end.

Definition addProperty (k : string) (v : value) (o : properties) : properties :=
  match arrayIndex k with
  | Some n => insertIndexed n k v o
  | None => o ++ [(k, v)]
  end.

Fixpoint replaceProperty (k : string) (v : value) (o : properties) : properties :=
  match o with
  | [] => []
  | (k', v') :: r =>
      if String.eqb k' k then (k, v) :: r else (k', v') :: replaceProperty k v r
  end.

Definition hasProperty (o : properties) (k : string) : bool :=
  existsb (λ kv, String.eqb kv.1 k) o.

Definition sanitizeKey (key : string) : string :=
  if String.eqb key "__proto__" then "___proto___" else key.

(** [setKey]: a second value for a key makes an array of the two, a later
    one is appended to the array. *)
Definition setArg (argv : properties) (key : string) (v : value) : properties :=
  let key := sanitizeKey key in
  if hasProperty argv key then
    match property argv key with
    | VArr l => replaceProperty key (VArr (l ++ [v])) argv
    | old => replaceProperty key (VArr [old; v]) argv
    end
  else addProperty key v argv.

Definition push (argv : properties) (v : value) : properties :=
  match property argv "_" with
  | VArr l => replaceProperty "_" (VArr (l ++ [v])) argv
  | _ => argv
  end.

(** [pushPositional]: numbers are read as numbers here too. *)
Definition pushPositional (argv : properties) (arg : string) : properties :=
  push argv (maybeCoerceNumber arg).

(** *** The parser *)

Fixpoint parseArgs (inputIsString : bool) (args : list string) (argv : properties)
    : properties :=
  match args with
  | [] => argv
  | arg :: rest =>
      if noKeyName arg then parseArgs inputIsString rest (pushPositional argv arg)
      else if hasValue arg then
        match keyValue arg with
        | Some (key, val) =>
            parseArgs inputIsString rest (setArg argv key (processValue inputIsString val))
        | None => parseArgs inputIsString rest argv
        end
      else
        match negated arg with
        | Some key => parseArgs inputIsString rest (setArg argv key (VBool false))
        | None =>
            if isOption arg then
              match optionKey arg with
              | Some key =>
                  match rest with
                  | next :: rest' =>
                      if negb (startsWithDash next) || isNegative next
                      then parseArgs inputIsString rest'
                             (setArg argv key (processValue inputIsString next))
                      else parseArgs inputIsString rest (setArg argv key (VBool true))
                  | [] => setArg argv key (VBool true)
                  end
              | None => parseArgs inputIsString rest argv
              end
            else if String.eqb arg "--" then foldl push argv (VStr <$> rest)
            else parseArgs inputIsString rest (pushPositional argv arg)
        end
  end.

Definition parse (args : value) : option properties :=
  tokens ← tokenizeArgString args;
  Some (parseArgs (match args with VStr _ => true | _ => false end) tokens
          [("_", VArr [])]).

(** *** The writer *)

Definition keyToFlag (key : string) : string :=
  if (String.length key =? 1)%nat then "-" +:+ key else "--" +:+ key.

(** [unparseOption]; objects come from dotted option names only. *)
Fixpoint unparseOption (key : string) (v : value) : list string :=
  match v with
  | VStr s => [keyToFlag key; s]
  | VBool true => [keyToFlag key]
  | VBool false => ["--no-" +:+ key]
  | VArr l => concat (map (unparseOption key) l)
  | VNum _ => [keyToFlag key; toText v]
  | VObj _ | VUndefined | VNull => []
  end.

Definition special (key : string) : bool :=
  String.eqb key "_" || String.eqb key "--" || String.eqb key "$0".

Definition unparse (argv : properties) : list string :=
  (match property argv "_" with
   | VArr l => toText <$> l
   | _ => []
   end)
  ++ concat (map (λ kv, if special kv.1 then [] else unparseOption kv.1 kv.2) argv).

End Flags.

(** * Properties of the resolver *)

Section ResolverFacts.

Import Resolver.

Variable defaultDebugAdapterType : string.
Variable resolvePath : value → value.
Variable parse : value → option properties.
Variable unparse : properties → list string.

Local Abbreviation skeleton := (Resolver.skeleton defaultDebugAdapterType).
Local Abbreviation fieldDefaults := (Resolver.fieldDefaults defaultDebugAdapterType resolvePath).
Local Abbreviation removeFlag := (Resolver.removeFlag parse unparse).
Local Abbreviation stripBuildFlags := (Resolver.stripBuildFlags parse unparse).
Local Abbreviation stripGoflags := (Resolver.stripGoflags parse unparse).
Local Abbreviation resolveDebugConfiguration :=
  (Resolver.resolveDebugConfiguration defaultDebugAdapterType resolvePath parse unparse).

(** Reading a property back after an assignment. *)
Lemma get_insert (c : object) (k k' : string) (v : value) :
  get (<[k := v]> c) k' = if decide (k = k') then v else get c k'.
Proof. unfold get. rewrite lookup_insert. by case_decide. Qed.

Lemma get_insert_eq (c : object) (k : string) (v : value) :
  get (<[k := v]> c) k = v.
Proof. rewrite get_insert. by case_decide. Qed.

Lemma get_insert_ne (c : object) (k k' : string) (v : value) :
  k ≠ k' → get (<[k := v]> c) k' = get c k'.
Proof. intros. rewrite get_insert. by case_decide. Qed.


Lemma is_str_eq (v : value) (s : string) : is_str v s = true ↔ v = VStr s.
Proof.
  destruct v; simpl; try (split; [discriminate | congruence]).
  rewrite String.eqb_eq. split; congruence.
Qed.

Lemma inherit_get (d c : object) (k k' : string) :
  k ≠ k' → get (inherit d k c) k' = get c k'.
Proof. intros. unfold inherit. case_match; [by apply get_insert_ne | done]. Qed.

(** The messages of the warnings shown under a key, in order. *)
Definition warningsWithKey (k : string) (effs : list effect) : list string :=
  omap (λ e, match e with
             | ShowWarningMessage k' m => if String.eqb k' k then Some m else None
             | PromptForMissingTool _ => None
             end) effs.

(** The properties [fieldDefaults] may write. *)
Definition defaulted : list string :=
  ["type"; "packagePathToGoModPathMap"; "apiVersion"; "dlvLoadConfig";
   "showGlobalVariables"; "cwd"].

Lemma fieldDefaults_get (h : Host) (c : object) (k : string) :
  k ∉ defaulted → get (fieldDefaults h c) k = get c k.
Proof.
  intros Hk. unfold defaulted in Hk.
  assert ("type" ≠ k ∧ "packagePathToGoModPathMap" ≠ k ∧ "apiVersion" ≠ k
          ∧ "dlvLoadConfig" ≠ k ∧ "showGlobalVariables" ≠ k ∧ "cwd" ≠ k)
    as (?&?&?&?&?&?) by (repeat split; intros <-; apply Hk; set_solver).
  unfold Resolver.fieldDefaults.
  repeat first
    [ rewrite get_insert_ne by done
    | rewrite inherit_get by done
    | match goal with |- context [if ?b then _ else _] => destruct b end ];
  done.
Qed.



(** *** Block lemmas *)

Lemma concretizeMode_get (h : Host) (c : object) (k : string) :
  k ≠ "mode" → get (concretizeMode h c) k = get c k.
Proof.
  intros. unfold concretizeMode. case_match; [by rewrite get_insert_ne | done].
Qed.

Lemma concretizeMode_auto (h : Host) (c : object) :
  get c "mode" = VStr "auto" →
  get (concretizeMode h c) "mode" =
    VStr (match activeTextEditor h with
          | Some ed => if Path.endsWith (fileName ed) "_test.go" then "test" else "debug"
          | None => "debug"
          end).
Proof.
  intros Hm. unfold concretizeMode. rewrite Hm.
  replace (is_str (VStr "auto") "auto") with true by (symmetry; by apply is_str_eq).
  by rewrite get_insert_eq.
Qed.

Lemma concretizeMode_never_auto (h : Host) (c : object) :
  get (concretizeMode h c) "mode" ≠ VStr "auto".
Proof.
  unfold concretizeMode. destruct (is_str (get c "mode") "auto") eqn:E.
  - rewrite get_insert_eq. repeat case_match; intros [= Hx]; revert Hx;
      apply String.eqb_neq; vm_compute; reflexivity.
  - intros Hm. apply is_str_eq in Hm. congruence.
Qed.

Lemma skeleton_needed (h : Host) (dc : option object) :
  dc = None ∨ truthy (get (default ∅ dc) "request") = false →
  skeleton h dc =
    match activeTextEditor h with
    | None => None
    | Some ed =>
        if negb (String.eqb (languageId ed) "go") then None
        else Some (assign (default ∅ dc)
                     {[ "name" := VStr "Launch";
                        "type" := VStr defaultDebugAdapterType;
                        "request" := VStr "launch";
                        "mode" := VStr "auto";
                        "program" := VStr (Path.dirname (fileName ed)) ]})
    end.
Proof.
  intros Hneed. unfold Resolver.skeleton.
  assert (negb (bool_decide (is_Some dc))
          || negb (truthy (get (default ∅ dc) "request")) = true) as ->; [|done].
  destruct Hneed as [-> | ->]; [|by rewrite orb_true_r].
  rewrite bool_decide_eq_false_2; [done | by intros [? ?]].
Qed.

Lemma skeleton_given (h : Host) (c : object) :
  truthy (get c "request") = true → skeleton h (Some c) = Some c.
Proof.
  intros Hreq. unfold Resolver.skeleton.
  change (default ∅ (Some c)) with c.
  rewrite bool_decide_eq_true_2 by eauto. by rewrite Hreq.
Qed.

Lemma warningsWithKey_app (k : string) (l1 l2 : list effect) :
  warningsWithKey k (l1 ++ l2) = warningsWithKey k l1 ++ warningsWithKey k l2.
Proof. apply omap_app. Qed.

Lemma warningsWithKey_showWarning (h : Host) (k k' m : string) :
  warningsWithKey k (showWarning h k' m) =
    if truthy (getFromGlobalState (globalState h) k') then []
    else if String.eqb k' k then [m] else [].
Proof.
  unfold showWarning. destruct (truthy _); [done|].
  unfold warningsWithKey. cbn [omap list_omap]. by destruct (String.eqb k' k).
Qed.

Lemma elem_of_showWarning (h : Host) (k k' m m' : string) :
  ShowWarningMessage k m ∈ showWarning h k' m' → k = k' ∧ m = m'.
Proof.
  unfold showWarning. destruct (truthy _).
  - by intros ?%elem_of_nil.
  - by intros [= -> ->]%list_elem_of_singleton.
Qed.



Lemma warningsWithKey_remote (h : Host) (c : object) :
  warningsWithKey "ignoreDebugGCFlagsWarning" (remoteWarnings h c) = [].
Proof.
  unfold remoteWarnings. rewrite warningsWithKey_app.
  assert (∀ k m, String.eqb k "ignoreDebugGCFlagsWarning" = false →
            warningsWithKey "ignoreDebugGCFlagsWarning" (showWarning h k m) = []) as Hk.
  { intros k m E. rewrite warningsWithKey_showWarning, E. by destruct (truthy _). }
  destruct (_ && _); destruct (_ && _ && _); rewrite ?Hk; done.
Qed.

Lemma elem_of_remoteWarnings (h : Host) (c : object) (k m : string) :
  ShowWarningMessage k m ∈ remoteWarnings h c →
  m = launchRemoteMessage ∨ m = remoteProgramMessage.
Proof.
  unfold remoteWarnings. rewrite elem_of_app.
  destruct (_ && _); destruct (_ && _ && _);
    intros [Hin | Hin]; try (by apply elem_of_nil in Hin);
    apply elem_of_showWarning in Hin as [_ ->]; auto.
Qed.

(** The text [removeFlag] writes back for the parsed flags [argv]. *)
Local Abbreviation written argv :=
  (VStr (String.concat " " (unparse (deleteProperty "gcflags" argv)))).

Lemma stripBuildFlags_spec (h : Host) (c : object) :
  stripBuildFlags h c =
    if truthy (get c "buildFlags") then
      match parse (get c "buildFlags") with
      | None => None
      | Some argv =>
          Some (if truthy (property argv "gcflags")
                then (<["buildFlags" := written argv]> c,
                      showWarning h "ignoreDebugGCFlagsWarning" gcflagsBuildFlagsMessage)
                else (c, []))
      end
    else Some (c, []).
Proof.
  unfold Resolver.stripBuildFlags, Resolver.removeFlag.
  destruct (truthy (get c "buildFlags")); [|done].
  destruct (parse (get c "buildFlags")) as [argv|]; [|done].
  by destruct (truthy (property argv "gcflags")).
Qed.

Lemma stripGoflags_spec (h : Host) (c : object) :
  stripGoflags h c =
    if truthy (get c "env") && truthy (prop (get c "env") "GOFLAGS") then
      match parse (prop (get c "env") "GOFLAGS") with
      | None => None
      | Some argv =>
          Some (if truthy (property argv "gcflags")
                then (<["env" := VObj (<["GOFLAGS" := written argv]>
                                         (ownProps (get c "env")))]> c,
                      showWarning h "ignoreDebugGCFlagsWarning" gcflagsGoflagsMessage)
                else (c, []))
      end
    else Some (c, []).
Proof.
  unfold Resolver.stripGoflags, Resolver.removeFlag.
  destruct (truthy (get c "env") && truthy (prop (get c "env") "GOFLAGS")); [|done].
  destruct (parse (prop (get c "env") "GOFLAGS")) as [argv|]; [|done].
  by destruct (truthy (property argv "gcflags")).
Qed.

(** What a flag block that does not throw leaves behind: the
    configuration with one property rewritten at most, and its warning or
    nothing. *)
Lemma stripBuildFlags_Some (h : Host) (c c1 : object) (w1 : list effect) :
  stripBuildFlags h c = Some (c1, w1) →
  (c1 = c ∧ w1 = [])
  ∨ (∃ argv, truthy (get c "buildFlags") = true
             ∧ parse (get c "buildFlags") = Some argv
             ∧ truthy (property argv "gcflags") = true
             ∧ c1 = <["buildFlags" := written argv]> c
             ∧ w1 = showWarning h "ignoreDebugGCFlagsWarning" gcflagsBuildFlagsMessage).
Proof.
  rewrite stripBuildFlags_spec.
  destruct (truthy (get c "buildFlags")); [|intros [= <- <-]; by left].
  destruct (parse (get c "buildFlags")) as [argv|]; [|done].
  destruct (truthy (property argv "gcflags")) eqn:Hg; intros [= <- <-];
    [right; by exists argv | by left].
Qed.

Lemma stripGoflags_Some (h : Host) (c c2 : object) (w2 : list effect) :
  stripGoflags h c = Some (c2, w2) →
  (c2 = c ∧ w2 = [])
  ∨ (∃ argv, truthy (get c "env") && truthy (prop (get c "env") "GOFLAGS") = true
             ∧ parse (prop (get c "env") "GOFLAGS") = Some argv
             ∧ truthy (property argv "gcflags") = true
             ∧ c2 = <["env" := VObj (<["GOFLAGS" := written argv]>
                                       (ownProps (get c "env")))]> c
             ∧ w2 = showWarning h "ignoreDebugGCFlagsWarning" gcflagsGoflagsMessage).
Proof.
  rewrite stripGoflags_spec.
  destruct (truthy (get c "env") && truthy (prop (get c "env") "GOFLAGS"));
    [|intros [= <- <-]; by left].
  destruct (parse (prop (get c "env") "GOFLAGS")) as [argv|]; [|done].
  destruct (truthy (property argv "gcflags")) eqn:Hg; intros [= <- <-];
    [right; by exists argv | by left].
Qed.

Lemma stripBuildFlags_lookup (h : Host) (c c1 : object) (w1 : list effect) (k : string) :
  stripBuildFlags h c = Some (c1, w1) → k ≠ "buildFlags" → c1 !! k = c !! k.
Proof.
  intros [[-> _] | (argv & _ & _ & _ & -> & _)]%stripBuildFlags_Some Hk; [done|].
  by rewrite lookup_insert_ne.
Qed.

Lemma stripGoflags_lookup (h : Host) (c c2 : object) (w2 : list effect) (k : string) :
  stripGoflags h c = Some (c2, w2) → k ≠ "env" → c2 !! k = c !! k.
Proof.
  intros [[-> _] | (argv & _ & _ & _ & -> & _)]%stripGoflags_Some Hk; [done|].
  by rewrite lookup_insert_ne.
Qed.

Lemma stripBuildFlags_get (h : Host) (c c1 : object) (w1 : list effect) (k : string) :
  stripBuildFlags h c = Some (c1, w1) → k ≠ "buildFlags" → get c1 k = get c k.
Proof. intros Hs Hk. unfold get. by rewrite (stripBuildFlags_lookup h c c1 w1 k). Qed.

Lemma stripGoflags_get (h : Host) (c c2 : object) (w2 : list effect) (k : string) :
  stripGoflags h c = Some (c2, w2) → k ≠ "env" → get c2 k = get c k.
Proof. intros Hs Hk. unfold get. by rewrite (stripGoflags_lookup h c c2 w2 k). Qed.

Lemma gcflags_messages_differ : gcflagsBuildFlagsMessage ≠ gcflagsGoflagsMessage.
Proof. apply String.eqb_neq. vm_compute. reflexivity. Qed.

(** *** The three ways a call ends *)

Lemma resolve_aborted (h : Host) (dc : option object) :
  skeleton h dc = None → resolveDebugConfiguration h dc = (Returned None, []).
Proof. intros Hs. unfold Resolver.resolveDebugConfiguration. by rewrite Hs. Qed.

(** The parser throws in the first flag block: nothing was shown. *)
Lemma resolve_thrown_buildFlags (h : Host) (dc : option object) (c0 : object) :
  skeleton h dc = Some c0 →
  stripBuildFlags h (fieldDefaults h c0) = None →
  resolveDebugConfiguration h dc = (Thrown, []).
Proof.
  intros Hs Hb. unfold Resolver.resolveDebugConfiguration. by rewrite Hs, Hb.
Qed.

(** The parser throws in the second flag block: the first one may have
    shown its warning. *)
Lemma resolve_thrown_goflags (h : Host) (dc : option object) (c0 c1 : object)
    (w1 : list effect) :
  skeleton h dc = Some c0 →
  stripBuildFlags h (fieldDefaults h c0) = Some (c1, w1) →
  stripGoflags h c1 = None →
  resolveDebugConfiguration h dc = (Thrown, w1).
Proof.
  intros Hs Hb Hg. unfold Resolver.resolveDebugConfiguration. by rewrite Hs, Hb, Hg.
Qed.

(** Both flag blocks are passed: the [dlv] lookup decides. *)
Lemma resolve_prepared (h : Host) (dc : option object) (c0 c1 c2 : object)
    (w1 w2 : list effect) :
  skeleton h dc = Some c0 →
  stripBuildFlags h (fieldDefaults h c0) = Some (c1, w1) →
  stripGoflags h c1 = Some (c2, w2) →
  let c3 := <["dlvToolPath" := VStr (dlvBinPath h)]> c2 in
  resolveDebugConfiguration h dc =
    if negb (Path.isAbsolute (dlvBinPath h)) then
      (Returned None, w1 ++ w2 ++ [PromptForMissingTool "dlv"])
    else (Returned (Some (concretizeMode h c3)),
          w1 ++ w2 ++ remoteWarnings h (concretizeMode h c3)).
Proof.
  intros Hs Hb Hg. unfold Resolver.resolveDebugConfiguration. by rewrite Hs, Hb, Hg.
Qed.

(** A returned configuration has passed every block. *)
Lemma resolve_returned (h : Host) (dc : option object) (c' : object) (w : list effect) :
  resolveDebugConfiguration h dc = (Returned (Some c'), w) →
  ∃ c0 c1 c2 w1 w2,
    skeleton h dc = Some c0
    ∧ stripBuildFlags h (fieldDefaults h c0) = Some (c1, w1)
    ∧ stripGoflags h c1 = Some (c2, w2)
    ∧ Path.isAbsolute (dlvBinPath h) = true
    ∧ c' = concretizeMode h (<["dlvToolPath" := VStr (dlvBinPath h)]> c2)
    ∧ w = w1 ++ w2 ++ remoteWarnings h c'.
Proof.
  destruct (skeleton h dc) as [c0|] eqn:Hs;
    [|by rewrite (resolve_aborted h dc Hs)].
  destruct (stripBuildFlags h (fieldDefaults h c0)) as [[c1 w1]|] eqn:Hb;
    [|by rewrite (resolve_thrown_buildFlags h dc c0 Hs Hb)].
  destruct (stripGoflags h c1) as [[c2 w2]|] eqn:Hg;
    [|by rewrite (resolve_thrown_goflags h dc c0 c1 w1 Hs Hb Hg)].
  rewrite (resolve_prepared h dc c0 c1 c2 w1 w2 Hs Hb Hg). cbv zeta.
  destruct (Path.isAbsolute (dlvBinPath h)) eqn:Hdlv; cbn [negb]; [|done].
  intros [= <- <-]. by exists c0, c1, c2, w1, w2.
Qed.

(** What a returned configuration keeps of the one that passed skeleton
    defaulting. *)
Lemma returned_lookup (h : Host) (dc : option object) (c0 c' : object)
    (w : list effect) (k : string) :
  skeleton h dc = Some c0 →
  resolveDebugConfiguration h dc = (Returned (Some c'), w) →
  k ∉ ["buildFlags"; "env"; "dlvToolPath"; "mode"] →
  c' !! k = fieldDefaults h c0 !! k.
Proof.
  intros Hs (c0' & c1 & c2 & w1 & w2 & Hs' & Hb & Hg & _ & -> & _)%resolve_returned Hk.
  rewrite Hs in Hs'. injection Hs' as <-.
  assert (k ≠ "mode" ∧ "dlvToolPath" ≠ k ∧ k ≠ "env" ∧ k ≠ "buildFlags")
    as (?&?&?&?) by (repeat split; intros ?; subst; apply Hk; set_solver).
  unfold concretizeMode. case_match; rewrite ?lookup_insert_ne by done;
    rewrite (stripGoflags_lookup h c1 c2 w2 k Hg) by done;
    by rewrite (stripBuildFlags_lookup h _ c1 w1 k Hb) by done.
Qed.

Lemma returned_get (h : Host) (dc : option object) (c0 c' : object)
    (w : list effect) (k : string) :
  skeleton h dc = Some c0 →
  resolveDebugConfiguration h dc = (Returned (Some c'), w) →
  k ∉ "dlvToolPath" :: "env" :: "buildFlags" :: "mode" :: defaulted →
  get c' k = get c0 k.
Proof.
  intros Hs Hr Hk. unfold get.
  rewrite (returned_lookup h dc c0 c' w k Hs Hr) by set_solver.
  apply fieldDefaults_get. set_solver.
Qed.

(** The mode that reaches the concretization step is the one the
    configuration had after skeleton defaulting. *)
Lemma mode_before_concretization (h : Host) (c0 c1 c2 : object) (w1 w2 : list effect) :
  stripBuildFlags h (fieldDefaults h c0) = Some (c1, w1) →
  stripGoflags h c1 = Some (c2, w2) →
  get (<["dlvToolPath" := VStr (dlvBinPath h)]> c2) "mode" = get c0 "mode".
Proof.
  intros Hb Hg. rewrite get_insert_ne by done.
  rewrite (stripGoflags_get h c1 c2 w2 "mode" Hg) by done.
  rewrite (stripBuildFlags_get h _ c1 w1 "mode" Hb) by done.
  apply fieldDefaults_get. unfold defaulted. set_solver.
Qed.

(** The values the two flag blocks read are those of the configuration
    that passed skeleton defaulting. *)
Lemma buildFlags_read (h : Host) (c0 : object) :
  get (fieldDefaults h c0) "buildFlags" = get c0 "buildFlags".
Proof. apply fieldDefaults_get. unfold defaulted. set_solver. Qed.

Lemma env_read (h : Host) (c0 c1 : object) (w1 : list effect) :
  stripBuildFlags h (fieldDefaults h c0) = Some (c1, w1) →
  get c1 "env" = get c0 "env".
Proof.
  intros Hb. rewrite (stripBuildFlags_get h _ c1 w1 "env" Hb) by done.
  apply fieldDefaults_get. unfold defaulted. set_solver.
Qed.


Local Opaque Resolver.skeleton Resolver.fieldDefaults Resolver.stripBuildFlags
  Resolver.stripGoflags Resolver.concretizeMode Resolver.remoteWarnings
  Resolver.resolveDebugConfiguration Resolver.showWarning.

(** *** Skeleton defaulting *)

(** C8.  With no user configuration and an active Go file, the skeleton has
    request [launch], mode [auto], the default adapter type and, as
    program, the directory of the active file; for [/ws/main.go] that
    directory is [/ws]. *)
Theorem skeleton_for_active_go_file (h : Host) (ed : TextEditor) :
  activeTextEditor h = Some ed →
  languageId ed = "go" →
  ∃ c, skeleton h None = Some c
       ∧ get c "request" = VStr "launch"
       ∧ get c "mode" = VStr "auto"
       ∧ get c "type" = VStr defaultDebugAdapterType
       ∧ get c "program" = VStr (Path.dirname (fileName ed))
       ∧ (fileName ed = "/ws/main.go" → get c "program" = VStr "/ws").
Proof.
  intros Hed Hgo. rewrite skeleton_needed by auto. rewrite Hed, Hgo.
  replace (String.eqb "go" "go") with true by (symmetry; apply String.eqb_refl).
  cbn [negb]. eexists. split; [reflexivity|].
  assert (∀ k v,
    ({[ "name" := VStr "Launch"; "type" := VStr defaultDebugAdapterType;
        "request" := VStr "launch"; "mode" := VStr "auto";
        "program" := VStr (Path.dirname (fileName ed)) ]} : object) !! k = Some v →
    get (assign (default ∅ None)
           {[ "name" := VStr "Launch"; "type" := VStr defaultDebugAdapterType;
              "request" := VStr "launch"; "mode" := VStr "auto";
              "program" := VStr (Path.dirname (fileName ed)) ]}) k = v) as Hget.
  { intros k v Hk. unfold get, assign. by rewrite (lookup_union_Some_l _ _ _ _ Hk). }
  assert (Path.dirname "/ws/main.go" = "/ws") as Hdir by (vm_compute; reflexivity).
  repeat split; try (apply Hget; by simplify_map_eq).
  intros Hf. rewrite <- Hdir, <- Hf. apply Hget. by simplify_map_eq.
Qed.

(** *** What is shown *)

(** Whether the parser reports a [gcflags] entry for a value. *)
Local Abbreviation reports v :=
  (match parse v with
   | Some argv => truthy (property argv "gcflags")
   | None => false
   end).
(** The warnings of the two flag blocks for a configuration that passed
    skeleton defaulting. *)
Local Abbreviation buildFlagsWarning h c0 :=
  (if truthy (get c0 "buildFlags") && reports (get c0 "buildFlags")
   then showWarning h "ignoreDebugGCFlagsWarning" gcflagsBuildFlagsMessage else []).
Local Abbreviation goflagsWarning h c0 :=
  (if truthy (get c0 "env") && truthy (prop (get c0 "env") "GOFLAGS")
      && reports (prop (get c0 "env") "GOFLAGS")
   then showWarning h "ignoreDebugGCFlagsWarning" gcflagsGoflagsMessage else []).

Lemma stripBuildFlags_shown (h : Host) (c0 c1 : object) (w1 : list effect) :
  stripBuildFlags h (fieldDefaults h c0) = Some (c1, w1) → w1 = buildFlagsWarning h c0.
Proof.
  intros Hb. apply stripBuildFlags_Some in Hb as Hb'. revert Hb.
  rewrite stripBuildFlags_spec, buildFlags_read.
  destruct (truthy (get c0 "buildFlags")); [|by intros [= _ <-]].
  destruct (parse (get c0 "buildFlags")) as [argv|]; [|done].
  cbn [andb]. by destruct (truthy (property argv "gcflags")); intros [= _ <-].
Qed.

Lemma stripGoflags_shown (h : Host) (c0 c1 c2 : object) (w1 w2 : list effect) :
  stripBuildFlags h (fieldDefaults h c0) = Some (c1, w1) →
  stripGoflags h c1 = Some (c2, w2) → w2 = goflagsWarning h c0.
Proof.
  intros Hb. rewrite stripGoflags_spec, (env_read h c0 c1 w1 Hb).
  destruct (truthy (get c0 "env") && truthy (prop (get c0 "env") "GOFLAGS"));
    [|by intros [= _ <-]].
  destruct (parse (prop (get c0 "env") "GOFLAGS")) as [argv|]; [|done].
  cbn [andb]. by destruct (truthy (property argv "gcflags")); intros [= _ <-].
Qed.

(** Everything a call shows: the warnings of the flag blocks it passed,
    then the prompt for [dlv] or the warnings about mode [remote]. *)
Lemma resolve_shown (h : Host) (dc : option object) (c0 : object) :
  skeleton h dc = Some c0 →
  ∃ w3,
    (resolveDebugConfiguration h dc).2 =
      buildFlagsWarning h c0
      ++ (if truthy (get c0 "buildFlags")
             && negb (bool_decide (is_Some (parse (get c0 "buildFlags"))))
          then [] else goflagsWarning h c0 ++ w3)
    ∧ ∀ k m, ShowWarningMessage k m ∈ w3 →
             m = launchRemoteMessage ∨ m = remoteProgramMessage.
Proof.
  intros Hs.
  destruct (stripBuildFlags h (fieldDefaults h c0)) as [[c1 w1]|] eqn:Hb.
  - assert (truthy (get c0 "buildFlags")
            && negb (bool_decide (is_Some (parse (get c0 "buildFlags")))) = false) as ->.
    { revert Hb. rewrite stripBuildFlags_spec, buildFlags_read.
      destruct (truthy (get c0 "buildFlags")); [|done].
      destruct (parse (get c0 "buildFlags")) as [argv|]; [|done].
      intros _. cbn [andb]. by rewrite bool_decide_eq_true_2 by eauto. }
    rewrite <- (stripBuildFlags_shown h c0 c1 w1 Hb).
    destruct (stripGoflags h c1) as [[c2 w2]|] eqn:Hg.
    + rewrite <- (stripGoflags_shown h c0 c1 c2 w1 w2 Hb Hg).
      rewrite (resolve_prepared h dc c0 c1 c2 w1 w2 Hs Hb Hg). cbv zeta.
      destruct (negb (Path.isAbsolute (dlvBinPath h))); cbn [snd].
      * eexists. split; [reflexivity|].
        by intros k m ?%list_elem_of_singleton.
      * eexists. split; [reflexivity|]. intros k m. apply elem_of_remoteWarnings.
    + rewrite (resolve_thrown_goflags h dc c0 c1 w1 Hs Hb Hg). cbn [snd].
      exists []. split; [|by intros k m ?%elem_of_nil].
      assert (goflagsWarning h c0 = []) as ->; [|by rewrite !app_nil_r].
      revert Hg. rewrite stripGoflags_spec, (env_read h c0 c1 w1 Hb).
      destruct (truthy (get c0 "env") && truthy (prop (get c0 "env") "GOFLAGS"));
        [|done].
      by destruct (parse (prop (get c0 "env") "GOFLAGS")).
  - rewrite (resolve_thrown_buildFlags h dc c0 Hs Hb). cbn [snd].
    exists []. revert Hb. rewrite stripBuildFlags_spec, buildFlags_read.
    destruct (truthy (get c0 "buildFlags")); [|done].
    destruct (parse (get c0 "buildFlags")) as [argv|]; [done|].
    intros _. cbn [andb negb]. rewrite bool_decide_eq_false_2 by (by intros [? ?]).
    split; [done | by intros k m ?%elem_of_nil].
Qed.



(** *** Aborted resolutions *)


(** *** Mode concretization *)

(** C7.  A configuration whose mode is [auto] when the concretization step
    is reached resolves to mode [test] if the active file name ends with
    [_test.go] and to [debug] for any other active file; no returned
    configuration has mode [auto]. *)
Theorem auto_mode_is_concretized (h : Host) (dc : option object) :
  (∀ c0 ed c' w,
     skeleton h dc = Some c0 →
     get c0 "mode" = VStr "auto" →
     activeTextEditor h = Some ed →
     resolveDebugConfiguration h dc = (Returned (Some c'), w) →
     get c' "mode" =
       VStr (if Path.endsWith (fileName ed) "_test.go" then "test" else "debug"))
  ∧ (∀ c' w,
       resolveDebugConfiguration h dc = (Returned (Some c'), w) →
       get c' "mode" ≠ VStr "auto").
Proof.
  split.
  - intros c0 ed c' w Hs Hm Hed
      (c0' & c1 & c2 & w1 & w2 & Hs' & Hb & Hg & _ & -> & _)%resolve_returned.
    rewrite Hs in Hs'. injection Hs' as <-.
    rewrite concretizeMode_auto
      by (by rewrite (mode_before_concretization h c0 c1 c2 w1 w2 Hb Hg)).
    by rewrite Hed.
  - intros c' w (c0 & c1 & c2 & w1 & w2 & _ & _ & _ & _ & -> & _)%resolve_returned.
    apply concretizeMode_never_auto.
Qed.

(** C10.  With [request] set, mode [auto] and no active editor at all, the
    configuration that is returned has mode [debug]. *)
Theorem auto_mode_without_editor_is_debug (h : Host) (c c' : object)
    (w : list effect) :
  activeTextEditor h = None →
  truthy (get c "request") = true →
  get c "mode" = VStr "auto" →
  resolveDebugConfiguration h (Some c) = (Returned (Some c'), w) →
  get c' "mode" = VStr "debug".
Proof.
  intros Hed Hreq Hm
    (c0 & c1 & c2 & w1 & w2 & Hs & Hb & Hg & _ & -> & _)%resolve_returned.
  rewrite (skeleton_given h c Hreq) in Hs. injection Hs as <-.
  rewrite concretizeMode_auto
    by (by rewrite (mode_before_concretization h c c1 c2 w1 w2 Hb Hg)).
  by rewrite Hed.
Qed.

(** *** Conflicting compiler flags *)


(** C6, as the code has it.  The warnings for a [gcflags] entry removed
    from [buildFlags] and for one removed from [env.GOFLAGS] carry the same
    key, [ignoreDebugGCFlagsWarning]; only their messages differ. *)
Theorem gcflags_warnings_share_key (h : Host) (dc : option object) (k m : string) :
  ShowWarningMessage k m ∈ (resolveDebugConfiguration h dc).2 →
  m = gcflagsBuildFlagsMessage ∨ m = gcflagsGoflagsMessage →
  k = "ignoreDebugGCFlagsWarning"
  ∧ gcflagsBuildFlagsMessage ≠ gcflagsGoflagsMessage.
Proof.
  intros Hin Hm. split; [|apply gcflags_messages_differ].
  destruct (skeleton h dc) as [c0|] eqn:Hs.
  2: { rewrite (resolve_aborted h dc Hs) in Hin. by apply elem_of_nil in Hin. }
  destruct (resolve_shown h dc c0 Hs) as (w3 & Hshown & Hw3).
  rewrite Hshown in Hin.
  assert (m ≠ launchRemoteMessage ∧ m ≠ remoteProgramMessage) as [Hm1 Hm2].
  { split; apply String.eqb_neq; destruct Hm as [-> | ->]; vm_compute; reflexivity. }
  assert (∀ k' m', ShowWarningMessage k m ∈ showWarning h k' m' → k = k') as Hshow.
  { intros k' m' Hx. by apply elem_of_showWarning in Hx as [-> _]. }
  apply elem_of_app in Hin as [Hin | Hin].
  - destruct (_ && _); [by apply Hshow in Hin | by apply elem_of_nil in Hin].
  - destruct (_ && negb _); [by apply elem_of_nil in Hin|].
    apply elem_of_app in Hin as [Hin | Hin].
    + destruct (_ && _ && _); [by apply Hshow in Hin | by apply elem_of_nil in Hin].
    + by destruct (Hw3 _ _ Hin).
Qed.


End ResolverFacts.

(** *** Environment merging *)

Section EnvironmentFacts.

Import Resolver.

Variable resolvePath : value → value.

Local Abbreviation toolExecutionEnvironment := (Resolver.toolExecutionEnvironment resolvePath).

Lemma lookup_assign (target source : object) (k : string) :
  assign target source !! k =
    match source !! k with
    | Some v => Some v
    | None => target !! k
    end.
Proof.
  unfold assign. rewrite lookup_union.
  destruct (source !! k), (target !! k); done.
Qed.

(** C4.  Whatever [envFile] was (a path, a list of paths, unset), the
    returned configuration has [envFile] set to [undefined]. *)
Theorem envFile_is_cleared (parseEnvFiles : value → object) (h : Host) (c : object) :
  let r := resolveDebugConfigurationWithSubstitutedVariables
             resolvePath parseEnvFiles h c in
  r !! "envFile" = Some VUndefined ∧ get r "envFile" = VUndefined.
Proof.
  cbv zeta. unfold resolveDebugConfigurationWithSubstitutedVariables, get.
  by rewrite lookup_insert_eq.
Qed.

Lemma parseEnvFiles_snoc (parseEnvFile : string → object) (fs : list value) (f : string) :
  parseEnvFiles parseEnvFile (VArr (fs ++ [VStr f]))
  = assign (parseEnvFiles parseEnvFile (VArr fs)) (parseEnvFile f).
Proof. unfold parseEnvFiles. by rewrite foldl_snoc. Qed.

Lemma parseEnvFiles_skip (parseEnvFile : string → object) (fs : list value) (f : value)
    (k : string) :
  (∀ p, f = VStr p → parseEnvFile p !! k = None) →
  parseEnvFiles parseEnvFile (VArr (fs ++ [f])) !! k
  = parseEnvFiles parseEnvFile (VArr fs) !! k.
Proof.
  intros Hf. unfold parseEnvFiles. rewrite foldl_snoc.
  destruct f; try done. rewrite lookup_assign. by rewrite Hf.
Qed.

(** The last file that defines a variable decides its value. *)
Lemma parseEnvFiles_last_wins (parseEnvFile : string → object)
    (earlier later : list value) (f k : string) (v : value) :
  parseEnvFile f !! k = Some v →
  (∀ g, VStr g ∈ later → parseEnvFile g !! k = None) →
  parseEnvFiles parseEnvFile (VArr (earlier ++ VStr f :: later)) !! k = Some v.
Proof.
  intros Hf. induction later as [|g later IH] using rev_ind; intros Hlater.
  - rewrite parseEnvFiles_snoc, lookup_assign. by rewrite Hf.
  - rewrite app_comm_cons, app_assoc, parseEnvFiles_skip.
    + apply IH. intros g' Hg'. apply Hlater. set_solver.
    + intros p ->. apply Hlater. set_solver.
Qed.

(** C3.  The resolved [env] layers, from lowest to highest precedence, the
    tool execution environment, the variables of the env files and the
    inline [env]; among the env files the last one that defines a variable
    wins; and for ambient [{A: "1"}], env-file contents [{A: "2", B: "2"}]
    and inline [{B: "3"}] the result is [{A: "2", B: "3"}]. *)
Theorem resolved_env_is_layered (parseEnvFile : string → object) (h : Host) (c : object) :
  let r := resolveDebugConfigurationWithSubstitutedVariables
             resolvePath (parseEnvFiles parseEnvFile) h c in
  let ambient := toolExecutionEnvironment h in
  let files := parseEnvFiles parseEnvFile (get c "envFile") in
  let inline := if truthy (get c "env") then ownProps (get c "env") else ∅ in
  (∃ e : object,
      get r "env" = VObj e
      ∧ (∀ k, e !! k = match inline !! k with
                       | Some v => Some v
                       | None => match files !! k with
                                 | Some v => Some v
                                 | None => ambient !! k
                                 end
                       end)
      ∧ (ambient = {[ "A" := VStr "1" ]} →
         files = {[ "A" := VStr "2"; "B" := VStr "2" ]} →
         inline = {[ "B" := VStr "3" ]} →
         e = {[ "A" := VStr "2"; "B" := VStr "3" ]}))
  ∧ (∀ earlier later f k v,
       get c "envFile" = VArr (earlier ++ VStr f :: later) →
       parseEnvFile f !! k = Some v →
       (∀ g, VStr g ∈ later → parseEnvFile g !! k = None) →
       files !! k = Some v).
Proof.
  cbv zeta. split.
  - unfold resolveDebugConfigurationWithSubstitutedVariables.
    rewrite get_insert_ne by done. rewrite get_insert_eq.
    eexists. split; [reflexivity|].
    assert ((if truthy (get c "env") then ownProps (get c "env") else ∅)
            = ownProps (if truthy (get c "env") then get c "env" else VObj ∅)) as <-
      by (by destruct (truthy _)).
    split.
    + intros k. by rewrite !lookup_assign.
    + intros Ha Hf Hi. apply map_eq. intros k.
      rewrite !lookup_assign, Ha, Hf, Hi.
      destruct (decide (k = "A")) as [-> | ?]; [by simplify_map_eq|].
      destruct (decide (k = "B")) as [-> | ?]; by simplify_map_eq.
  - intros earlier later f k v ->. apply parseEnvFiles_last_wins.
Qed.

End EnvironmentFacts.

(** *** The resolver on the concrete configurations *)

Module ResolverRuns.

Import Resolver Examples.

Local Abbreviation resolve :=
  (resolveDebugConfiguration "go" (λ v, v) Flags.parse Flags.unparse).
Local Abbreviation finalize :=
  (resolveDebugConfigurationWithSubstitutedVariables (λ v, v) (parseEnvFiles envFileContents)).

Lemma resolved_env_example :
  get (finalize host withEnvFile) "env" = VObj {[ "A" := VStr "2"; "B" := VStr "3" ]}.
Proof.
  destruct (resolved_env_is_layered (λ v, v) envFileContents host withEnvFile)
    as [(e & He & _ & Hex) _].
  rewrite He. f_equal. apply Hex; vm_compute; reflexivity.
Defined.





Lemma gcflags_share_key_example :
  "ignoreDebugGCFlagsWarning" = "ignoreDebugGCFlagsWarning"
  ∧ gcflagsBuildFlagsMessage ≠ gcflagsGoflagsMessage.
Proof.
  apply (gcflags_warnings_share_key "go" (λ v, v) Flags.parse Flags.unparse
           host (Some gcflagsInBoth) _ gcflagsGoflagsMessage).
  - replace (resolve host (Some gcflagsInBoth)).2
      with [ShowWarningMessage "ignoreDebugGCFlagsWarning" gcflagsBuildFlagsMessage;
            ShowWarningMessage "ignoreDebugGCFlagsWarning" gcflagsGoflagsMessage]
      by (vm_compute; reflexivity).
    apply list_elem_of_further, list_elem_of_here.
  - right. reflexivity.
Defined.

(** C6 as stated fails: with [gcflags] in both fields the two warnings are
    shown under one and the same key. *)
Lemma gcflags_same_key_for_both_fields :
  ∃ key,
    (resolve host (Some gcflagsInBoth)).2
    = [ShowWarningMessage key gcflagsBuildFlagsMessage;
       ShowWarningMessage key gcflagsGoflagsMessage].
Proof. exists "ignoreDebugGCFlagsWarning". vm_compute. reflexivity. Qed.

Lemma auto_mode_example :
  ∃ c' w, resolve hostTestFile (Some launchAuto) = (Returned (Some c'), w)
          ∧ get c' "mode" = VStr "test".
Proof.
  exists (returned (resolve hostTestFile (Some launchAuto))),
         (resolve hostTestFile (Some launchAuto)).2.
  split; [vm_compute; reflexivity|].
  apply (proj1 (auto_mode_is_concretized "go" (λ v, v) Flags.parse Flags.unparse
                  hostTestFile (Some launchAuto))
           launchAuto {| languageId := "go"; fileName := "/ws/foo_test.go" |}
           (returned (resolve hostTestFile (Some launchAuto)))
           (resolve hostTestFile (Some launchAuto)).2);
    vm_compute; reflexivity.
Defined.

Lemma skeleton_example :
  ∃ c, skeleton "go" host None = Some c
       ∧ get c "request" = VStr "launch"
       ∧ get c "mode" = VStr "auto"
       ∧ get c "type" = VStr "go"
       ∧ get c "program" = VStr (Path.dirname "/ws/main.go")
       ∧ ("/ws/main.go" = "/ws/main.go" → get c "program" = VStr "/ws").
Proof.
  apply (skeleton_for_active_go_file "go" host
           {| languageId := "go"; fileName := "/ws/main.go" |}); reflexivity.
Defined.




Lemma auto_mode_without_editor_example :
  ∃ c' w, resolve hostNoEditor (Some launchAuto) = (Returned (Some c'), w)
          ∧ get c' "mode" = VStr "debug".
Proof.
  exists (returned (resolve hostNoEditor (Some launchAuto))),
         (resolve hostNoEditor (Some launchAuto)).2.
  split; [vm_compute; reflexivity|].
  apply (auto_mode_without_editor_is_debug "go" (λ v, v) Flags.parse Flags.unparse
           hostNoEditor launchAuto
           (returned (resolve hostNoEditor (Some launchAuto)))
           (resolve hostNoEditor (Some launchAuto)).2);
    vm_compute; reflexivity.
Defined.

End ResolverRuns.

(** * Properties of the mutex *)

Section MutexFacts.

Import Mutex View.

(** Projections of updated states. *)
Ltac proj :=
  cbn [heap begins queue mutex callers held trace upd_heap upd_begins enqueue
       set_queue set_mutex add_caller hold log alloc].

(** Lookups in a heap after updates at other promises. *)
Ltac look :=
  proj; repeat first [ rewrite lookup_insert_eq | rewrite lookup_insert_ne by congruence ].

Ltac sites := cbn [chain_at lock_at inner_at result_at body_at held_at awaiter] in *.

(** *** Promise operations *)

Lemma settle_pending (p : pid) (o : outcome) (s : state) (rs : list reaction) :
  heap s !! p = Some (Pending rs) →
  settle p o s = enqueue ((λ r, JReact r o) <$> rs) (upd_heap (insert p (Settled o)) s).
Proof. intros H. unfold settle. by rewrite H. Qed.

Lemma settle_settled (p : pid) (o o' : outcome) (s : state) :
  heap s !! p = Some (Settled o') → settle p o s = s.
Proof. intros H. unfold settle. by rewrite H. Qed.

Lemma settle_none (p : pid) (o : outcome) (s : state) :
  heap s !! p = None → settle p o s = s.
Proof. intros H. unfold settle. by rewrite H. Qed.

Lemma then_pending (p : pid) (r : reaction) (s : state) (rs : list reaction) :
  heap s !! p = Some (Pending rs) →
  then_ p r s = upd_heap (insert p (Pending (rs ++ [r]))) s.
Proof. intros H. unfold then_. by rewrite H. Qed.

Lemma then_settled (p : pid) (r : reaction) (s : state) (o : outcome) :
  heap s !! p = Some (Settled o) → then_ p r s = enqueue [JReact r o] s.
Proof. intros H. unfold then_. by rewrite H. Qed.

(** *** Stages *)

Lemma stage_finished (A : view) (k : nat) (o : outcome) :
  v_done A !! k = Some o → stage_of A k = Finished o.
Proof. intros H. unfold stage_of. by rewrite H. Qed.

Lemma stage_turn (A : view) :
  stage_of A (length (v_done A)) = from_option Active Absent (v_phase A).
Proof.
  unfold stage_of. rewrite (lookup_ge_None_2 (v_done A)) by lia.
  by rewrite decide_True.
Qed.

Lemma stage_later (A : view) (k : nat) :
  length (v_done A) < k →
  stage_of A k = if decide (k < length (v_callers A)) then Waiting else Absent.
Proof.
  intros H. unfold stage_of. rewrite (lookup_ge_None_2 (v_done A)) by lia.
  by rewrite decide_False by lia.
Qed.

Lemma stage_absent (A : view) (k : nat) :
  wf A → length (v_callers A) ≤ k → stage_of A k = Absent.
Proof.
  unfold wf. intros Hwf Hk. destruct (decide (k = length (v_done A))) as [-> | Hne].
  - rewrite stage_turn. destruct (v_phase A); [destruct Hwf; lia | done].
  - assert (length (v_done A) < k) by (destruct (v_phase A); [destruct Hwf|]; lia).
    rewrite stage_later by done. rewrite decide_False; [done | lia].
Qed.

Lemma stage_set_phase (A : view) (ph : phase) (k : nat) :
  k ≠ length (v_done A) → stage_of (set_phase ph A) k = stage_of A k.
Proof.
  intros H. unfold stage_of, set_phase. cbn [v_done v_callers v_phase].
  destruct (v_done A !! k); [done|]. by destruct (decide (k = length (v_done A))).
Qed.

Lemma stage_set_phase_turn (A : view) (ph : phase) :
  stage_of (set_phase ph A) (length (v_done A)) = Active ph.
Proof. exact (stage_turn (set_phase ph A)). Qed.

(** *** Reading a state off its view *)

Section AtTheTurn.

Variables (A : view) (s : state).
Hypothesis (HA : Rep A s).

Let a := length (v_done A).
Let c := v_callers A !! a.
Let nx := bool_decide (S a < length (v_callers A)).

Lemma rep_turn_chain (ph : phase) :
  v_phase A = Some ph → heap s !! PChain a = chain_at (Active ph) nx a.
Proof.
  intros Hph. rewrite (rep_heap _ _ HA). cbn [heap_at].
  fold a. rewrite stage_turn, Hph. done.
Qed.

Lemma rep_turn_lock (ph : phase) :
  v_phase A = Some ph → heap s !! PLock a = lock_at (Active ph) c a.
Proof.
  intros Hph. rewrite (rep_heap _ _ HA). cbn [heap_at].
  fold a. rewrite stage_turn, Hph. done.
Qed.

Lemma rep_turn_inner (ph : phase) :
  v_phase A = Some ph → heap s !! PInner a = inner_at (Active ph) a.
Proof.
  intros Hph. rewrite (rep_heap _ _ HA). cbn [heap_at].
  fold a. rewrite stage_turn, Hph. done.
Qed.

Lemma rep_turn_result (ph : phase) :
  v_phase A = Some ph → heap s !! PResult a = result_at (Active ph) c.
Proof.
  intros Hph. rewrite (rep_heap _ _ HA). cbn [heap_at].
  fold a. rewrite stage_turn, Hph. done.
Qed.

Lemma rep_turn_body (ph : phase) :
  v_phase A = Some ph → heap s !! PBody a = body_at (Active ph) c a.
Proof.
  intros Hph. rewrite (rep_heap _ _ HA). cbn [heap_at].
  fold a. rewrite stage_turn, Hph. done.
Qed.

Lemma rep_turn_held (ph : phase) :
  v_phase A = Some ph → held s !! a = held_at (Active ph) c a.
Proof.
  intros Hph. rewrite (rep_held _ _ HA). fold a. rewrite stage_turn, Hph. done.
Qed.

Lemma rep_begin (k : nat) :
  k < length (v_callers A) → begins s !! k = Some (Some (PLock k)).
Proof.
  intros Hk. rewrite (rep_begins _ _ HA), list_lookup_fmap.
  rewrite lookup_seq_lt by done. done.
Qed.

(** A change of phase touches the promises of the submission whose turn
    it is and nothing else. *)
Lemma rep_set_phase (ph' : phase) (s' : state) :
  is_Some (v_phase A) →
  callers s' = callers s →
  begins s' = begins s →
  mutex s' = mutex s →
  queue s' = queue_of (set_phase ph' A) →
  trace s' = trace_of (set_phase ph' A) →
  (∀ k, k ≠ a → held s' !! k = held s !! k) →
  held s' !! a = held_at (Active ph') c a →
  (∀ p, owner p ≠ Some a → heap s' !! p = heap s !! p) →
  heap s' !! PChain a = chain_at (Active ph') nx a →
  heap s' !! PLock a = lock_at (Active ph') c a →
  heap s' !! PInner a = inner_at (Active ph') a →
  heap s' !! PResult a = result_at (Active ph') c →
  heap s' !! PBody a = body_at (Active ph') c a →
  Rep (set_phase ph' A) s'.
Proof.
  intros _ Hc Hb Hm Hq Ht Hh Hha Hp H1 H2 H3 H4 H5.
  split; cbn [set_phase v_callers v_done v_phase].
  - by rewrite Hc, (rep_callers _ _ HA).
  - by rewrite Hb, (rep_begins _ _ HA).
  - by rewrite Hm, (rep_mutex _ _ HA).
  - done.
  - done.
  - intros k. destruct (decide (k = a)) as [-> | Hk].
    + by rewrite stage_set_phase_turn.
    + rewrite Hh by done. rewrite stage_set_phase by done. apply (rep_held _ _ HA).
  - intros p. destruct (decide (owner p = Some a)) as [Ho | Ho].
    + destruct p as [|k|k|k|k|k]; try done; injection Ho as ->;
        cbn [heap_at set_phase v_callers v_done v_phase];
        rewrite stage_set_phase_turn; done.
    + rewrite Hp by done. rewrite (rep_heap _ _ HA).
      destruct p as [|k|k|k|k|k]; [done|..];
        cbn [heap_at set_phase v_callers v_done v_phase];
        rewrite stage_set_phase by (intros ->; by apply Ho); done.
Qed.

End AtTheTurn.

Lemma wf_turn (A : view) (ph : phase) :
  wf A → v_phase A = Some ph → length (v_done A) < length (v_callers A).
Proof. unfold wf. intros Hwf Hph. rewrite Hph in Hwf. tauto. Qed.

(** The facts about the submission whose turn it is, in the phase [Hph]
    names, one goal for each kind of caller. *)
Ltac at_turn A s HA Hwf Hph :=
  let ph := lazymatch type of Hph with _ = Some ?ph => ph end in
  pose proof (rep_turn_chain A s HA ph Hph) as Hchain;
  pose proof (rep_turn_lock A s HA ph Hph) as Hlock;
  pose proof (rep_turn_inner A s HA ph Hph) as Hinner;
  pose proof (rep_turn_result A s HA ph Hph) as Hresult;
  pose proof (rep_turn_body A s HA ph Hph) as Hbody;
  pose proof (rep_turn_held A s HA ph Hph) as Hheld;
  pose proof (rep_queue _ _ HA) as Hq; unfold queue_of in Hq; rewrite Hph in Hq;
  pose proof (rep_trace _ _ HA) as Ht; unfold trace_of in Ht; rewrite Hph in Ht;
  pose proof (rep_callers _ _ HA) as Hcs;
  pose proof (wf_turn A ph Hwf Hph) as Ha;
  pose proof (rep_begin A s HA _ Ha) as Hbegin;
  destruct (lookup_lt_is_Some_2 _ _ Ha) as [c Hc]; rewrite Hc in *;
  destruct c as [[v|e|]|]; sites.

Ltac close_phase A s HA Hc Ht Hq :=
  apply (rep_set_phase A s HA);
  [ eauto | .. ];
  proj; unfold queue_of, trace_of;
  cbn [set_phase v_phase v_done v_callers thenable_job unlock_of];
  rewrite ?Hc;
  [ done | done | done
  | rewrite ?Hq; try done
  | rewrite Ht, <- ?app_assoc, ?app_nil_r; try done
  | intros k Hk; rewrite ?lookup_insert_ne by done; done
  | rewrite ?lookup_insert_eq; sites; try done
  | intros p Hp; repeat (rewrite lookup_insert_ne by (intros <-; by apply Hp)); done
  | look; sites; try done ..].

(** *** One microtask *)

Lemma run_turn (A : view) (s : state) :
  wf A → Rep A s → v_phase A = Some Turn →
  Rep (next_view RunJob A) (step RunJob s).
Proof.
  intros Hwf HA Hph. unfold next_view. rewrite Hph.
  at_turn A s HA Hwf Hph.
  all: unfold step; rewrite Hq; cbn [run_job run_reaction]; unfold run_then.
  all: proj; rewrite Hbegin.
  all: unfold resolve; erewrite settle_pending by (look; exact Hlock).
  all: close_phase A s HA Hc Ht Hq.
Qed.

Lemma run_granted (A : view) (s : state) :
  wf A → Rep A s → v_phase A = Some Granted →
  Rep (next_view RunJob A) (step RunJob s).
Proof.
  intros Hwf HA Hph. unfold next_view. rewrite Hph.
  at_turn A s HA Hwf Hph.
  all: unfold step; rewrite Hq; cbn [run_job run_reaction]; unfold unlock_of.
  1-3: unfold run_await_lock; proj; rewrite Hcs, Hc.
  - erewrite then_settled by (look; reflexivity).
    close_phase A s HA Hc Ht Hq.
  - unfold finally_unlock. cbn [call]. unfold resolve.
    erewrite (settle_pending (PInner _)) by (look; exact Hinner).
    erewrite settle_pending by (look; exact Hresult).
    close_phase A s HA Hc Ht Hq.
  - erewrite then_pending by (look; reflexivity).
    close_phase A s HA Hc Ht Hq.
  - close_phase A s HA Hc Ht Hq.
Qed.

Lemma run_running (A : view) (s : state) (b : bool) :
  wf A → Rep A s → v_phase A = Some (Running b) →
  Rep (next_view RunJob A) (step RunJob s).
Proof.
  intros Hwf HA Hph. unfold next_view. rewrite Hph. destruct b.
  - unfold step. rewrite (rep_queue _ _ HA). unfold queue_of. by rewrite Hph.
  - at_turn A s HA Hwf Hph.
    all: unfold step; rewrite Hq; cbn [run_job thenable_job].
    all: erewrite then_pending by (look; exact Hinner).
    all: close_phase A s HA Hc Ht Hq.
Qed.

Lemma run_ended (A : view) (s : state) (o : outcome) (b : bool) :
  wf A → Rep A s → v_phase A = Some (Ended o b) →
  Rep (next_view RunJob A) (step RunJob s).
Proof.
  intros Hwf HA Hph. unfold next_view. rewrite Hph. destruct b.
  - at_turn A s HA Hwf Hph.
    all: unfold step; rewrite Hq; cbn [run_job run_reaction].
    all: unfold finally_unlock, unlock_of; cbn [call]; unfold resolve.
    all: erewrite (settle_pending (PInner _)) by (look; exact Hinner).
    1-3: erewrite settle_pending by (look; exact Hresult).
    4: erewrite settle_none by (look; exact Hresult).
    all: close_phase A s HA Hc Ht Hq.
  - at_turn A s HA Hwf Hph.
    all: unfold step; rewrite Hq; cbn [run_job thenable_job].
    all: erewrite then_pending by (look; exact Hinner).
    all: close_phase A s HA Hc Ht Hq.
Qed.

Lemma run_released_early (A : view) (s : state) (o : outcome) :
  wf A → Rep A s → v_phase A = Some (Released o false) →
  Rep (next_view RunJob A) (step RunJob s).
Proof.
  intros Hwf HA Hph. unfold next_view. rewrite Hph.
  at_turn A s HA Hwf Hph.
  all: unfold step; rewrite Hq; cbn [run_job thenable_job].
  all: erewrite then_settled by (look; exact Hinner).
  all: close_phase A s HA Hc Ht Hq.
Qed.

(** *** The end of a turn *)

Lemma turns_snoc (k : nat) (done : list outcome) (o : outcome) :
  turns k (done ++ [o])
  = turns k done ++ [Begin (k + length done); End (k + length done) o].
Proof.
  revert k. induction done as [|o' done IH]; intros k; cbn [turns app length].
  - by rewrite Nat.add_0_r.
  - rewrite IH. by rewrite Nat.add_succ_comm.
Qed.

Lemma finished_trace_snoc (done : list outcome) (o : outcome) :
  finished_trace (done ++ [o])
  = finished_trace done ++ [Begin (length done); End (length done) o].
Proof. apply turns_snoc. Qed.

Lemma stage_finish (A : view) (o : outcome) (b : bool) (k : nat) :
  wf A → v_phase A = Some (Released o b) →
  (k = length (v_done A)
   ∧ stage_of A k = Active (Released o b) ∧ stage_of (finish o A) k = Finished o)
  ∨ (k = S (length (v_done A))
     ∧ ((stage_of A k = Waiting ∧ stage_of (finish o A) k = Active Turn)
        ∨ (stage_of A k = Absent ∧ stage_of (finish o A) k = Absent)))
  ∨ (k ≠ length (v_done A) ∧ stage_of (finish o A) k = stage_of A k).
Proof.
  intros Hwf Hph. pose proof (wf_turn A _ Hwf Hph) as Ha.
  destruct (decide (k = length (v_done A))) as [-> | Hk];
    [| destruct (decide (k = S (length (v_done A)))) as [-> | Hk']].
  - left. split; [done|]. split.
    + by rewrite stage_turn, Hph.
    + apply stage_finished. cbn [finish v_done]. by rewrite lookup_app_r, Nat.sub_diag.
  - right. left. split; [done|].
    rewrite (stage_later A) by lia.
    pose proof (stage_turn (finish o A)) as Hn.
    cbn [finish v_done v_phase v_callers] in Hn.
    rewrite length_app, Nat.add_1_r in Hn. rewrite Hn.
    destruct (decide (S (length (v_done A)) < length (v_callers A))); auto.
  - right. right. split; [done|].
    unfold stage_of. cbn [finish v_done v_phase v_callers].
    destruct (decide (k < length (v_done A))).
    + destruct (lookup_lt_is_Some_2 (v_done A) k) as [o' Ho']; [done|].
      rewrite lookup_app_l by done. by rewrite Ho'.
    + rewrite !lookup_ge_None_2 by (rewrite ?length_app; simpl; lia).
      rewrite length_app, Nat.add_1_r.
      destruct (decide (k = S (length (v_done A)))); [lia|].
      destruct (decide (k = length (v_done A))); [lia|]. done.
Qed.

Lemma run_released (A : view) (s : state) (o : outcome) :
  wf A → Rep A s → v_phase A = Some (Released o true) →
  Rep (next_view RunJob A) (step RunJob s).
Proof.
  intros Hwf HA Hph. unfold next_view. rewrite Hph.
  pose proof (rep_turn_chain A s HA _ Hph) as Hchain. cbn [chain_at] in Hchain.
  pose proof (rep_queue _ _ HA) as Hq. unfold queue_of in Hq. rewrite Hph in Hq.
  pose proof (rep_trace _ _ HA) as Ht. unfold trace_of in Ht. rewrite Hph in Ht.
  unfold step. rewrite Hq. cbn [run_job run_reaction]. unfold resolve.
  erewrite settle_pending by exact Hchain.
  split; proj; cbn [finish v_callers v_done v_phase].
  - apply HA.
  - apply HA.
  - apply HA.
  - unfold queue_of. cbn [finish v_callers v_done v_phase].
    rewrite length_app, Nat.add_1_r.
    destruct (decide (S (length (v_done A)) < length (v_callers A)));
      [rewrite bool_decide_eq_true_2 by done | rewrite bool_decide_eq_false_2 by done];
      done.
  - rewrite Ht. unfold trace_of. cbn [finish v_callers v_done v_phase].
    rewrite finished_trace_snoc.
    destruct (decide _); by rewrite app_nil_r.
  - intros k. rewrite (rep_held _ _ HA).
    destruct (stage_finish A o true k Hwf Hph)
      as [(_ & -> & ->) | [(_ & [[-> ->] | [-> ->]]) | [_ ->]]];
      by destruct (v_callers A !! k) as [[[]|]|].
  - intros p. destruct (decide (p = PChain (length (v_done A)))) as [-> | Hp].
    + rewrite lookup_insert_eq. cbn [heap_at finish v_callers v_done v_phase].
      destruct (stage_finish A o true (length (v_done A)) Hwf Hph)
        as [(_ & _ & ->) | [(? & _) | [? _]]]; [done | lia | done].
    + rewrite lookup_insert_ne by done. rewrite (rep_heap _ _ HA).
      destruct p as [|k|k|k|k|k]; cbn [heap_at finish v_callers v_done v_phase];
        [done | ..];
        destruct (stage_finish A o true k Hwf Hph)
          as [(-> & -> & ->) | [(_ & [[-> ->] | [-> ->]]) | [_ ->]]];
        try done; by destruct (v_callers A !! _) as [[[]|]|].
Qed.

Lemma run_idle (A : view) (s : state) :
  Rep A s → v_phase A = None → Rep (next_view RunJob A) (step RunJob s).
Proof.
  intros HA Hph. unfold next_view, step. rewrite Hph.
  rewrite (rep_queue _ _ HA). unfold queue_of. by rewrite Hph.
Qed.

(** A microtask moves the machine as [next_view] says. *)
Lemma run_job_sim (A : view) (s : state) :
  wf A → Rep A s → Rep (next_view RunJob A) (step RunJob s).
Proof.
  intros Hwf HA. destruct (v_phase A) as [[| |b|o b|o []]|] eqn:Hph.
  - by apply run_turn.
  - by apply run_granted.
  - by apply (run_running A s b).
  - by apply (run_ended A s o b).
  - by apply (run_released A s o).
  - by apply (run_released_early A s o).
  - by apply run_idle.
Qed.

(** *** The surroundings: bodies settle, direct callers unlock *)

Lemma stage_active (A : view) (k : nat) (ph : phase) :
  stage_of A k = Active ph → k = length (v_done A) ∧ v_phase A = Some ph.
Proof.
  unfold stage_of. destruct (v_done A !! k); [done|].
  destruct (decide (k = length (v_done A))) as [-> | ?].
  - destruct (v_phase A); [|done]. by intros [= ->].
  - by destruct (decide _).
Qed.

Lemma stage_finished_inv (A : view) (k : nat) (o : outcome) :
  stage_of A k = Finished o → k < length (v_done A).
Proof.
  unfold stage_of. destruct (v_done A !! k) eqn:E.
  - intros _. by apply lookup_lt_Some in E.
  - destruct (decide _); [destruct (v_phase A)|destruct (decide _)]; done.
Qed.

Lemma settle_body_sim (A : view) (s : state) (k : nat) (o : outcome) :
  wf A → Rep A s → Rep (next_view (SettleBody k o) A) (step (SettleBody k o) s).
Proof.
  intros Hwf HA. unfold step, next_view.
  rewrite (rep_callers _ _ HA), (rep_heap _ _ HA). cbn [heap_at].
  destruct (stage_of A k) as [| |ph|o'] eqn:Hst.
  4: { apply stage_finished_inv in Hst.
       destruct (v_phase A) as [[]|], (v_callers A !! k) as [[[]|]|];
         cbn [body_at]; try done.
       all: by rewrite decide_False by lia. }
  3: { apply stage_active in Hst as [-> Hph]. rewrite Hph.
       destruct ph as [| |b|o' b|o' b];
         try (by destruct (v_callers A !! _) as [[[]|]|]).
       destruct (v_callers A !! length (v_done A)) as [[[]|]|] eqn:Hck;
         cbn [body_at]; try done.
       rewrite decide_True by done.
       assert (step (SettleBody (length (v_done A)) o) s
               = settle (PBody (length (v_done A))) o
                   (log [End (length (v_done A)) o] s)) as <-.
       { unfold step. rewrite (rep_callers _ _ HA), Hck.
         by rewrite (rep_turn_body A s HA _ Hph), Hck. }
       destruct b; at_turn A s HA Hwf Hph; try discriminate Hck.
       all: unfold step; rewrite Hcs, Hc, Hbody.
       all: erewrite settle_pending by (look; exact Hbody).
       all: close_phase A s HA Hc Ht Hq. }
  all: destruct (v_phase A) as [[]|] eqn:Hph, (v_callers A !! k) as [[[]|]|];
    cbn [body_at]; try done.
  all: destruct (decide (k = length (v_done A))) as [-> | ?]; [|done].
  all: by rewrite stage_turn, Hph in Hst.
Qed.

Lemma call_unlock_sim (A : view) (s : state) (k : nat) :
  wf A → Rep A s → Rep (next_view (CallUnlock k) A) (step (CallUnlock k) s).
Proof.
  intros Hwf HA. unfold step, next_view. rewrite (rep_held _ _ HA).
  destruct (v_callers A !! k) as [[fn|]|] eqn:Hck; cbn [held_at].
  1, 3: by destruct (v_phase A) as [[]|].
  destruct (stage_of A k) as [| |ph|o'] eqn:Hst.
  1, 2: destruct (v_phase A) as [[]|] eqn:Hph; try done;
    (destruct (decide (k = length (v_done A))) as [-> | ?]; [|done]);
    by rewrite stage_turn, Hph in Hst.
  2: { unfold unlock_of. rewrite (rep_heap _ _ HA). cbn [heap_at]. rewrite Hst.
       cbn [inner_at].
       destruct (v_phase A) as [[]|] eqn:Hph; try done.
       destruct (decide (k = length (v_done A))) as [-> | ?]; [|done].
       by rewrite stage_turn, Hph in Hst. }
  apply stage_active in Hst as [-> Hph]. rewrite Hph.
  destruct ph as [| |b|o' b|o' b]; try done.
  - rewrite decide_True by done. unfold unlock_of.
    rewrite (rep_turn_inner A s HA _ Hph).
    assert (∃ rs, inner_at (Active (Running b)) (length (v_done A)) = Some (Pending rs))
      as [rs ->] by (destruct b; eauto).
    destruct b; at_turn A s HA Hwf Hph; try discriminate Hck.
    all: unfold resolve; erewrite settle_pending by (look; exact Hinner).
    all: close_phase A s HA Hc Ht Hq.
  - exfalso. unfold wf in Hwf. rewrite Hph in Hwf. by destruct Hwf as [_ Hwf].
  - unfold unlock_of. rewrite (rep_turn_inner A s HA _ Hph). done.
Qed.

(** *** A new submission *)

Lemma step_dispatch (fn : body) (s : state) :
  step (CallDispatch fn) s = submission (Dispatch fn) s.
Proof. unfold step, dispatch, submission. by destruct (lock _). Qed.

Lemma step_lock (s : state) : step CallLock s = submission Direct s.
Proof. unfold step, submission. by destruct (lock _). Qed.

Lemma stage_submit (A : view) (c : caller) (k : nat) :
  wf A → k ≠ length (v_callers A) → stage_of (submit c A) k = stage_of A k.
Proof.
  intros Hwf Hk. unfold stage_of, submit. cbn [v_callers v_done v_phase].
  destruct (v_done A !! k); [done|]. rewrite length_app, Nat.add_1_r.
  unfold wf in Hwf.
  destruct (decide (k = length (v_done A))) as [-> | ?].
  - destruct (v_phase A); [done | lia].
  - destruct (decide (k < S _)), (decide (k < length (v_callers A))); done || lia.
Qed.

Lemma stage_submit_new (A : view) (c : caller) :
  wf A →
  stage_of (submit c A) (length (v_callers A))
  = match v_phase A with
    | None => Active Turn
    | Some _ => Waiting
    end.
Proof.
  intros Hwf. unfold wf in Hwf. destruct (v_phase A) eqn:Hph.
  - destruct Hwf as [Hlt _]. rewrite stage_later by (cbn [submit v_done]; lia).
    cbn [submit v_callers]. rewrite length_app, Nat.add_1_r.
    by rewrite decide_True by lia.
  - rewrite <- Hwf. pose proof (stage_turn (submit c A)) as H.
    cbn [submit v_done v_phase] in H. by rewrite Hph in H.
Qed.

Lemma rep_tail (A : view) (s : state) :
  wf A → Rep A s →
  heap s !! tail_of (length (v_callers A))
  = Some (match v_phase A with
          | None => Settled (Fulfilled VUndef)
          | Some _ => Pending []
          end).
Proof.
  intros Hwf HA. rewrite (rep_heap _ _ HA).
  destruct (length (v_callers A)) as [|m] eqn:Hn; cbn [tail_of heap_at].
  - unfold wf in Hwf. destruct (v_phase A); [lia | done].
  - rewrite Hn, bool_decide_eq_false_2 by lia.
    unfold wf in Hwf. destruct (v_phase A) as [ph|] eqn:Hph.
    + destruct Hwf as [Hlt _].
      destruct (decide (m = length (v_done A))) as [-> | ?].
      * by rewrite stage_turn, Hph.
      * rewrite stage_later by lia. by rewrite decide_True by lia.
    + destruct (lookup_lt_is_Some_2 (v_done A) m) as [o Ho]; [lia|].
      by rewrite (stage_finished _ _ _ Ho).
Qed.

Lemma heap_at_submit (A : view) (c : caller) (p : pid) :
  wf A →
  owner p ≠ Some (length (v_callers A)) →
  p ≠ tail_of (length (v_callers A)) ∨ v_phase A = None →
  heap_at (submit c A) p = heap_at A p.
Proof.
  intros Hwf Ho Ht.
  assert (∀ k, owner p = Some k →
            stage_of (submit c A) k = stage_of A k
            ∧ v_callers (submit c A) !! k = v_callers A !! k) as Hk.
  { intros k Hk. assert (k ≠ length (v_callers A)) by congruence.
    split; [by apply stage_submit|]. cbn [submit v_callers].
    destruct (decide (k < length (v_callers A))).
    - by rewrite lookup_app_l.
    - rewrite !lookup_ge_None_2; [done | lia | rewrite length_app; simpl; lia]. }
  destruct p as [|k|k|k|k|k]; [done|..]; cbn [heap_at];
    destruct (Hk k eq_refl) as [E1 E2]; rewrite E1, ?E2; try done.
  cbn [submit v_callers]. rewrite length_app, Nat.add_1_r.
  destruct (decide (S k = length (v_callers A))) as [Hk' | Hk'].
  - destruct Ht as [Ht | Hph]; [by rewrite <- Hk' in Ht|].
    unfold wf in Hwf. rewrite Hph in Hwf.
    destruct (lookup_lt_is_Some_2 (v_done A) k) as [o Ho']; [lia|].
    by rewrite (stage_finished _ _ _ Ho').
  - cbn [owner] in Ho.
    destruct (decide (S k < length (v_callers A))).
    + by rewrite !bool_decide_eq_true_2 by lia.
    + by rewrite !bool_decide_eq_false_2 by lia.
Qed.

Lemma tail_of_owner (n : nat) : owner (tail_of n) ≠ Some n.
Proof. destruct n; [done|]. intros [= ?]. lia. Qed.

Lemma heap_at_submit_tail (A : view) (c : caller) (ph : phase) :
  wf A → v_phase A = Some ph →
  heap_at (submit c A) (tail_of (length (v_callers A)))
  = Some (Pending [RThen (length (v_callers A))]).
Proof.
  intros Hwf Hph. pose proof (wf_turn A ph Hwf Hph) as Ha.
  destruct (length (v_callers A)) as [|m] eqn:Hn; [lia|].
  cbn [tail_of heap_at]. rewrite stage_submit by (done || lia).
  cbn [submit v_callers]. rewrite length_app, Hn, Nat.add_1_r.
  rewrite bool_decide_eq_true_2 by lia.
  destruct (decide (m = length (v_done A))) as [-> | ?].
  - by rewrite stage_turn, Hph.
  - rewrite stage_later by lia. by rewrite Hn, decide_True by lia.
Qed.

Lemma queue_of_submit (A : view) (c : caller) :
  wf A →
  queue_of (submit c A)
  = match v_phase A with
    | None => [JReact (RThen (length (v_callers A))) (Fulfilled VUndef)]
    | Some _ => queue_of A
    end.
Proof.
  intros Hwf. unfold queue_of. cbn [submit v_callers v_done v_phase].
  destruct (v_phase A) as [ph|] eqn:Hph.
  - pose proof (wf_turn A ph Hwf Hph). by rewrite lookup_app_l.
  - unfold wf in Hwf. rewrite Hph in Hwf. by rewrite Hwf.
Qed.

Lemma trace_of_submit (A : view) (c : caller) : trace_of (submit c A) = trace_of A.
Proof. unfold trace_of. cbn [submit v_done v_phase]. by destruct (v_phase A). Qed.

Lemma submit_sim (A : view) (s : state) (c : caller) :
  wf A → Rep A s → Rep (submit c A) (submission c s).
Proof.
  intros Hwf HA. unfold submission, lock.
  pose proof (rep_tail A s Hwf HA) as Htail.
  assert (∀ p, owner p = Some (length (v_callers A)) →
            tail_of (length (v_callers A)) ≠ p) as Hfresh
    by (intros p Hp <-; by apply (tail_of_owner (length (v_callers A)))).
  assert (length (begins s) = length (v_callers A)) as Hlen
    by (by rewrite (rep_begins _ _ HA), length_fmap, length_seq).
  rewrite (rep_callers _ _ HA).
  set (n := length (v_callers A)) in *.
  cbn [fst snd].
  destruct c as [fn|], (v_phase A) as [ph|] eqn:Hph; proj.
  all: rewrite Hlen, (rep_mutex _ _ HA); fold n.
  1, 3: erewrite (then_pending (tail_of n))
          by (proj; rewrite ?lookup_insert_ne by (symmetry; by apply Hfresh);
              exact Htail).
  3, 4: erewrite (then_settled (tail_of n))
          by (proj; rewrite ?lookup_insert_ne by (symmetry; by apply Hfresh);
              exact Htail).
  all: erewrite (then_pending (PLock n)) by (look; reflexivity).
  all: assert (stage_of A n = Absent) as Hold by (by apply stage_absent).
  all: pose proof (stage_submit_new A (Dispatch fn) Hwf) as Hnew
       || pose proof (stage_submit_new A Direct Hwf) as Hnew.
  all: fold n in Hnew; rewrite Hph in Hnew.
  all: assert (v_callers A !! n = None) as Hnone by (by apply lookup_ge_None_2).
  all: assert (∀ c', (v_callers A ++ [c']) !! n = Some c') as Hsome
         by (intros c'; by rewrite lookup_app_r, Nat.sub_diag).
  all: assert (∀ c' k, k ≠ n → (v_callers A ++ [c']) !! k = v_callers A !! k) as Hother
         by (intros c' k Hk; destruct (decide (k < n));
             [by rewrite lookup_app_l
             | rewrite !lookup_ge_None_2;
               [done | fold n; lia | rewrite length_app; fold n; simpl; lia]]).
  all: split; proj; cbn [submit v_callers v_done v_phase]; rewrite ?Hph.
  (* callers, begins, mutex *)
  all: try (by rewrite (rep_callers _ _ HA)).
  all: try (rewrite (rep_begins _ _ HA), length_app, Nat.add_1_r, seq_S, fmap_app;
            fold n; rewrite insert_app_r_alt by (by rewrite length_fmap, length_seq);
            by rewrite length_fmap, length_seq, Nat.sub_diag).
  all: try (by rewrite length_app, Nat.add_1_r).
  (* queue, trace *)
  all: try (rewrite (rep_queue _ _ HA), queue_of_submit, Hph by done;
            try done; unfold queue_of; by rewrite Hph).
  all: try (by rewrite trace_of_submit, (rep_trace _ _ HA)).
  (* held *)
  all: try (intros k; rewrite (rep_held _ _ HA);
            destruct (decide (k = n)) as [-> | Hk];
            [ by rewrite Hold, Hnew, Hnone, Hsome
            | by rewrite stage_submit, Hother ]).
  (* heap *)
  all: intros p; destruct (decide (owner p = Some n)) as [Ho | Ho].
  all: try (destruct p as [|k|k|k|k|k]; [done|..]; injection Ho as ->;
            proj; rewrite ?lookup_insert_eq;
            repeat first [ rewrite lookup_insert_ne by (by apply Hfresh)
                         | rewrite lookup_insert_ne by congruence
                         | rewrite lookup_insert_eq ];
            rewrite ?(rep_heap _ _ HA);
            cbn [heap_at submit v_callers v_done v_phase];
            rewrite ?length_app, ?Nat.add_1_r, ?Hnew, ?Hsome, ?Hold, ?Hnone;
            fold n; rewrite ?Hnew, ?Hsome, ?Hold, ?Hnone;
            rewrite ?bool_decide_eq_false_2 by lia;
            first [ done | by destruct fn ]).
  all: repeat (rewrite (lookup_insert_ne _ (PLock n)) by (intros <-; by apply Ho)).
  all: try (rewrite (lookup_insert_ne _ (PChain n)) by (intros <-; by apply Ho)).
  1, 2: destruct (decide (p = tail_of n)) as [-> | Hp];
    [ rewrite lookup_insert_eq; symmetry; by eapply heap_at_submit_tail
    | rewrite lookup_insert_ne by done ].
  all: repeat (rewrite (lookup_insert_ne _ (PChain n)) by (intros <-; by apply Ho)).
  all: try (rewrite (lookup_insert_ne _ (PResult n)) by (intros <-; by apply Ho)).
  all: rewrite (rep_heap _ _ HA); symmetry; apply heap_at_submit; auto.
Qed.
(** *** The invariant *)

Lemma step_sim (i : input) (A : view) (s : state) :
  wf A → Rep A s → Rep (next_view i A) (step i s).
Proof.
  intros Hwf HA. destruct i as [fn| | |k o|k].
  - rewrite step_dispatch. by apply submit_sim.
  - rewrite step_lock. by apply submit_sim.
  - by apply run_job_sim.
  - by apply settle_body_sim.
  - by apply call_unlock_sim.
Qed.

Lemma wf_set_phase (A : view) (ph ph' : phase) :
  wf A → v_phase A = Some ph →
  match ph' with
  | Ended _ _ => v_callers A !! length (v_done A) ≠ Some Direct
  | _ => True
  end →
  wf (set_phase ph' A).
Proof.
  unfold wf. intros Hwf Hph Hok. rewrite Hph in Hwf.
  cbn [set_phase v_phase v_done v_callers]. tauto.
Qed.

Lemma next_view_wf (i : input) (A : view) : wf A → wf (next_view i A).
Proof.
  intros Hwf. pose proof Hwf as Hwf'. unfold wf in Hwf'.
  destruct i as [fn| | |k o|k]; unfold next_view.
  1, 2: unfold wf, submit; cbn [v_phase v_done v_callers];
    rewrite length_app, Nat.add_1_r;
    destruct (v_phase A) as [ph|]; [|lia];
    destruct Hwf' as [Hlt Hok]; (split; [lia|]);
    destruct ph; try done; by rewrite lookup_app_l.
  - destruct (v_phase A) as [[| |[]|o []|o []]|] eqn:Hph;
      first
        [ done
        | by eapply wf_set_phase
        | by eapply wf_set_phase; try done; destruct Hwf'
        | destruct (v_callers A !! length (v_done A)) as [[[]|]|] eqn:Hc; try done;
          eapply wf_set_phase; try done; by rewrite Hc
        | destruct Hwf' as [Hlt _]; unfold wf, finish; cbn [v_phase v_done v_callers];
          rewrite length_app, Nat.add_1_r;
          destruct (decide (S (length (v_done A)) < length (v_callers A)));
          [done | lia] ].
  - destruct (v_phase A) as [[| |b| |]|] eqn:Hph; try done.
    destruct (v_callers A !! k) as [[[]|]|] eqn:Hc; try done.
    destruct (decide _) as [-> | ?]; [|done].
    eapply wf_set_phase; try done. by rewrite Hc.
  - destruct (v_phase A) as [[| |b| |]|] eqn:Hph; try done.
    destruct (v_callers A !! k) as [[|]|] eqn:Hc; try done.
    destruct (decide _) as [-> | ?]; [|done].
    by eapply wf_set_phase.
Qed.

Lemma rep_init : Rep view0 init.
Proof.
  split; try done.
  intros p. unfold init, view0. cbn [heap].
  destruct p as [|k|k|k|k|k]; [by rewrite lookup_singleton_eq|..];
    rewrite lookup_singleton_ne by done; cbn [heap_at v_callers v_done v_phase];
    unfold stage_of; cbn [v_callers v_done v_phase];
    rewrite ?lookup_nil; cbn [length];
    destruct (decide (k = 0)); done.
Qed.

Lemma wf_init : wf view0.
Proof. done. Qed.

Lemma run_app (l1 l2 : list input) (s : state) : run (l1 ++ l2) s = run l2 (run l1 s).
Proof. apply foldl_app. Qed.

Lemma run_rep (inputs : list input) (A : view) (s : state) :
  wf A → Rep A s →
  wf (foldl (λ A i, next_view i A) A inputs)
  ∧ Rep (foldl (λ A i, next_view i A) A inputs) (run inputs s).
Proof.
  revert A s. induction inputs as [|i inputs IH]; intros A s Hwf HA; [done|].
  apply IH; [by apply next_view_wf | by apply step_sim].
Qed.

(** Every reachable state is read off a well-formed view. *)
Lemma reachable_rep (inputs : list input) :
  wf (view_after inputs) ∧ Rep (view_after inputs) (run inputs init).
Proof. apply run_rep; [apply wf_init | apply rep_init]. Qed.

(** *** Outcomes belong to their own body *)

Lemma wf_done_le (A : view) : wf A → length (v_done A) ≤ length (v_callers A).
Proof. unfold wf. destruct (v_phase A); lia. Qed.

(** A phase that records an outcome records that of the phase before. *)
Ltac same_outcome Hact :=
  let Ho := fresh "Ho" in
  let Hc := fresh "Hc" in
  intros ? ? ? Ho Hc; destruct Ho as [Ho | Ho]; try discriminate Ho;
  (injection Ho as <- <-; eapply Hact; [|exact Hc]; eauto).

Lemma next_view_fitting (i : input) (A : view) :
  wf A → fitting A → fitting (next_view i A).
Proof.
  intros Hwf Hfit. pose proof Hfit as [Hdone Hact]. pose proof (wf_done_le A Hwf) as Hle.
  destruct i as [fn| | |k o|k]; unfold next_view.
  1, 2: split; unfold submit; cbn [v_phase v_done v_callers].
  1, 3: intros k o c Hk; pose proof (lookup_lt_Some _ _ _ Hk);
    rewrite lookup_app_l by lia; by apply Hdone.
  1, 2: intros o b c Hph; unfold wf in Hwf;
    destruct (v_phase A) as [ph|] eqn:Hp; [|by destruct Hph];
    rewrite lookup_app_l by lia; by apply (Hact o b).
  - destruct (v_phase A) as [[| |[]|o []|o []]|] eqn:Hph; try exact Hfit.
    all: try (split; [exact Hdone|]; cbn [set_phase v_phase v_done v_callers];
              same_outcome Hact; fail).
    + destruct (v_callers A !! length (v_done A)) as [[[v|e|]|]|] eqn:Hc;
        try exact Hfit;
        (split; [exact Hdone|]); cbn [set_phase v_phase v_done v_callers];
        intros o b c Ho; rewrite Hc; intros [= <-];
        destruct Ho as [Ho | Ho]; try discriminate Ho; by injection Ho as <-.
    + split; unfold finish; cbn [v_phase v_done v_callers].
      * intros k o' c Hk Hc. apply lookup_app_Some in Hk as [Hk | [Hlen Hk]].
        { by apply (Hdone k). }
        apply list_lookup_singleton_Some in Hk as [Hk <-].
        apply (Hact o true); [by right|].
        by replace (length (v_done A)) with k by lia.
      * intros o' b c Ho. by destruct (decide _), Ho.
  - destruct (v_phase A) as [[| |b| |]|] eqn:Hph; try exact Hfit.
    destruct (v_callers A !! k) as [[[]|]|] eqn:Hc; try exact Hfit.
    destruct (decide _) as [-> | ?]; [|exact Hfit].
    split; [done|]. cbn [set_phase v_phase v_done v_callers].
    intros o' b' c _. rewrite Hc. by intros [= <-].
  - destruct (v_phase A) as [[| |b| |]|] eqn:Hph; try exact Hfit.
    destruct (v_callers A !! k) as [[|]|] eqn:Hc; try exact Hfit.
    destruct (decide _) as [-> | ?]; [|exact Hfit].
    split; [done|]. cbn [set_phase v_phase v_done v_callers].
    intros o' b' c Ho. rewrite Hc. intros [= <-].
    destruct Ho as [Ho | Ho]; try discriminate Ho; by injection Ho as <-.
Qed.

Lemma reachable_fitting (inputs : list input) : fitting (view_after inputs).
Proof.
  induction inputs as [|i inputs IH] using rev_ind.
  - split; [done|]. by intros o b c [? | ?].
  - unfold view_after. rewrite foldl_snoc.
    apply next_view_fitting; [apply reachable_rep | apply IH].
Qed.

(** *** Draining the microtask queue *)

Lemma fuel_quiet (A : view) : fuel A = 0 → queue_of A = [].
Proof.
  unfold fuel, queue_of. destruct (v_phase A) as [[| |[]|? []|? []]|]; cbn [rank]; lia || done.
Qed.

Lemma quiet_view (A : view) :
  queue_of A = [] → next_view RunJob A = A ∧ fuel A = 0.
Proof.
  unfold fuel, queue_of, next_view.
  by destruct (v_phase A) as [[| |[]|? []|? []]|].
Qed.

Lemma fuel_run_job (A : view) :
  wf A → queue_of A ≠ [] → fuel (next_view RunJob A) < fuel A.
Proof.
  intros Hwf Hq. pose proof Hwf as Hwf'. unfold wf in Hwf'. unfold queue_of in Hq.
  unfold next_view.
  destruct (v_phase A) as [[| |[]|o []|o []]|] eqn:Hph; try done;
    try (unfold fuel, set_phase; cbn [v_phase v_done v_callers rank]; rewrite ?Hph;
         cbn [rank]; lia).
  - destruct (v_callers A !! length (v_done A)) as [[[]|]|] eqn:Hc;
      unfold fuel, set_phase; cbn [v_phase v_done v_callers rank]; rewrite ?Hph;
      cbn [rank]; try lia.
    destruct Hwf' as [Hlt _]. apply lookup_ge_None_1 in Hc. lia.
  - destruct Hwf' as [Hlt _]. unfold fuel, finish. cbn [v_phase v_done v_callers].
    rewrite Hph, length_app, Nat.add_1_r. cbn [rank].
    destruct (decide _); cbn [rank]; lia.
Qed.

Lemma fuel_bound (A : view) : wf A → fuel A ≤ 5 * length (v_callers A).
Proof.
  unfold wf, fuel. destruct (v_phase A) as [[| |[]|? []|? []]|]; cbn [rank]; lia.
Qed.

Lemma next_view_callers (i : input) (A : view) :
  v_callers (next_view i A) = v_callers A ++ submissions [i].
Proof.
  unfold next_view, submissions.
  destruct i as [fn| | |k o|k]; cbn [omap list_omap]; rewrite ?app_nil_r; try done.
  - by destruct (v_phase A) as [[| |[]|? []|? []]|];
      try destruct (v_callers A !! _) as [[[]|]|].
  - destruct (v_phase A) as [[]|], (v_callers A !! k) as [[[]|]|]; try done.
    by destruct (decide _).
  - destruct (v_phase A) as [[]|], (v_callers A !! k) as [[[]|]|]; try done.
    by destruct (decide _).
Qed.

Lemma drain (m : nat) (A : view) (s : state) :
  wf A → Rep A s → fuel A ≤ m →
  ∃ A', wf A' ∧ Rep A' (run (replicate m RunJob) s)
        ∧ queue_of A' = [] ∧ v_callers A' = v_callers A.
Proof.
  revert A s. induction m as [|m IH]; intros A s Hwf HA Hfuel.
  - exists A. split; [done|]. split; [done|]. split; [|done]. apply fuel_quiet. lia.
  - cbn [replicate]. change (run (RunJob :: replicate m RunJob) s)
      with (run (replicate m RunJob) (step RunJob s)).
    destruct (IH (next_view RunJob A) (step RunJob s)) as (A' & ? & ? & ? & Hcs).
    + by apply next_view_wf.
    + by apply step_sim.
    + destruct (decide (queue_of A = [])) as [Hq | Hq].
      * destruct (quiet_view A Hq) as [-> ?]. lia.
      * pose proof (fuel_run_job A Hwf Hq). lia.
    + exists A'. split; [done|]. split; [done|]. split; [done|].
      rewrite Hcs, next_view_callers. cbn. by rewrite app_nil_r.
Qed.

(** *** Traces *)

Lemma serial_turns (k : nat) (done : list outcome) (t : list event) :
  serial (k + length done) t → serial k (turns k done ++ t).
Proof.
  revert k. induction done as [|o done IH]; intros k; cbn [turns app length].
  - by rewrite Nat.add_0_r.
  - rewrite <- Nat.add_succ_comm. intros H%IH. cbn [serial]. done.
Qed.

Lemma begun_turns (k : nat) (done : list outcome) (t : list event) :
  begun (turns k done ++ t) = seq k (length done) ++ begun t.
Proof.
  revert k. induction done as [|o done IH]; intros k; [done|].
  cbn [turns app length seq]. unfold begun in *. cbn [omap list_omap]. by rewrite IH.
Qed.

Lemma ended_turns (k : nat) (done : list outcome) (t : list event) :
  ended (turns k done ++ t) = seq k (length done) ++ ended t.
Proof.
  revert k. induction done as [|o done IH]; intros k; [done|].
  cbn [turns app length seq]. unfold ended in *. cbn [omap list_omap]. by rewrite IH.
Qed.

Lemma elem_of_turns_end (j k : nat) (done : list outcome) (o : outcome) :
  End k o ∈ turns j done ↔ j ≤ k ∧ done !! (k - j) = Some o.
Proof.
  revert j. induction done as [|o' done IH]; intros j; cbn [turns].
  - rewrite elem_of_nil, lookup_nil. naive_solver.
  - rewrite !elem_of_cons, IH. split.
    + intros [? | [[= -> ->] | [? Hl]]]; [done | by rewrite Nat.sub_diag |].
      split; [lia|]. by replace (k - j) with (S (k - S j)) by lia.
    + intros [Hj Hl]. destruct (decide (k = j)) as [-> | ?].
      * rewrite Nat.sub_diag in Hl. injection Hl as ->. auto.
      * right. right. split; [lia|].
        by replace (k - j) with (S (k - S j)) in Hl by lia.
Qed.

Lemma elem_of_turns_begin (j k : nat) (done : list outcome) :
  Begin k ∈ turns j done ↔ j ≤ k < j + length done.
Proof.
  revert j. induction done as [|o' done IH]; intros j; cbn [turns length].
  - rewrite elem_of_nil. lia.
  - rewrite !elem_of_cons, IH. split.
    + intros [[= ->] | [? | ?]]; [lia | done | lia].
    + intros ?. destruct (decide (k = j)) as [-> | ?]; [auto|]. right. right. lia.
Qed.

(** The part of the trace that belongs to the submission whose turn it is. *)
Lemma trace_of_turn (A : view) :
  ∃ t, trace_of A = turns 0 (v_done A) ++ t
       ∧ (t = [] ∨ t = [Begin (length (v_done A))]
          ∨ ∃ o, t = [Begin (length (v_done A)); End (length (v_done A)) o]).
Proof.
  unfold trace_of, finished_trace. eexists. split; [reflexivity|].
  destruct (v_phase A) as [[]|]; eauto.
Qed.

Lemma trace_of_serial (A : view) : serial 0 (trace_of A).
Proof.
  destruct (trace_of_turn A) as (t & -> & Ht). apply serial_turns. cbn [Nat.add].
  by destruct Ht as [-> | [-> | [o ->]]].
Qed.

Lemma trace_of_begun (A : view) :
  begun (trace_of A) = seq 0 (length (begun (trace_of A))).
Proof.
  destruct (trace_of_turn A) as (t & -> & Ht). rewrite begun_turns.
  destruct Ht as [-> | [-> | [o ->]]]; cbn [begun omap list_omap].
  - by rewrite app_nil_r, length_seq.
  - rewrite length_app, length_seq. cbn [length]. by rewrite Nat.add_1_r, seq_S.
  - rewrite length_app, length_seq. cbn [length]. by rewrite Nat.add_1_r, seq_S.
Qed.

Lemma filter_none {X} (P : X → Prop) `{∀ x, Decision (P x)} (l : list X) :
  (∀ x, x ∈ l → ¬ P x) → filter P l = [].
Proof.
  induction l as [|x l IH]; intros Hl; [done|].
  rewrite filter_cons_False by (apply Hl; left).
  apply IH. intros y Hy. apply Hl. by right.
Qed.

Lemma trace_of_running (A : view) : length (running (trace_of A)) ≤ 1.
Proof.
  destruct (trace_of_turn A) as (t & -> & Ht). unfold running.
  rewrite begun_turns, ended_turns, filter_app, length_app.
  rewrite filter_none by (intros x Hx Hn; apply Hn; apply elem_of_app; by left).
  etrans; [apply Nat.add_le_mono_l, length_filter|].
  destruct Ht as [-> | [-> | [o ->]]]; cbn; lia.
Qed.

Lemma trace_of_next_view (i : input) (A : view) :
  ∃ t, trace_of (next_view i A) = trace_of A ++ t.
Proof.
  assert (∀ o, ∃ t, trace_of (finish o A) = (finished_trace (v_done A)
            ++ [Begin (length (v_done A)); End (length (v_done A)) o]) ++ t) as Hfin.
  { intros o. exists []. unfold trace_of. cbn [finish v_done v_phase].
    rewrite finished_trace_snoc. by destruct (decide _). }
  assert (∃ t, trace_of A = trace_of A ++ t) as Hsame
    by (exists []; by rewrite app_nil_r).
  unfold next_view.
  destruct i as [fn| | |k o|k]; try (exists []; by rewrite trace_of_submit, app_nil_r).
  - destruct (v_phase A) as [[| |[]|o []|o []]|] eqn:Hph;
      try destruct (v_callers A !! length (v_done A)) as [[[]|]|];
      first
        [ exact Hsame
        | unfold trace_of at 2; rewrite Hph; apply Hfin
        | unfold trace_of; cbn [set_phase v_done v_phase]; rewrite Hph;
          eexists; rewrite <- app_assoc; f_equal; cbn [app]; reflexivity ].
  - destruct (v_phase A) as [[| |b|o' b|o' b]|] eqn:Hph,
      (v_callers A !! k) as [[[]|]|]; try exact Hsame.
    destruct (decide _); [|exact Hsame].
    unfold trace_of; cbn [set_phase v_done v_phase]; rewrite Hph;
      eexists; rewrite <- app_assoc; f_equal; cbn [app]; reflexivity.
  - destruct (v_phase A) as [[| |b|o' b|o' b]|] eqn:Hph,
      (v_callers A !! k) as [[[]|]|]; try exact Hsame.
    destruct (decide _); [|exact Hsame].
    unfold trace_of; cbn [set_phase v_done v_phase]; rewrite Hph;
      eexists; rewrite <- app_assoc; f_equal; cbn [app]; reflexivity.
Qed.

Lemma run_trace_mono (inputs : list input) (A : view) (s : state) :
  wf A → Rep A s → ∃ t, trace (run inputs s) = trace s ++ t.
Proof.
  revert A s. induction inputs as [|i inputs IH]; intros A s Hwf HA.
  - exists []. by rewrite app_nil_r.
  - destruct (IH (next_view i A) (step i s)) as [t Ht];
      [by apply next_view_wf | by apply step_sim |].
    destruct (trace_of_next_view i A) as [t' Ht'].
    exists (t' ++ t). cbn [run foldl]. fold (run inputs (step i s)). rewrite Ht.
    rewrite (rep_trace _ _ (step_sim i A s Hwf HA)), Ht', (rep_trace _ _ HA).
    by rewrite app_assoc.
Qed.

Lemma view_after_callers (inputs : list input) :
  v_callers (view_after inputs) = submissions inputs.
Proof.
  unfold view_after.
  assert (∀ A, v_callers (foldl (λ A i, next_view i A) A inputs)
               = v_callers A ++ submissions inputs) as H; [|apply (H view0)].
  induction inputs as [|i inputs IH]; intros A.
  - by rewrite app_nil_r.
  - cbn [foldl]. rewrite IH, next_view_callers, <- app_assoc. f_equal.
    unfold submissions. by rewrite <- omap_app.
Qed.

Lemma elem_of_trace_of_end (A : view) (k : nat) (o : outcome) :
  End k o ∈ trace_of A ↔
  v_done A !! k = Some o
  ∨ (k = length (v_done A)
     ∧ ∃ b, v_phase A = Some (Ended o b) ∨ v_phase A = Some (Released o b)).
Proof.
  unfold trace_of, finished_trace. rewrite elem_of_app, elem_of_turns_end, Nat.sub_0_r.
  split.
  - intros [[_ ?] | Hin]; [by left | right].
    destruct (v_phase A) as [[| |b|o' b|o' b]|];
      rewrite ?elem_of_cons, ?elem_of_nil in Hin;
      destruct Hin as [Hin | [Hin | Hin]] || destruct Hin as [Hin | Hin] || idtac;
      try done; injection Hin as -> ->; eauto.
  - intros [? | (-> & b & [-> | ->])]; [left; split; [lia | done] | right..];
      rewrite !elem_of_cons; auto.
Qed.

Lemma elem_of_trace_of_begin (A : view) (k : nat) :
  k < length (v_done A)
  ∨ (k = length (v_done A)
     ∧ ∃ ph, v_phase A = Some ph ∧ ph ≠ Turn ∧ ph ≠ Granted) →
  Begin k ∈ trace_of A.
Proof.
  unfold trace_of, finished_trace. rewrite elem_of_app, elem_of_turns_begin.
  intros [? | (-> & ph & -> & ? & ?)]; [left; lia | right].
  destruct ph; try done; apply list_elem_of_here.
Qed.

Lemma trace_of_fitting (A : view) (j : nat) (c : caller) (o : outcome) :
  fitting A → v_callers A !! j = Some c → End j o ∈ trace_of A → outcome_of c o.
Proof.
  intros [Hdone Hact] Hc Hin.
  apply elem_of_trace_of_end in Hin as [Hj | (-> & b & Hph)].
  - by apply (Hdone j).
  - by apply (Hact o b).
Qed.

Lemma stage_finished_lookup (A : view) (k : nat) (o : outcome) :
  stage_of A k = Finished o → v_done A !! k = Some o.
Proof.
  unfold stage_of. destruct (v_done A !! k) eqn:E; [by intros [= ->]|].
  destruct (decide _); [destruct (v_phase A)|destruct (decide _)]; done.
Qed.

(** A quiet view: nothing queued. *)
Lemma quiet_phase (A : view) :
  queue_of A = [] → v_phase A = None ∨ v_phase A = Some (Running true).
Proof. unfold queue_of. destruct (v_phase A) as [[| |[]|? []|? []]|]; auto; done. Qed.

(** *** The specification's properties *)

(** C1.  Whatever is submitted, in whatever interleaving with microtasks,
    settling bodies and unlock calls: the submissions are numbered in the
    order they were made, their critical sections begin in that order, each
    one is over before the next begins, and at most one is running. *)
Theorem mutex_fifo_mutual_exclusion (inputs : list input) :
  let s := run inputs init in
  callers s = submissions inputs
  ∧ serial 0 (trace s)
  ∧ begun (trace s) = seq 0 (length (begun (trace s)))
  ∧ length (running (trace s)) ≤ 1.
Proof.
  destruct (reachable_rep inputs) as [Hwf HA]. cbv zeta.
  rewrite (rep_callers _ _ HA), (rep_trace _ _ HA).
  split; [apply view_after_callers|].
  split; [apply trace_of_serial|].
  split; [apply trace_of_begun | apply trace_of_running].
Qed.

(** C2.  Let the event loop drain the microtask queue after any history
    ([5] microtasks for each submission are enough).  Then the queue is
    empty; when the k-th critical section is over, with whatever outcome
    and so also when it failed, the next submission has begun, after it;
    a settled result of [dispatch] is the outcome of that call's own body,
    a body has one outcome, which is what that body returned or threw and
    so has nothing to do with the failures of others; and every [dispatch]
    whose body is over has settled with that outcome. *)
Theorem mutex_fault_isolation (inputs : list input) :
  let s := run inputs init in
  let s' := run (replicate (5 * length (callers s)) RunJob) s in
  queue s' = []
  ∧ serial 0 (trace s')
  ∧ (∀ k o, End k o ∈ trace s →
            End k o ∈ trace s'
            ∧ (S k < length (callers s) → Begin (S k) ∈ trace s'))
  ∧ (∀ j o, heap s !! PResult j = Some (Settled o) → End j o ∈ trace s)
  ∧ (∀ j o o', End j o ∈ trace s → End j o' ∈ trace s → o = o')
  ∧ (∀ j c o, callers s !! j = Some c → End j o ∈ trace s → outcome_of c o)
  ∧ (∀ j fn o, callers s !! j = Some (Dispatch fn) → End j o ∈ trace s →
               heap s' !! PResult j = Some (Settled o)).
Proof.
  destruct (reachable_rep inputs) as [Hwf HA]. cbv zeta.
  set (A := view_after inputs) in *. set (s := run inputs init) in *.
  destruct (drain (5 * length (callers s)) A s Hwf HA) as (A' & Hwf' & HA' & Hq & Hcs).
  { rewrite (rep_callers _ _ HA). by apply fuel_bound. }
  set (s' := run (replicate (5 * length (callers s)) RunJob) s) in *.
  destruct (run_trace_mono (replicate (5 * length (callers s)) RunJob) A s Hwf HA)
    as [t Ht]. fold s' in Ht.
  assert (∀ k o, End k o ∈ trace s → v_done A' !! k = Some o) as Hdone.
  { intros k o Hin.
    assert (End k o ∈ trace s') as Hin' by (rewrite Ht, elem_of_app; by left).
    rewrite (rep_trace _ _ HA') in Hin'.
    apply elem_of_trace_of_end in Hin' as [? | (_ & b & [Hph | Hph])]; [done|..];
      destruct (quiet_phase A' Hq) as [Hq' | Hq']; congruence. }
  split; [by rewrite (rep_queue _ _ HA')|].
  split; [rewrite (rep_trace _ _ HA'); apply trace_of_serial|].
  split; [|split; [|split; [|split]]].
  - intros k o Hin. split; [rewrite Ht, elem_of_app; by left|].
    intros Hk. rewrite (rep_trace _ _ HA').
    pose proof (lookup_lt_Some _ _ _ (Hdone k o Hin)) as Hlt.
    apply elem_of_trace_of_begin.
    destruct (decide (S k < length (v_done A'))); [by left | right].
    split; [lia|]. rewrite (rep_callers _ _ HA), <- Hcs in Hk.
    destruct (quiet_phase A' Hq) as [Hq' | Hq'].
    + unfold wf in Hwf'. rewrite Hq' in Hwf'. lia.
    + by exists (Running true).
  - intros j o. rewrite (rep_heap _ _ HA), (rep_trace _ _ HA). cbn [heap_at].
    intros Hres. apply elem_of_trace_of_end.
    destruct (v_callers A !! j) as [[fn|]|]; try done. cbn [result_at] in Hres.
    destruct (stage_of A j) as [| |ph|o'] eqn:Hst; try done.
    + destruct ph; try done. injection Hres as ->.
      apply stage_active in Hst as [-> Hph]. right. eauto.
    + injection Hres as ->. left. by apply stage_finished_lookup.
  - intros j o o' H1 H2.
    apply Hdone in H1. apply Hdone in H2. congruence.
  - intros j c o Hc Hin. rewrite (rep_callers _ _ HA) in Hc.
    rewrite (rep_trace _ _ HA) in Hin.
    by apply (trace_of_fitting A j c o (reachable_fitting inputs)).
  - intros j fn o Hc Hin. rewrite (rep_heap _ _ HA'). cbn [heap_at].
    rewrite (stage_finished _ _ _ (Hdone j o Hin)).
    rewrite Hcs, <- (rep_callers _ _ HA), Hc. done.
Qed.

End MutexFacts.

(** *** The mutex on a concrete history *)

Module MutexRuns.

Import Mutex Histories.

Example history_trace :
  trace (run history init)
  = [Begin 0; End 0 (Fulfilled (VData 1)); Begin 1; End 1 (Rejected (VData 2));
     Begin 2; End 2 (Rejected (VData 7)); Begin 3; End 3 (Fulfilled VUndef)].
Proof. vm_compute. reflexivity. Qed.

Example history_results :
  let s := run history init in
  heap s !! PResult 0 = Some (Settled (Fulfilled (VData 1)))
  ∧ heap s !! PResult 1 = Some (Settled (Rejected (VData 2)))
  ∧ heap s !! PResult 2 = Some (Settled (Rejected (VData 7))).
Proof. vm_compute. repeat split; reflexivity. Qed.

(** The first body throws; the second submission begins all the same. *)
Lemma failing_body_releases :
  Begin 1 ∈ trace (run (replicate (5 * length (callers (run failing init))) RunJob)
                     (run failing init)).
Proof.
  apply (proj1 (proj2 (proj2 (mutex_fault_isolation failing))) 0 (Rejected (VData 7))).
  - replace (trace (run failing init)) with [Begin 0; End 0 (Rejected (VData 7))]
      by (vm_compute; reflexivity).
    apply list_elem_of_further, list_elem_of_here.
  - vm_compute. lia.
Defined.

End MutexRuns.

(** * More about the resolver: the fields it fills in *)

Set Warnings "-inconsistent-scopes".

Section ResolverFields.

Import Resolver.

Variable defaultDebugAdapterType : string.
Variable resolvePath : value → value.
Variable parse : value → option properties.
Variable unparse : properties → list string.

Local Abbreviation skeleton := (Resolver.skeleton defaultDebugAdapterType).
Local Abbreviation fieldDefaults := (Resolver.fieldDefaults defaultDebugAdapterType resolvePath).
Local Abbreviation stripBuildFlags := (Resolver.stripBuildFlags parse unparse).
Local Abbreviation stripGoflags := (Resolver.stripGoflags parse unparse).
Local Abbreviation resolveDebugConfiguration :=
  (Resolver.resolveDebugConfiguration defaultDebugAdapterType resolvePath parse unparse).
Local Abbreviation written argv :=
  (VStr (String.concat " " (unparse (deleteProperty "gcflags" argv)))).

(** *** Own properties through the blocks *)

Lemma hasOwnProperty_insert_ne (c : object) (k k' : string) (v : value) :
  k ≠ k' → hasOwnProperty (<[k := v]> c) k' = hasOwnProperty c k'.
Proof. intros. unfold hasOwnProperty. by rewrite lookup_insert_ne. Qed.

Lemma get_not_own (c : object) (k : string) :
  hasOwnProperty c k = false → get c k = VUndefined.
Proof.
  unfold hasOwnProperty, get. intros Hk%bool_decide_eq_false.
  destruct (c !! k); [|done]. exfalso. apply Hk. eauto.
Qed.

Lemma inherit_lookup (d c : object) (k k' : string) :
  k ≠ k' → inherit d k c !! k' = c !! k'.
Proof. intros. unfold inherit. case_match; [by rewrite lookup_insert_ne | done]. Qed.

Lemma inherit_own (d c : object) (k : string) :
  get (inherit d k c) k = if hasOwnProperty c k then get c k else get d k.
Proof.
  unfold inherit. destruct (hasOwnProperty c k) eqn:Hc; cbn [negb andb]; [done|].
  destruct (hasOwnProperty d k) eqn:Hd; [by rewrite get_insert_eq|].
  by rewrite !get_not_own.
Qed.

Lemma fieldDefaults_lookup (h : Host) (c : object) (k : string) :
  k ∉ defaulted → fieldDefaults h c !! k = c !! k.
Proof.
  intros Hk. unfold defaulted in Hk.
  assert ("type" ≠ k ∧ "packagePathToGoModPathMap" ≠ k ∧ "apiVersion" ≠ k
          ∧ "dlvLoadConfig" ≠ k ∧ "showGlobalVariables" ≠ k ∧ "cwd" ≠ k)
    as (?&?&?&?&?&?) by (repeat split; intros <-; apply Hk; set_solver).
  unfold Resolver.fieldDefaults.
  repeat first
    [ rewrite lookup_insert_ne by done
    | rewrite inherit_lookup by done
    | match goal with |- context [if ?b then _ else _] => destruct b end ];
  done.
Qed.

(** Reading through a write, conditional or not, to another property. *)
Lemma get_cond_insert_ne (b : bool) (c : object) (k k' : string) (v : value) :
  k ≠ k' → get (if b then <[k := v]> c else c) k' = get c k'.
Proof. intros. destruct b; [by apply get_insert_ne | done]. Qed.

Lemma own_cond_insert_ne (b : bool) (c : object) (k k' : string) (v : value) :
  k ≠ k' → hasOwnProperty (if b then <[k := v]> c else c) k' = hasOwnProperty c k'.
Proof. intros. destruct b; [by apply hasOwnProperty_insert_ne | done]. Qed.

Lemma own_inherit_ne (d c : object) (k k' : string) :
  k ≠ k' → hasOwnProperty (inherit d k c) k' = hasOwnProperty c k'.
Proof. intros. unfold hasOwnProperty. by rewrite inherit_lookup. Qed.

Ltac skip_writes :=
  repeat first
    [ rewrite get_cond_insert_ne by done
    | rewrite own_cond_insert_ne by done
    | rewrite get_insert_ne by done
    | rewrite hasOwnProperty_insert_ne by done
    | rewrite inherit_get by done
    | rewrite own_inherit_ne by done ].

Lemma fieldDefaults_type (h : Host) (c : object) :
  get (fieldDefaults h c) "type" =
    if truthy (get c "type") then get c "type" else VStr defaultDebugAdapterType.
Proof.
  unfold Resolver.fieldDefaults. cbv zeta. skip_writes.
  destruct (truthy (get c "type")); cbn [negb]; [done | by rewrite get_insert_eq].
Qed.

Lemma fieldDefaults_map (h : Host) (c : object) :
  get (fieldDefaults h c) "packagePathToGoModPathMap" = VObj (packagePathToGoModPathMap h).
Proof.
  unfold Resolver.fieldDefaults. cbv zeta. skip_writes. by rewrite get_insert_eq.
Qed.

Lemma fieldDefaults_apiVersion (h : Host) (c : object) :
  get (fieldDefaults h c) "apiVersion" =
    if (if hasOwnProperty c "useApiV1" then is_true (get c "useApiV1")
        else if hasOwnProperty (delveConfig h) "useApiV1"
             then is_true (get (delveConfig h) "useApiV1") else false)
    then VNum 1
    else if hasOwnProperty c "apiVersion" then get c "apiVersion"
         else get (delveConfig h) "apiVersion".
Proof.
  unfold Resolver.fieldDefaults. cbv zeta. skip_writes.
  rewrite inherit_own. skip_writes.
  destruct (if hasOwnProperty c "useApiV1" then _ else _).
  - unfold hasOwnProperty at 1. rewrite lookup_insert_eq.
    rewrite bool_decide_eq_true_2 by eauto. by rewrite get_insert_eq.
  - by skip_writes.
Qed.

Lemma fieldDefaults_inherited (h : Host) (c : object) (k : string) :
  k = "dlvLoadConfig" ∨ k = "showGlobalVariables" →
  get (fieldDefaults h c) k =
    if hasOwnProperty c k then get c k else get (delveConfig h) k.
Proof.
  unfold Resolver.fieldDefaults. cbv zeta.
  intros [-> | ->]; skip_writes; rewrite inherit_own; by skip_writes.
Qed.

Lemma fieldDefaults_cwd (h : Host) (c : object) :
  get (fieldDefaults h c) "cwd" =
    let cwd := if is_str (get c "request") "attach" && negb (truthy (get c "cwd"))
               then VStr "${workspaceFolder}" else get c "cwd" in
    if truthy cwd then resolvePath cwd else cwd.
Proof.
  unfold Resolver.fieldDefaults. cbv zeta.
  match goal with
  | |- get (if truthy (get ?x "cwd") then _ else _) _ = _ => set (c7 := x)
  end.
  assert (get c7 "cwd" =
          if is_str (get c "request") "attach" && negb (truthy (get c "cwd"))
          then VStr "${workspaceFolder}" else get c "cwd") as <-.
  { subst c7.
    match goal with |- get (if ?b then _ else _) _ = _ => destruct b eqn:Hb end;
      [rewrite get_insert_eq | idtac]; revert Hb; skip_writes; by intros ->. }
  destruct (truthy (get c7 "cwd")); [by rewrite get_insert_eq | done].
Qed.

Lemma concretizeMode_lookup (h : Host) (c : object) (k : string) :
  k ≠ "mode" → concretizeMode h c !! k = c !! k.
Proof.
  intros. unfold concretizeMode. case_match; [by rewrite lookup_insert_ne | done].
Qed.

Lemma concretizeMode_remote (h : Host) (c : object) :
  is_str (get (concretizeMode h c) "mode") "remote" = is_str (get c "mode") "remote".
Proof.
  unfold concretizeMode. destruct (is_str (get c "mode") "auto") eqn:E; [|done].
  apply is_str_eq in E. rewrite E, get_insert_eq.
  by destruct (activeTextEditor h) as [ed|]; [destruct (Path.endsWith _ _)|].
Qed.

Lemma remoteWarnings_spec (h : Host) (c : object) (k : string) :
  warningsWithKey k (remoteWarnings h c) =
    (if is_str (get c "request") "launch" && is_str (get c "mode") "remote"
     then warningsWithKey k
            (showWarning h "ignoreDebugLaunchRemoteWarning" launchRemoteMessage)
     else [])
    ++
    (if is_str (get c "request") "attach" && is_str (get c "mode") "remote"
        && truthy (get c "program")
     then warningsWithKey k
            (showWarning h "ignoreUsingRemotePathAndProgramWarning" remoteProgramMessage)
     else []).
Proof.
  unfold remoteWarnings. rewrite warningsWithKey_app.
  by destruct (_ && _); destruct (_ && _ && _).
Qed.

(** The flag blocks show nothing under another key than their own. *)
Lemma stripBuildFlags_other_key (h : Host) (c c1 : object) (w1 : list effect)
    (k : string) :
  stripBuildFlags h c = Some (c1, w1) →
  k ≠ "ignoreDebugGCFlagsWarning" → warningsWithKey k w1 = [].
Proof.
  intros [[_ ->] | (argv & _ & _ & _ & _ & ->)]%stripBuildFlags_Some Hk; [done|].
  apply not_eq_sym, String.eqb_neq in Hk.
  rewrite warningsWithKey_showWarning, Hk. by destruct (truthy _).
Qed.

Lemma stripGoflags_other_key (h : Host) (c c2 : object) (w2 : list effect)
    (k : string) :
  stripGoflags h c = Some (c2, w2) →
  k ≠ "ignoreDebugGCFlagsWarning" → warningsWithKey k w2 = [].
Proof.
  intros [[_ ->] | (argv & _ & _ & _ & _ & ->)]%stripGoflags_Some Hk; [done|].
  apply not_eq_sym, String.eqb_neq in Hk.
  rewrite warningsWithKey_showWarning, Hk. by destruct (truthy _).
Qed.

Lemma concretizeMode_other (h : Host) (c : object) :
  is_str (get c "mode") "auto" = false → concretizeMode h c = c.
Proof. intros Hm. unfold concretizeMode. by rewrite Hm. Qed.

Lemma remoteWarnings_none (h : Host) (c : object) :
  is_str (get c "request") "launch" && is_str (get c "mode") "remote" = false →
  is_str (get c "request") "attach" && is_str (get c "mode") "remote"
    && truthy (get c "program") = false →
  remoteWarnings h c = [].
Proof. intros H1 H2. unfold remoteWarnings. by rewrite H1, H2. Qed.

(** A flag block whose value is falsy is passed without a call of the
    parser. *)
Lemma stripBuildFlags_skipped (h : Host) (c : object) :
  truthy (get c "buildFlags") = false → stripBuildFlags h c = Some (c, []).
Proof. intros Hbf. by rewrite stripBuildFlags_spec, Hbf. Qed.

Lemma stripGoflags_skipped (h : Host) (c : object) :
  truthy (get c "env") = false → stripGoflags h c = Some (c, []).
Proof. intros Henv. by rewrite stripGoflags_spec, Henv. Qed.

Local Opaque Resolver.skeleton Resolver.fieldDefaults Resolver.stripBuildFlags
  Resolver.stripGoflags Resolver.concretizeMode Resolver.remoteWarnings
  Resolver.resolveDebugConfiguration Resolver.showWarning.

(** What a returned configuration keeps of the one that passed skeleton
    defaulting, by value. *)
Lemma returned_field (h : Host) (dc : option object) (c0 c' : object)
    (w : list effect) (k : string) :
  skeleton h dc = Some c0 →
  resolveDebugConfiguration h dc = (Returned (Some c'), w) →
  k ∉ ["buildFlags"; "env"; "dlvToolPath"; "mode"] →
  get c' k = get (fieldDefaults h c0) k.
Proof.
  intros Hs Hr Hk. unfold get.
  by rewrite (returned_lookup _ _ _ _ h dc c0 c' w k Hs Hr Hk).
Qed.

(** X1.  Resolution writes ten properties at most: every other property
    of the configuration that passed skeleton defaulting, own or missing, is
    returned as it was. *)
Theorem other_fields_are_kept (h : Host) (dc : option object) (c0 c' : object)
    (w : list effect) :
  skeleton h dc = Some c0 →
  resolveDebugConfiguration h dc = (Returned (Some c'), w) →
  ∀ k, k ∉ ["type"; "packagePathToGoModPathMap"; "apiVersion"; "dlvLoadConfig";
            "showGlobalVariables"; "cwd"; "buildFlags"; "env"; "dlvToolPath";
            "mode"] →
       c' !! k = c0 !! k.
Proof.
  intros Hs Hr k Hk.
  rewrite (returned_lookup _ _ _ _ h dc c0 c' w k Hs Hr) by set_solver.
  apply fieldDefaults_lookup. unfold defaulted. set_solver.
Qed.

(** X2.  The Delve settings of the workspace never override the
    configuration: in a returned configuration [apiVersion] is 1 when
    [useApiV1] is [true] (read from the configuration if it has the
    property, from [delveConfig] otherwise), and else, as [dlvLoadConfig]
    and [showGlobalVariables], it is the configuration's own property if
    there is one and the one of [delveConfig] if not. *)
Theorem delve_settings_precedence (h : Host) (dc : option object) (c0 c' : object)
    (w : list effect) :
  skeleton h dc = Some c0 →
  resolveDebugConfiguration h dc = (Returned (Some c'), w) →
  let d := delveConfig h in
  let useApiV1 :=
    if hasOwnProperty c0 "useApiV1" then is_true (get c0 "useApiV1")
    else if hasOwnProperty d "useApiV1" then is_true (get d "useApiV1") else false in
  get c' "apiVersion" =
    (if useApiV1 then VNum 1
     else if hasOwnProperty c0 "apiVersion" then get c0 "apiVersion"
          else get d "apiVersion")
  ∧ get c' "dlvLoadConfig" =
      (if hasOwnProperty c0 "dlvLoadConfig" then get c0 "dlvLoadConfig"
       else get d "dlvLoadConfig")
  ∧ get c' "showGlobalVariables" =
      (if hasOwnProperty c0 "showGlobalVariables" then get c0 "showGlobalVariables"
       else get d "showGlobalVariables").
Proof.
  intros Hs Hr. cbv zeta.
  rewrite !(returned_field h dc c0 c' w _ Hs Hr) by set_solver.
  rewrite fieldDefaults_apiVersion, !fieldDefaults_inherited by auto. done.
Qed.

(** X3.  What resolution fills in.  A returned configuration has the
    adapter type (the default one when the configuration had none), the
    module map, the path of [dlv], which is absolute, and the working
    directory, which is [${workspaceFolder}] for an [attach] request without
    one and which is passed through [resolvePath] whenever there is one. *)
Theorem filled_in_fields (h : Host) (dc : option object) (c0 c' : object)
    (w : list effect) :
  skeleton h dc = Some c0 →
  resolveDebugConfiguration h dc = (Returned (Some c'), w) →
  get c' "type" =
    (if truthy (get c0 "type") then get c0 "type" else VStr defaultDebugAdapterType)
  ∧ get c' "packagePathToGoModPathMap" = VObj (packagePathToGoModPathMap h)
  ∧ get c' "dlvToolPath" = VStr (dlvBinPath h)
  ∧ Path.isAbsolute (dlvBinPath h) = true
  ∧ get c' "cwd" =
      (if truthy (get c0 "cwd") then resolvePath (get c0 "cwd")
       else if is_str (get c0 "request") "attach"
            then resolvePath (VStr "${workspaceFolder}")
            else get c0 "cwd").
Proof.
  intros Hs Hr.
  rewrite (returned_field h dc c0 c' w "type" Hs Hr),
    (returned_field h dc c0 c' w "packagePathToGoModPathMap" Hs Hr),
    (returned_field h dc c0 c' w "cwd" Hs Hr) by set_solver.
  rewrite fieldDefaults_type, fieldDefaults_map, fieldDefaults_cwd.
  apply resolve_returned in Hr
    as (c0' & c1 & c2 & w1 & w2 & _ & _ & _ & Hdlv & -> & _).
  repeat split; try done.
  - rewrite concretizeMode_get by done. by rewrite get_insert_eq.
  - cbv zeta. destruct (truthy (get c0 "cwd")) eqn:Hcwd.
    + rewrite andb_false_r. by rewrite Hcwd.
    + rewrite andb_true_r. destruct (is_str (get c0 "request") "attach").
      * by replace (truthy (VStr "${workspaceFolder}")) with true
          by (vm_compute; reflexivity).
      * by rewrite Hcwd.
Qed.

(** X4.  The two warnings about mode [remote] are shown, each under its
    own key and unless that key is suppressed, for a [launch] request in
    mode [remote] and for an [attach] request in mode [remote] with a
    [program]; neither stops the resolution: the configuration is returned
    with mode, request and program as they were. *)
Theorem remote_mode_warnings (h : Host) (dc : option object) (c0 c' : object)
    (w : list effect) :
  skeleton h dc = Some c0 →
  resolveDebugConfiguration h dc = (Returned (Some c'), w) →
  let request := get c0 "request" in
  let mode := get c0 "mode" in
  let suppressed key := truthy (getFromGlobalState (globalState h) key) in
  warningsWithKey "ignoreDebugLaunchRemoteWarning" w =
    (if is_str request "launch" && is_str mode "remote"
        && negb (suppressed "ignoreDebugLaunchRemoteWarning")
     then [launchRemoteMessage] else [])
  ∧ warningsWithKey "ignoreUsingRemotePathAndProgramWarning" w =
      (if is_str request "attach" && is_str mode "remote" && truthy (get c0 "program")
          && negb (suppressed "ignoreUsingRemotePathAndProgramWarning")
       then [remoteProgramMessage] else [])
  ∧ (mode = VStr "remote" → get c' "mode" = VStr "remote")
  ∧ c' !! "request" = c0 !! "request"
  ∧ c' !! "program" = c0 !! "program".
Proof.
  intros Hs Hr. cbv zeta.
  assert (∀ k, k ∉ ["type"; "packagePathToGoModPathMap"; "apiVersion"; "dlvLoadConfig";
                    "showGlobalVariables"; "cwd"; "buildFlags"; "env"; "dlvToolPath";
                    "mode"] → c' !! k = c0 !! k) as Hkeep.
  { intros k Hk. rewrite (returned_lookup _ _ _ _ h dc c0 c' w k Hs Hr) by set_solver.
    apply fieldDefaults_lookup. unfold defaulted. set_solver. }
  assert (get c' "request" = get c0 "request") as Hreq
    by (unfold get; rewrite Hkeep by set_solver; done).
  assert (get c' "program" = get c0 "program") as Hprog
    by (unfold get; rewrite Hkeep by set_solver; done).
  apply resolve_returned in Hr
    as (c0' & c1 & c2 & w1 & w2 & Hs' & Hb & Hg & _ & Hc' & ->).
  rewrite Hs in Hs'. injection Hs' as <-.
  assert (is_str (get c' "mode") "remote" = is_str (get c0 "mode") "remote") as Hmode.
  { rewrite Hc', concretizeMode_remote.
    by rewrite (mode_before_concretization _ _ _ _ h c0 c1 c2 w1 w2 Hb Hg). }
  split; [|split; [|split; [|split]]].
  - rewrite !warningsWithKey_app.
    rewrite (stripBuildFlags_other_key h _ c1 w1 _ Hb),
      (stripGoflags_other_key h c1 c2 w2 _ Hg), remoteWarnings_spec by done.
    rewrite !warningsWithKey_showWarning, Hreq, Hmode. cbn [app].
    replace (String.eqb "ignoreDebugLaunchRemoteWarning" "ignoreDebugLaunchRemoteWarning")
      with true by (symmetry; apply String.eqb_refl).
    replace (String.eqb "ignoreUsingRemotePathAndProgramWarning"
               "ignoreDebugLaunchRemoteWarning")
      with false by (vm_compute; reflexivity).
    destruct (is_str (get c0 "request") "launch" && is_str (get c0 "mode") "remote");
      cbn [andb]; repeat destruct (truthy _); repeat destruct (_ && _); done.
  - rewrite !warningsWithKey_app.
    rewrite (stripBuildFlags_other_key h _ c1 w1 _ Hb),
      (stripGoflags_other_key h c1 c2 w2 _ Hg), remoteWarnings_spec by done.
    rewrite !warningsWithKey_showWarning, Hreq, Hmode, Hprog. cbn [app].
    replace (String.eqb "ignoreUsingRemotePathAndProgramWarning"
               "ignoreUsingRemotePathAndProgramWarning")
      with true by (symmetry; apply String.eqb_refl).
    replace (String.eqb "ignoreDebugLaunchRemoteWarning"
               "ignoreUsingRemotePathAndProgramWarning")
      with false by (vm_compute; reflexivity).
    destruct (is_str (get c0 "request") "attach" && is_str (get c0 "mode") "remote"
              && truthy (get c0 "program"));
      cbn [andb]; repeat destruct (truthy _); repeat destruct (_ && _); done.
  - intros Hm. apply is_str_eq. rewrite Hmode. by apply is_str_eq.
  - apply Hkeep. set_solver.
  - apply Hkeep. set_solver.
Qed.

(** X5.  A [gcflags] entry in [env.GOFLAGS] is removed as the one in
    [buildFlags] is.  In a returned configuration, when [env.GOFLAGS] was
    read and the parser reported a truthy [gcflags] entry, [GOFLAGS] is the
    remaining flags written back and joined by spaces and the other
    variables of [env] stay; when [env.GOFLAGS] was not read, or the parser
    reported no such entry, [env] is returned as it was. *)
Theorem gcflags_stripped_from_GOFLAGS (h : Host) (dc : option object) (c0 c' : object)
    (w : list effect) :
  skeleton h dc = Some c0 →
  resolveDebugConfiguration h dc = (Returned (Some c'), w) →
  let env := get c0 "env" in
  let gf := prop env "GOFLAGS" in
  if truthy env && truthy gf then
    ∃ argv,
      parse gf = Some argv
      ∧ if truthy (property argv "gcflags") then
          prop (get c' "env") "GOFLAGS"
          = VStr (String.concat " " (unparse (deleteProperty "gcflags" argv)))
          ∧ ∀ k, k ≠ "GOFLAGS" → prop (get c' "env") k = prop env k
        else get c' "env" = env
  else get c' "env" = env.
Proof.
  intros Hs (c0' & c1 & c2 & w1 & w2 & Hs' & Hb & Hg & _ & -> & _)%resolve_returned.
  rewrite Hs in Hs'. injection Hs' as <-. cbv zeta.
  rewrite concretizeMode_get by done. rewrite get_insert_ne by done.
  revert Hg. rewrite stripGoflags_spec, (env_read _ _ _ _ h c0 c1 w1 Hb).
  destruct (truthy (get c0 "env") && truthy (prop (get c0 "env") "GOFLAGS")) eqn:Hread.
  2: { intros [= <- _]. apply (env_read _ _ _ _ h c0 c1 w1 Hb). }
  destruct (parse (prop (get c0 "env") "GOFLAGS")) as [argv|]; [|done].
  exists argv. split; [done|]. revert Hg.
  destruct (truthy (property argv "gcflags")); intros [= <- _].
  2: { apply (env_read _ _ _ _ h c0 c1 w1 Hb). }
  rewrite get_insert_eq.
  destruct (get c0 "env") as [| |b|n|s|l|o]; cbn [prop truthy] in Hread;
    rewrite ?andb_false_r in Hread; try done. cbn [prop ownProps].
  split; [by rewrite get_insert_eq|].
  intros k Hk. by rewrite get_insert_ne.
Qed.



(** X6.  A configuration without a (truthy) [request] is read as a missing
    launch.json even when it says more: with a Go file active, its [name],
    [type], [request], [mode] and [program] are overwritten by those of the
    skeleton, and its other properties are kept. *)
Theorem skeleton_overrides_partial_configuration (h : Host) (c : object)
    (ed : TextEditor) :
  truthy (get c "request") = false →
  activeTextEditor h = Some ed →
  languageId ed = "go" →
  ∃ c0,
    skeleton h (Some c) = Some c0
    ∧ get c0 "name" = VStr "Launch"
    ∧ get c0 "type" = VStr defaultDebugAdapterType
    ∧ get c0 "request" = VStr "launch"
    ∧ get c0 "mode" = VStr "auto"
    ∧ get c0 "program" = VStr (Path.dirname (fileName ed))
    ∧ ∀ k, k ∉ ["name"; "type"; "request"; "mode"; "program"] → c0 !! k = c !! k.
Proof.
  clear resolvePath parse unparse.
  intros Hreq Hed Hgo. rewrite skeleton_needed by auto. rewrite Hed, Hgo.
  replace (String.eqb "go" "go") with true by (symmetry; apply String.eqb_refl).
  cbn [negb]. eexists. split; [reflexivity|].
  change (default ∅ (Some c)) with c.
  set (sk := ({[ "name" := VStr "Launch"; "type" := VStr defaultDebugAdapterType;
                 "request" := VStr "launch"; "mode" := VStr "auto";
                 "program" := VStr (Path.dirname (fileName ed)) ]} : object)).
  assert (∀ k v, sk !! k = Some v → get (assign c sk) k = v) as Hget.
  { intros k v Hk. unfold get, assign. by rewrite (lookup_union_Some_l _ _ _ _ Hk). }
  repeat split; try (apply Hget; subst sk; by simplify_map_eq).
  intros k Hk. unfold assign. apply lookup_union_r. subst sk.
  assert ("name" ≠ k ∧ "type" ≠ k ∧ "request" ≠ k ∧ "mode" ≠ k ∧ "program" ≠ k)
    as (?&?&?&?&?) by (repeat split; intros <-; apply Hk; set_solver).
  rewrite !lookup_insert_ne by done. by apply lookup_singleton_ne.
Qed.

(** A configuration with neither build flags nor [env] and outside the two
    deprecated uses of mode [remote] resolves without a warning: the parser
    is never called. *)
Lemma resolves_silently (h : Host) (c : object) :
  truthy (get c "request") = true →
  Path.isAbsolute (dlvBinPath h) = true →
  truthy (get c "buildFlags") = false →
  truthy (get c "env") = false →
  is_str (get c "request") "launch" && is_str (get c "mode") "remote" = false →
  is_str (get c "request") "attach" && is_str (get c "mode") "remote"
    && truthy (get c "program") = false →
  ∃ c', resolveDebugConfiguration h (Some c) = (Returned (Some c'), [])
        ∧ c' !! "request" = c !! "request"
        ∧ get c' "mode" = (if is_str (get c "mode") "auto"
                           then get c' "mode" else get c "mode").
Proof.
  intros Hreq Hdlv Hbf Henv Hlr Harp.
  pose proof (skeleton_given defaultDebugAdapterType h c Hreq) as Hs.
  assert (get (fieldDefaults h c) "buildFlags" = get c "buildFlags") as Hbf'.
  { unfold get. rewrite fieldDefaults_lookup; [done|]. unfold defaulted. set_solver. }
  assert (get (fieldDefaults h c) "env" = get c "env") as Henv'.
  { unfold get. rewrite fieldDefaults_lookup; [done|]. unfold defaulted. set_solver. }
  assert (stripBuildFlags h (fieldDefaults h c) = Some (fieldDefaults h c, [])) as Hsb
    by (apply stripBuildFlags_skipped; by rewrite Hbf').
  assert (stripGoflags h (fieldDefaults h c) = Some (fieldDefaults h c, [])) as Hsg
    by (apply stripGoflags_skipped; by rewrite Henv').
  pose proof (resolve_prepared _ _ _ _ h (Some c) c _ _ _ _ Hs Hsb Hsg) as Hr.
  cbv zeta in Hr. rewrite Hdlv in Hr. cbn [negb app] in Hr.
  set (c' := concretizeMode h
               (<["dlvToolPath" := VStr (dlvBinPath h)]> (fieldDefaults h c))) in *.
  assert (∀ k, k ∉ ["type"; "packagePathToGoModPathMap"; "apiVersion"; "dlvLoadConfig";
                    "showGlobalVariables"; "cwd"; "buildFlags"; "env"; "dlvToolPath";
                    "mode"] → c' !! k = c !! k) as Hkeep.
  { intros k Hk.
    rewrite (returned_lookup _ _ _ _ h (Some c) c c' _ k Hs Hr) by set_solver.
    apply fieldDefaults_lookup. unfold defaulted. set_solver. }
  assert (get c' "request" = get c "request") as Hrq
    by (unfold get; rewrite Hkeep by set_solver; done).
  assert (get c' "program" = get c "program") as Hp
    by (unfold get; rewrite Hkeep by set_solver; done).
  assert (get (<["dlvToolPath" := VStr (dlvBinPath h)]> (fieldDefaults h c)) "mode"
          = get c "mode") as Hbefore
    by (apply (mode_before_concretization _ _ _ _ h c _ _ _ _ Hsb Hsg)).
  assert (is_str (get c' "mode") "remote" = is_str (get c "mode") "remote") as Hm.
  { subst c'. by rewrite concretizeMode_remote, Hbefore. }
  assert (get c' "mode" = if is_str (get c "mode") "auto"
                          then get c' "mode" else get c "mode") as Hmode.
  { destruct (is_str (get c "mode") "auto") eqn:Hauto; [done|].
    subst c'. rewrite concretizeMode_other by (by rewrite Hbefore). exact Hbefore. }
  exists c'. split; [|split; [apply Hkeep; set_solver | exact Hmode]].
  rewrite Hr. f_equal.
  apply remoteWarnings_none; by rewrite Hrq, ?Hp, Hm.
Qed.

End ResolverFields.

(** * Suppressing a warning *)

Section Suppression.

Import Resolver Warning.

Variable defaultDebugAdapterType : string.
Variable resolvePath : value → value.
Variable parse : value → option properties.
Variable unparse : properties → list string.

Local Abbreviation resolveDebugConfiguration :=
  (Resolver.resolveDebugConfiguration defaultDebugAdapterType resolvePath parse unparse).

(** Two hosts that differ in the global state at most. *)
Local Abbreviation same_workspace h1 h2 :=
  (activeTextEditor h1 = activeTextEditor h2
   ∧ packagePathToGoModPathMap h1 = packagePathToGoModPathMap h2
   ∧ delveConfig h1 = delveConfig h2
   ∧ dlvBinPath h1 = dlvBinPath h2).

Section TwoHosts.

Variables h1 h2 : Host.
Hypothesis Hsame : same_workspace h1 h2.
Variable P : effect → Prop.
Context `{!∀ e, Decision (P e)}.
Hypothesis Hshow : ∀ k m, showWarning h2 k m = filter P (showWarning h1 k m).
Hypothesis Hprompt : ∀ tool, P (PromptForMissingTool tool).

Lemma skeleton_same (dc : option object) :
  skeleton defaultDebugAdapterType h2 dc = skeleton defaultDebugAdapterType h1 dc.
Proof. unfold skeleton. destruct Hsame as (-> & _). done. Qed.

Lemma fieldDefaults_same (c : object) :
  fieldDefaults defaultDebugAdapterType resolvePath h2 c
  = fieldDefaults defaultDebugAdapterType resolvePath h1 c.
Proof. unfold fieldDefaults. destruct Hsame as (_ & -> & -> & _). done. Qed.

(** A flag block throws for both hosts or for neither, and leaves the
    same configuration. *)
Lemma stripBuildFlags_same (c : object) :
  stripBuildFlags parse unparse h2 c
  = (λ r, (r.1, filter P r.2)) <$> stripBuildFlags parse unparse h1 c.
Proof.
  rewrite !stripBuildFlags_spec. destruct (truthy (get c "buildFlags")); [|done].
  destruct (parse (get c "buildFlags")) as [argv|]; [|done].
  cbn [fmap option_fmap option_map].
  destruct (truthy (property argv "gcflags")); cbn [fst snd]; [|done].
  by rewrite Hshow.
Qed.

Lemma stripGoflags_same (c : object) :
  stripGoflags parse unparse h2 c
  = (λ r, (r.1, filter P r.2)) <$> stripGoflags parse unparse h1 c.
Proof.
  rewrite !stripGoflags_spec.
  destruct (truthy (get c "env") && truthy (prop (get c "env") "GOFLAGS")); [|done].
  destruct (parse (prop (get c "env") "GOFLAGS")) as [argv|]; [|done].
  cbn [fmap option_fmap option_map].
  destruct (truthy (property argv "gcflags")); cbn [fst snd]; [|done].
  by rewrite Hshow.
Qed.

Lemma concretizeMode_same (c : object) : concretizeMode h2 c = concretizeMode h1 c.
Proof. unfold concretizeMode. destruct Hsame as (-> & _). done. Qed.

Lemma remoteWarnings_same (c : object) :
  remoteWarnings h2 c = filter P (remoteWarnings h1 c).
Proof.
  unfold remoteWarnings. rewrite filter_app, !Hshow.
  by destruct (_ && _); destruct (_ && _ && _).
Qed.

Local Opaque Resolver.skeleton Resolver.fieldDefaults Resolver.stripBuildFlags
  Resolver.stripGoflags Resolver.concretizeMode Resolver.remoteWarnings
  Resolver.resolveDebugConfiguration Resolver.showWarning.

Lemma resolve_same (dc : option object) :
  (resolveDebugConfiguration h2 dc).1 = (resolveDebugConfiguration h1 dc).1
  ∧ (resolveDebugConfiguration h2 dc).2 = filter P (resolveDebugConfiguration h1 dc).2.
Proof.
  destruct (skeleton defaultDebugAdapterType h1 dc) as [c0|] eqn:Hs1.
  2: { rewrite (resolve_aborted _ _ _ _ h1 dc Hs1).
       rewrite <- skeleton_same in Hs1.
       by rewrite (resolve_aborted _ _ _ _ h2 dc Hs1). }
  pose proof Hs1 as Hs2. rewrite <- skeleton_same in Hs2.
  set (c := fieldDefaults defaultDebugAdapterType resolvePath h1 c0).
  destruct (stripBuildFlags parse unparse h1 c) as [[c1 w1]|] eqn:Hb1.
  2: { assert (stripBuildFlags parse unparse h2
                 (fieldDefaults defaultDebugAdapterType resolvePath h2 c0) = None) as Hb2
         by (by rewrite fieldDefaults_same, stripBuildFlags_same; fold c; rewrite Hb1).
       rewrite (resolve_thrown_buildFlags _ _ _ _ h1 dc c0 Hs1 Hb1).
       by rewrite (resolve_thrown_buildFlags _ _ _ _ h2 dc c0 Hs2 Hb2). }
  assert (stripBuildFlags parse unparse h2
            (fieldDefaults defaultDebugAdapterType resolvePath h2 c0)
          = Some (c1, filter P w1)) as Hb2
    by (by rewrite fieldDefaults_same, stripBuildFlags_same; fold c; rewrite Hb1).
  destruct (stripGoflags parse unparse h1 c1) as [[c2 w2]|] eqn:Hg1.
  2: { assert (stripGoflags parse unparse h2 c1 = None) as Hg2
         by (by rewrite stripGoflags_same, Hg1).
       rewrite (resolve_thrown_goflags _ _ _ _ h1 dc c0 c1 w1 Hs1 Hb1 Hg1).
       by rewrite (resolve_thrown_goflags _ _ _ _ h2 dc c0 c1 _ Hs2 Hb2 Hg2). }
  assert (stripGoflags parse unparse h2 c1 = Some (c2, filter P w2)) as Hg2
    by (by rewrite stripGoflags_same, Hg1).
  rewrite (resolve_prepared _ _ _ _ h1 dc c0 c1 c2 w1 w2 Hs1 Hb1 Hg1).
  rewrite (resolve_prepared _ _ _ _ h2 dc c0 c1 c2 _ _ Hs2 Hb2 Hg2).
  cbv zeta. destruct Hsame as (_ & _ & _ & Hdlv). rewrite <- Hdlv.
  destruct (negb (Path.isAbsolute (dlvBinPath h1))); cbn [fst snd].
  - split; [reflexivity|]. rewrite !filter_app. do 2 f_equal.
    rewrite filter_cons_True by apply Hprompt. reflexivity.
  - rewrite !concretizeMode_same. split; [reflexivity|].
    rewrite !filter_app, remoteWarnings_same. reflexivity.
Qed.

End TwoHosts.

Local Transparent Resolver.showWarning.

(** X7.  Once the user has answered a warning with [Don't Show Again] and
    the global state is there to keep the answer, no later resolution shows
    a warning under that key: what it shows is what it would have shown,
    less the warnings with that key, and what it returns is the same.
    Without a global state the answer is lost, and closing the message
    changes nothing either. *)
Theorem dismissed_warning_stays_away (h : Host) (key msg : string)
    (dc : option object) :
  let h' := answerWarning h (ShowWarningMessage key msg) NeverAgain in
  (resolveDebugConfiguration h' dc).1 = (resolveDebugConfiguration h dc).1
  ∧ (is_Some (globalState h) →
     (resolveDebugConfiguration h' dc).2
     = filter (λ e, keyOf e ≠ Some key) (resolveDebugConfiguration h dc).2)
  ∧ (globalState h = None → h' = h)
  ∧ answerWarning h (ShowWarningMessage key msg) Closed = h.
Proof.
  cbv zeta. set (h' := answerWarning h (ShowWarningMessage key msg) NeverAgain).
  assert (same_workspace h h') as Hsame by done.
  split; [|split; [|split]].
  - destruct (globalState h) as [st|] eqn:Hst.
    + apply (resolve_same h h' Hsame (λ e, keyOf e ≠ Some key)); [|done].
      intros k m. unfold showWarning. subst h'.
      cbn [answerWarning globalState]. rewrite Hst.
      cbn [updateGlobalState getFromGlobalState].
      destruct (decide (key = k)) as [-> | Hne].
      * rewrite get_insert_eq. cbn [truthy].
        destruct (truthy (get st k)); [done|].
        by rewrite filter_cons_False by (cbn [keyOf]; intros Hx; by apply Hx).
      * rewrite get_insert_ne by done.
        destruct (truthy (get st k)); [done|].
        by rewrite filter_cons_True by (cbn [keyOf]; congruence).
    + subst h'. destruct h. cbn in Hst. subst. done.
  - intros [st Hst].
    apply (resolve_same h h' Hsame (λ e, keyOf e ≠ Some key)); [|done].
    intros k m. unfold showWarning. subst h'.
    cbn [answerWarning globalState]. rewrite Hst.
    cbn [updateGlobalState getFromGlobalState].
    destruct (decide (key = k)) as [-> | Hne].
    + rewrite get_insert_eq. cbn [truthy].
      destruct (truthy (get st k)); [done|].
      by rewrite filter_cons_False by (cbn [keyOf]; intros Hx; by apply Hx).
    + rewrite get_insert_ne by done.
      destruct (truthy (get st k)); [done|].
      by rewrite filter_cons_True by (cbn [keyOf]; congruence).
  - intros Hst. subst h'. destruct h. cbn in Hst. subst. done.
  - done.
Qed.

End Suppression.

(** * The environments of [goEnv.ts] and the resolved [env] *)

Section EnvironmentLayers.

Import Resolver.

Variable resolvePath : value → value.

Local Abbreviation newEnvironment := (Resolver.newEnvironment resolvePath).
Local Abbreviation toolExecutionEnvironment := (Resolver.toolExecutionEnvironment resolvePath).
Local Abbreviation toolInstallationEnvironment :=
  (GoEnv.toolInstallationEnvironment resolvePath).

(** The four variables the [http.proxy] setting is copied to. *)
Local Abbreviation proxyVariables :=
  ["http_proxy"; "HTTP_PROXY"; "https_proxy"; "HTTPS_PROXY"].

(** [httpProxy && typeof httpProxy === 'string']. *)
Local Abbreviation proxied h :=
  (match httpProxy h with
   | VStr p => negb (String.eqb p "")
   | _ => false
   end).

(** A variable of [toolsEnvVars], as [newEnvironment] writes it. *)
Local Abbreviation toolsVariable h k :=
  (match toolsEnvVars h with
   | VObj _ | VArr _ => resolveIfString resolvePath <$> ownProps (toolsEnvVars h) !! k
   | _ => ownProps (toolsEnvVars h) !! k
   end).

Lemma newEnvironment_lookup (h : Host) (k : string) :
  newEnvironment h !! k =
    if proxied h && bool_decide (k ∈ proxyVariables)
    then Some (httpProxy h)
    else match toolsVariable h k with
         | Some v => Some v
         | None => processEnv h !! k
         end.
Proof.
  unfold Resolver.newEnvironment. cbv zeta.
  set (env0 := assign (assign ∅ (processEnv h)) (ownProps (toolsEnvVars h))).
  set (env1 := match toolsEnvVars h with
               | VObj _ | VArr _ =>
                   assign env0 (resolveIfString resolvePath <$> ownProps (toolsEnvVars h))
               | _ => env0
               end).
  assert (env1 !! k = match toolsVariable h k with
                      | Some v => Some v
                      | None => processEnv h !! k
                      end) as Henv1.
  { assert (env0 !! k = match ownProps (toolsEnvVars h) !! k with
                        | Some v => Some v
                        | None => processEnv h !! k
                        end) as Henv0.
    { subst env0. rewrite !lookup_assign, lookup_empty.
      by destruct (ownProps (toolsEnvVars h) !! k), (processEnv h !! k). }
    subst env1. destruct (toolsEnvVars h); try done.
    - rewrite lookup_assign, lookup_fmap, Henv0.
      by destruct (ownProps _ !! k).
    - rewrite lookup_assign, lookup_fmap, Henv0.
      by destruct (ownProps _ !! k). }
  destruct (httpProxy h) as [| | | |p| |] eqn:Hp; cbn [andb]; try exact Henv1.
  cbn [truthy]. destruct (negb (String.eqb p "")); cbn [andb]; [|exact Henv1].
  case_bool_decide as Hk.
  - assert (k = "http_proxy" ∨ k = "HTTP_PROXY" ∨ k = "https_proxy" ∨ k = "HTTPS_PROXY")
      as [-> | [-> | [-> | ->]]] by set_solver;
      repeat first [ rewrite lookup_insert_eq | rewrite lookup_insert_ne by done ]; done.
  - assert ("http_proxy" ≠ k ∧ "HTTP_PROXY" ≠ k ∧ "https_proxy" ≠ k ∧ "HTTPS_PROXY" ≠ k)
      as (?&?&?&?) by (repeat split; intros <-; apply Hk; set_solver).
    by rewrite !lookup_insert_ne.
Qed.

(** X8.  The environment tools are run in, variable by variable, in order
    of precedence: [GOPATH] is the current GOPATH when there is one; the
    four proxy variables are the [http.proxy] setting when it is a non-empty
    string; then come the variables of [toolsEnvVars] (strings passed through
    [resolvePath]); and the rest is the environment of the process. *)
Theorem tool_environment_precedence (h : Host) (k : string) :
  toolExecutionEnvironment h !! k =
    if truthy (VStr (currentGoPath h)) && bool_decide (k = "GOPATH")
    then Some (VStr (currentGoPath h))
    else if proxied h && bool_decide (k ∈ proxyVariables)
    then Some (httpProxy h)
    else match toolsVariable h k with
         | Some v => Some v
         | None => processEnv h !! k
         end.
Proof.
  unfold Resolver.toolExecutionEnvironment. cbv zeta.
  destruct (truthy (VStr (currentGoPath h))); cbn [andb];
    [|apply newEnvironment_lookup].
  case_bool_decide as Hk.
  - subst k. by rewrite lookup_insert_eq.
  - rewrite lookup_insert_ne by done. apply newEnvironment_lookup.
Qed.

(** X9.  The environment tools are installed in: there is none, and the
    user is told so, exactly when neither [go.toolsGopath] nor a current
    GOPATH is set; otherwise [GOPATH] is the tools GOPATH if set and the
    current GOPATH if not, [GOBIN] is emptied when the tools GOPATH is used,
    [GOOS], [GOARCH], [GOROOT], [GOFLAGS] and [GOENV] are never passed on,
    and every other variable is that of [newEnvironment]. *)
Theorem tool_installation_environment (h : Host) (toolsGopath gopath : string) :
  let r := toolInstallationEnvironment h toolsGopath gopath in
  let target := if truthy (VStr toolsGopath) then toolsGopath else gopath in
  (r.1 = None ↔ toolsGopath = "" ∧ gopath = "")
  ∧ (r.1 = None →
     r.2 = [GoEnv.ShowInformationMessage GoEnv.cannotInstallMessage
              ["Open User Settings"; "Open Workspace Settings"]])
  ∧ ∀ env, r.1 = Some env →
      r.2 = []
      ∧ env !! "GOPATH" = Some (VStr target)
      ∧ (toolsGopath ≠ "" → env !! "GOBIN" = Some (VStr ""))
      ∧ (∀ k, k ∈ ["GOOS"; "GOARCH"; "GOROOT"; "GOFLAGS"; "GOENV"] → env !! k = None)
      ∧ (∀ k, k ∉ ["GOPATH"; "GOBIN"; "GOOS"; "GOARCH"; "GOROOT"; "GOFLAGS"; "GOENV"] →
              env !! k = newEnvironment h !! k)
      ∧ (toolsGopath = "" → env !! "GOBIN" = newEnvironment h !! "GOBIN").
Proof.
  cbv zeta. unfold GoEnv.toolInstallationEnvironment. cbn [truthy].
  assert (∀ s, negb (String.eqb s "") = false ↔ s = "") as Hempty.
  { intros s. rewrite negb_false_iff. apply String.eqb_eq. }
  destruct (negb (String.eqb toolsGopath "")) eqn:Ht.
  - rewrite Ht. cbn [negb fst snd].
    assert (toolsGopath ≠ "") as Hne by (intros ?%Hempty; congruence).
    split; [split; [done | by intros [? _]]|]. split; [done|].
    intros env [= <-]. split; [done|].
    split; [by rewrite !lookup_delete_ne, lookup_insert_eq by done|].
    split.
    { intros _. rewrite !lookup_delete_ne, lookup_insert_ne by done.
      by rewrite lookup_insert_eq. }
    split.
    { intros k Hk.
      assert (k = "GOOS" ∨ k = "GOARCH" ∨ k = "GOROOT" ∨ k = "GOFLAGS" ∨ k = "GOENV")
        as [-> | [-> | [-> | [-> | ->]]]] by set_solver;
        repeat first [ apply lookup_delete_eq | rewrite lookup_delete_ne by done ]. }
    split; [|done].
    intros k Hk.
    assert ("GOPATH" ≠ k ∧ "GOBIN" ≠ k ∧ "GOOS" ≠ k ∧ "GOARCH" ≠ k ∧ "GOROOT" ≠ k
            ∧ "GOFLAGS" ≠ k ∧ "GOENV" ≠ k)
      as (?&?&?&?&?&?&?) by (repeat split; intros <-; apply Hk; set_solver).
    by rewrite !lookup_delete_ne, !lookup_insert_ne by done.
  - apply Hempty in Ht as ->.
    destruct (negb (String.eqb gopath "")) eqn:Hg; cbn [negb fst snd].
    + assert (gopath ≠ "") as Hne by (intros ?%Hempty; congruence).
      split; [split; [done | by intros [_ ?]]|]. split; [done|].
      intros env [= <-]. split; [done|].
      split; [by rewrite !lookup_delete_ne, lookup_insert_eq by done|].
      split; [done|].
      split.
      { intros k Hk.
        assert (k = "GOOS" ∨ k = "GOARCH" ∨ k = "GOROOT" ∨ k = "GOFLAGS" ∨ k = "GOENV")
          as [-> | [-> | [-> | [-> | ->]]]] by set_solver;
          repeat first [ apply lookup_delete_eq | rewrite lookup_delete_ne by done ]. }
      split.
      * intros k Hk.
        assert ("GOPATH" ≠ k ∧ "GOBIN" ≠ k ∧ "GOOS" ≠ k ∧ "GOARCH" ≠ k ∧ "GOROOT" ≠ k
                ∧ "GOFLAGS" ≠ k ∧ "GOENV" ≠ k)
          as (?&?&?&?&?&?&?) by (repeat split; intros <-; apply Hk; set_solver).
        by rewrite !lookup_delete_ne, !lookup_insert_ne by done.
      * intros _. by rewrite !lookup_delete_ne, !lookup_insert_ne by done.
    + apply Hempty in Hg as ->. split; [done|]. split; [done|]. by intros env.
Qed.

End EnvironmentLayers.

Section SubstitutedVariables.

Import Resolver.

Variable resolvePath : value → value.
Variable parseEnvFiles : value → object.

Local Abbreviation finalize :=
  (resolveDebugConfigurationWithSubstitutedVariables resolvePath parseEnvFiles).

(** X10.  The second resolution step writes [env] and [envFile] only, and
    resolving a resolved configuration again changes nothing, provided that
    reading no env file (an [undefined] [envFile]) yields no variables. *)
Theorem substituted_variables_idempotent (h : Host) (c : object) :
  parseEnvFiles VUndefined = ∅ →
  finalize h (finalize h c) = finalize h c
  ∧ ∀ k, k ≠ "env" → k ≠ "envFile" → finalize h c !! k = c !! k.
Proof.
  intros Hnone. split.
  - unfold resolveDebugConfigurationWithSubstitutedVariables at 1. cbv zeta.
    set (c1 := finalize h c).
    assert (get c1 "envFile" = VUndefined) as ->.
    { subst c1. unfold resolveDebugConfigurationWithSubstitutedVariables.
      by rewrite get_insert_eq. }
    set (amb := toolExecutionEnvironment resolvePath h).
    set (E := assign (assign amb (parseEnvFiles (get c "envFile")))
                (ownProps (if truthy (get c "env") then get c "env" else VObj ∅))).
    assert (c1 = <["envFile" := VUndefined]> (<["env" := VObj E]> c)) as Hc1 by done.
    assert (get c1 "env" = VObj E) as ->.
    { rewrite Hc1. rewrite get_insert_ne by done. by rewrite get_insert_eq. }
    cbn [truthy ownProps]. rewrite Hnone.
    assert (assign (assign amb ∅) E = E) as ->.
    { apply map_eq. intros k. rewrite !lookup_assign, lookup_empty.
      destruct (E !! k) eqn:HE; [done|]. subst E.
      rewrite !lookup_assign in HE.
      destruct (ownProps _ !! k); [done|].
      by destruct (parseEnvFiles _ !! k). }
    rewrite Hc1. apply map_eq. intros k.
    destruct (decide ("envFile" = k)) as [<- | ?]; [by rewrite !lookup_insert_eq|].
    destruct (decide ("env" = k)) as [<- | ?].
    + rewrite !(lookup_insert_ne _ "envFile") by done. by rewrite !lookup_insert_eq.
    + by rewrite !lookup_insert_ne by done.
  - intros k ? ?. unfold resolveDebugConfigurationWithSubstitutedVariables.
    by rewrite !lookup_insert_ne by done.
Qed.

End SubstitutedVariables.

(** * The linter: arguments and superseded runs *)

Section LintFacts.

Import Resolver Lint.

Variable resolvePath : value → value.
Variable toString : value → string.

Local Abbreviation addFlag := (Lint.addFlag resolvePath toString).
Local Abbreviation goLint := (Lint.goLint resolvePath toString).
Local Abbreviation runs := (Lint.runs resolvePath toString).
Local Abbreviation step := (Lint.step resolvePath toString).

(** *** Flags *)

Lemma prefix_app (p s : string) :
  String.prefix p s = true → ∃ rest, s = p +:+ rest.
Proof.
  revert s. induction p as [|a p IH]; intros s; [by exists s|].
  destruct s as [|b s]; [done|]. cbn [String.prefix].
  destruct (ascii_dec a b) as [-> | ?]; [|done].
  intros [rest ->]%IH. by exists rest.
Qed.

(** The two spellings of a [config] flag, taken apart. *)
Lemma config_flag (flag : string) :
  startsWith flag "--config=" || startsWith flag "-config=" = true →
  ∃ dashes rest,
    (dashes = "--config=" ∨ dashes = "-config=")
    ∧ flag = dashes +:+ rest
    ∧ substrTo (afterEquals flag) flag = dashes
    ∧ substrFrom (afterEquals flag) flag = rest.
Proof.
  assert (∀ s, String.substring 0 (String.length s) s = s) as Hall.
  { induction s as [|a s IH]; [done|]. cbn. by rewrite IH. }
  assert (∀ rest, String.index 0 "=" (String "=" rest) = Some 0) as Hhit.
  { intros rest. cbn [String.index String.prefix].
    destruct (ascii_dec "=" "="); [|done]. by destruct rest. }
  assert (∀ a rest, a ≠ "="%char →
            String.index 0 "=" (String a rest)
            = S <$> String.index 0 "=" rest) as Hskip.
  { intros a rest Ha. cbn [String.index String.prefix].
    destruct (ascii_dec "=" a); [congruence|]. by destruct (String.index 0 "=" rest). }
  assert (∀ rest, afterEquals ("--config=" +:+ rest) = 9) as H2.
  { intros rest. unfold afterEquals. cbv [String.append].
    by rewrite !Hskip, Hhit by done. }
  assert (∀ rest, afterEquals ("-config=" +:+ rest) = 8) as H1.
  { intros rest. unfold afterEquals. cbv [String.append].
    by rewrite !Hskip, Hhit by done. }
  unfold startsWith. intros [H | H]%orb_true_iff; apply prefix_app in H as [rest ->].
  - exists "--config=", rest. split; [by left|]. split; [done|].
    rewrite H2. unfold substrTo, substrFrom. cbv [String.append]. cbn.
    rewrite Nat.sub_0_r, Hall. split; [|done]. by destruct rest.
  - exists "-config=", rest. split; [by right|]. split; [done|].
    rewrite H1. unfold substrTo, substrFrom. cbv [String.append]. cbn.
    rewrite Nat.sub_0_r, Hall. split; [|done]. by destruct rest.
Qed.

(** What one flag of [lintFlags] contributes to the arguments. *)
Lemma addFlag_app (args : list string) (flag : string) :
  addFlag args flag = args ++ addFlag [] flag.
Proof.
  unfold Lint.addFlag. cbv zeta.
  repeat case_match; by rewrite ?app_nil_r.
Qed.

Lemma foldl_addFlag (args : list string) (flags : list string) :
  foldl addFlag args flags = args ++ (flags ≫= addFlag []).
Proof.
  revert args. induction flags as [|flag flags IH]; intros args; cbn [foldl mbind list_bind].
  - by rewrite app_nil_r.
  - by rewrite IH, (addFlag_app args), <- app_assoc.
Qed.

(** X11.  A flag [--config=PATH] or [-config=PATH] is passed to the linter
    with the path trimmed and then resolved, and is dropped when nothing is
    left of the path after trimming. *)
Theorem config_flag_is_resolved (args : list string) (dashes rest : string) :
  dashes = "--config=" ∨ dashes = "-config=" →
  addFlag args (dashes +:+ rest) =
    if String.eqb (trim rest) "" then args
    else args ++ [dashes +:+ toString (resolvePath (VStr (trim rest)))].
Proof.
  intros Hd. unfold Lint.addFlag. cbv zeta.
  assert (String.eqb (dashes +:+ rest) "--json" = false) as ->.
  { apply String.eqb_neq. by destruct Hd as [-> | ->]. }
  assert (startsWith (dashes +:+ rest) "--config="
          || startsWith (dashes +:+ rest) "-config=" = true) as Hc.
  { unfold startsWith. destruct Hd as [-> | ->]; cbv [String.append]; cbn;
      by destruct rest. }
  rewrite Hc. destruct (config_flag _ Hc) as (d & r & Hd' & Heq & -> & ->).
  assert (d = dashes ∧ r = rest) as [-> ->].
  { destruct Hd as [-> | ->], Hd' as [-> | ->]; cbv [String.append] in Heq;
      by simplify_eq. }
  cbn [truthy]. by destruct (String.eqb (trim rest) "").
Qed.

(** The flags that reach the arguments unchanged or not at all. *)
Lemma elem_of_addFlag_plain (x flag : string) :
  startsWith x "--config=" || startsWith x "-config=" = false →
  x ∈ addFlag [] flag ↔ x = flag ∧ x ≠ "--json".
Proof.
  intros Hx. unfold Lint.addFlag. cbv zeta.
  destruct (String.eqb flag "--json") eqn:Hj.
  { apply String.eqb_eq in Hj as ->. rewrite elem_of_nil. naive_solver. }
  apply String.eqb_neq in Hj.
  destruct (startsWith flag "--config=" || startsWith flag "-config=") eqn:Hc.
  - destruct (config_flag _ Hc) as (d & r & Hd & -> & -> & ->).
    assert (∀ y, startsWith (d +:+ y) "--config=" || startsWith (d +:+ y) "-config=" = true)
      as Hpre.
    { intros y. unfold startsWith. destruct Hd as [-> | ->]; cbv [String.append]; cbn;
        by destruct y. }
    destruct (negb _).
    + rewrite elem_of_nil. split; [done|]. intros [-> _]. congruence.
    + cbn [app]. rewrite list_elem_of_singleton. split.
      * intros ->. by rewrite Hpre in Hx.
      * intros [-> _]. congruence.
  - cbn [app]. rewrite list_elem_of_singleton. naive_solver.
Qed.

Lemma elem_of_flags_plain (x : string) (flags : list string) :
  startsWith x "--config=" || startsWith x "-config=" = false →
  x ∈ foldl addFlag [] flags ↔ x ∈ flags ∧ x ≠ "--json".
Proof.
  intros Hx. rewrite foldl_addFlag, app_nil_l, list_elem_of_bind. split.
  - intros (flag & Hin & Hflag). apply elem_of_addFlag_plain in Hin as [-> ?]; done.
  - intros [Hin Hj]. exists x. split; [|done]. by apply elem_of_addFlag_plain.
Qed.

Lemma pushMissing_elem (x y : string) (args : list string) :
  y ∈ pushMissing x args ↔ y ∈ args ∨ y = x.
Proof.
  unfold pushMissing. case_bool_decide.
  - naive_solver.
  - rewrite elem_of_app, list_elem_of_singleton. naive_solver.
Qed.

Lemma golangciArgs_elem (y : string) (args : list string) :
  y ∈ golangciArgs args →
  y ∈ args ∨ y ∈ ["run"; "--print-issued-lines=false"; "--out-format=colored-line-number";
                  "--issues-exit-code=0"].
Proof.
  unfold golangciArgs. cbv zeta. intros Hy.
  assert (y ∈ pushMissing "--out-format=colored-line-number"
                (pushMissing "--print-issued-lines=false"
                   (if bool_decide ("run" ∈ args) then args else "run" :: args))
          ∨ y = "--issues-exit-code=0") as [Hy' | ->].
  { case_bool_decide; [by left|]. apply elem_of_app in Hy as [? | ?%list_elem_of_singleton];
      auto. }
  - apply pushMissing_elem in Hy' as [Hy' | ->]; [|set_solver].
    apply pushMissing_elem in Hy' as [Hy' | ->]; [|set_solver].
    case_bool_decide; [by left|]. set_solver.
  - set_solver.
Qed.

(** *** A call of [goLint] that starts the linter *)

(** The arguments the tool of a call adds, and those of its scope. *)
Local Abbreviation inWorkspace c :=
  (is_str (scope c) "workspace" && truthy (VStr (currentWorkspace c))).
Local Abbreviation toolOf c :=
  (if truthy (lintTool c) then lintTool c else VStr "golint").
Local Abbreviation metaArgs c a :=
  (if is_str (toolOf c) "gometalinter" then gometalinterArgs a else a).
Local Abbreviation toolArgs c a :=
  (if is_str (toolOf c) "golangci-lint" then golangciArgs (metaArgs c a)
   else metaArgs c a).
Local Abbreviation scopeArgs c :=
  (if inWorkspace c then ["./..."]
   else if is_str (scope c) "file" then [fsPath c] else []).

Lemma goLint_started (h : Host) (c : call) (s s' : state) (out : list string)
    (r : toolRun) :
  goLint h c s = (s', out, RunTool r) →
  Path.isAbsolute (cwd r) = true
  ∧ cwd r = (if inWorkspace c then currentWorkspace c else Path.dirname (fsPath c))
  ∧ tool r = toolOf c
  ∧ args r = toolArgs c (foldl addFlag [] (lintFlags c)) ++ scopeArgs c
  ∧ token r = S (epoch s)
  ∧ closureEpoch r = S (epoch s)
  ∧ s' = setRunning true (renew s).
Proof.
  unfold Lint.goLint. cbv zeta.
  destruct (Path.isAbsolute _) eqn:Habs; cbn [negb]; [|done].
  destruct (is_str (toolOf c) "gometalinter");
    destruct (is_str (toolOf c) "golangci-lint");
    destruct (inWorkspace c); try destruct (is_str (scope c) "file");
    intros [= <- <- <-]; cbn [args cwd tool token closureEpoch];
    rewrite ?app_nil_r; done.
Qed.

Lemma goLint_not_started (h : Host) (c : call) (s s' : state) (out : list string) :
  goLint h c s = (s', out, ResolvedEmpty) →
  Path.isAbsolute (if inWorkspace c then currentWorkspace c else Path.dirname (fsPath c))
  = false
  ∧ out = [] ∧ s' = renew s.
Proof.
  unfold Lint.goLint. cbv zeta.
  destruct (Path.isAbsolute _) eqn:Habs; cbn [negb]; [|by intros [= <- <-]].
  by repeat case_match.
Qed.

(** X12.  The linter is never passed [--json], whatever the flags, the
    tool and the scope are. *)
Theorem json_flag_is_never_passed (h : Host) (c : call) (s s' : state)
    (out : list string) (r : toolRun) :
  goLint h c s = (s', out, RunTool r) → "--json" ∉ args r.
Proof.
  intros Hrun. destruct (goLint_started h c s s' out r Hrun) as (Habs & Hcwd & _ & -> & _).
  assert ("--json" ∉ foldl addFlag [] (lintFlags c)) as Hflags.
  { rewrite elem_of_flags_plain by (vm_compute; reflexivity). by intros [_ ?]. }
  intros [Hin | Hin]%elem_of_app.
  - assert ("--json" ∈ metaArgs c (foldl addFlag [] (lintFlags c)) → False) as Hmeta.
    { destruct (is_str (toolOf c) "gometalinter"); [|done].
      unfold gometalinterArgs. rewrite pushMissing_elem. by intros [? | ?]. }
    destruct (is_str (toolOf c) "golangci-lint"); [|done].
    apply golangciArgs_elem in Hin as [Hin | Hin]; [done|].
    set_solver.
  - rewrite Hcwd in Habs. destruct (inWorkspace c).
    + by apply list_elem_of_singleton in Hin.
    + destruct (is_str (scope c) "file"); [|by apply elem_of_nil in Hin].
      apply list_elem_of_singleton in Hin. rewrite <- Hin in Habs.
      vm_compute in Habs. done.
Qed.

Lemma pushMissing_keeps (x : string) (args : list string) :
  ∃ more, pushMissing x args = args ++ more.
Proof.
  unfold pushMissing. case_bool_decide; [exists []; by rewrite app_nil_r | by eexists].
Qed.

(** X13.  For [golangci-lint] the arguments always hold [run],
    [--print-issued-lines=false] and [--out-format=colored-line-number];
    [run] comes first unless it is among the flags of the user; and
    [--issues-exit-code=0] is appended unless the user passes the very flag
    [--issues-exit-code=], so also after a flag such as
    [--issues-exit-code=1]. *)
Theorem golangci_lint_arguments (h : Host) (c : call) (s s' : state)
    (out : list string) (r : toolRun) :
  goLint h c s = (s', out, RunTool r) →
  toolOf c = VStr "golangci-lint" →
  "run" ∈ args r
  ∧ "--print-issued-lines=false" ∈ args r
  ∧ "--out-format=colored-line-number" ∈ args r
  ∧ ("run" ∉ lintFlags c → head (args r) = Some "run")
  ∧ ("--issues-exit-code=" ∉ lintFlags c →
     ∃ before, args r = before ++ "--issues-exit-code=0" :: scopeArgs c).
Proof.
  intros Hrun Htool.
  destruct (goLint_started h c s s' out r Hrun) as (_ & _ & _ & -> & _).
  rewrite Htool.
  replace (is_str (VStr "golangci-lint") "gometalinter") with false
    by (vm_compute; reflexivity).
  replace (is_str (VStr "golangci-lint") "golangci-lint") with true
    by (vm_compute; reflexivity).
  set (a := foldl addFlag [] (lintFlags c)).
  set (a1 := if bool_decide ("run" ∈ a) then a else "run" :: a).
  set (a2 := pushMissing "--print-issued-lines=false" a1).
  set (a3 := pushMissing "--out-format=colored-line-number" a2).
  assert (golangciArgs a = if bool_decide ("--issues-exit-code=" ∈ a3) then a3
                           else a3 ++ ["--issues-exit-code=0"]) as -> by done.
  assert ("run" ∈ a1) as H1 by (subst a1; case_bool_decide; set_solver).
  assert ("run" ∈ a3 ∧ "--print-issued-lines=false" ∈ a3
          ∧ "--out-format=colored-line-number" ∈ a3) as (Hr & Hp & Ho).
  { subst a3 a2. rewrite !pushMissing_elem. auto. }
  assert (∀ x, x ∈ a3 → x ∈ (if bool_decide ("--issues-exit-code=" ∈ a3) then a3
                              else a3 ++ ["--issues-exit-code=0"])) as Hkeep.
  { intros x Hx. case_bool_decide; [done|]. apply elem_of_app. by left. }
  split; [apply elem_of_app; left; by apply Hkeep|].
  split; [apply elem_of_app; left; by apply Hkeep|].
  split; [apply elem_of_app; left; by apply Hkeep|].
  split.
  - intros Hno. assert ("run" ∉ a) as Hno'.
    { subst a. rewrite elem_of_flags_plain by (vm_compute; reflexivity). by intros [? _]. }
    assert (a1 = "run" :: a) as Ha1
      by (subst a1; by rewrite bool_decide_eq_false_2).
    destruct (pushMissing_keeps "--print-issued-lines=false" a1) as [m2 Hm2].
    destruct (pushMissing_keeps "--out-format=colored-line-number" a2) as [m3 Hm3].
    subst a3. rewrite Hm3. subst a2. rewrite Hm2, Ha1.
    rewrite <- !app_assoc.
    by match goal with
       | |- context [if bool_decide ?P then _ else _] => destruct (bool_decide P)
       end.
  - intros Hno. assert ("--issues-exit-code=" ∉ a3) as Hno'.
    { subst a3 a2. rewrite !pushMissing_elem.
      intros [[Hin | ?] | ?]; [|done..].
      subst a1. assert ("--issues-exit-code=" ∈ a) as Hin'.
      { case_bool_decide; [done|]. by apply elem_of_cons in Hin as [? | ?]. }
      subst a. apply elem_of_flags_plain in Hin' as [? _]; [done|].
      vm_compute. reflexivity. }
    rewrite bool_decide_eq_false_2 by done.
    exists a3. by rewrite <- app_assoc.
Qed.

(** *** Superseded runs *)

(** What the module variables and the runs in flight satisfy at all
    times. *)
Local Abbreviation consistent s inFlight :=
  (NoDup inFlight
   ∧ tokenSource s = (if decide (epoch s = 0) then None else Some (epoch s))
   ∧ ∀ t, t ∈ inFlight →
       1 ≤ t ≤ epoch s
       ∧ (t ∈ cancelled s ∨ (t = epoch s ∧ running s = true))).

Lemma renew_consistent (s : state) (inFlight : list nat) :
  consistent s inFlight →
  NoDup inFlight
  ∧ (∀ t, t ∈ inFlight → 1 ≤ t ≤ epoch s ∧ t ∈ cancelled (renew s)).
Proof.
  intros (Hnd & Hts & Hin). split; [done|]. intros t Ht.
  destruct (Hin t Ht) as [Hle [Hc | [-> Hr]]]; (split; [done|]).
  - unfold renew. cbn [cancelled]. destruct (tokenSource s); [|done].
    destruct (running s); [by right | done].
  - unfold renew. cbn [cancelled]. rewrite Hts, Hr.
    destruct (decide (epoch s = 0)); [lia | by left].
Qed.

Lemma step_consistent (st : state * list nat) (e : event) :
  consistent st.1 st.2 → consistent (step st e).1 (step st e).2.
Proof.
  destruct st as [s inFlight]. cbn [fst snd]. intros Hc.
  pose proof Hc as (Hnd & Hts & Hin).
  destruct e as [h c | e]; cbn [Lint.step].
  - destruct (renew_consistent s inFlight Hc) as [_ Hold].
    destruct (goLint h c s) as [[s' out] [|r]] eqn:Hrun; cbn [fst snd].
    + apply goLint_not_started in Hrun as (_ & _ & ->).
      split; [done|]. split; [done|].
      intros t Ht. destruct (Hold t Ht) as [? ?]. cbn [renew epoch]. split; [lia | by left].
    + apply goLint_started in Hrun as (_ & _ & _ & _ & -> & _ & ->).
      split.
      { apply NoDup_cons. split; [|done]. intros Ht. apply Hold in Ht. lia. }
      split; [done|].
      intros t [-> | Ht]%elem_of_cons.
      * cbn [setRunning renew epoch running]. split; [lia | by right].
      * destruct (Hold t Ht) as [? ?]. cbn [setRunning renew epoch cancelled] in *.
        split; [lia | by left].
  - case_bool_decide as He; cbn [fst snd]; [|done].
    split; [by apply NoDup_filter|].
    assert (∀ t, t ∈ filter (λ t, t ≠ e) inFlight → t ∈ inFlight ∧ t ≠ e) as Hf.
    { intros t Ht. apply list_elem_of_filter in Ht. tauto. }
    unfold finished. destruct (e =? epoch s)%nat eqn:Heq.
    + apply Nat.eqb_eq in Heq. cbn [setRunning epoch tokenSource cancelled running].
      split; [done|]. intros t [Ht Hne]%Hf.
      destruct (Hin t Ht) as [? [? | [-> _]]]; [by auto | congruence].
    + split; [done|]. intros t [Ht Hne]%Hf. by apply Hin.
Qed.

Lemma runs_consistent (events : list event) :
  consistent (runs events).1 (runs events).2.
Proof.
  induction events as [|e events IH] using rev_ind.
  - cbn. split; [constructor|]. split; [done|]. by intros t ?%elem_of_nil.
  - unfold Lint.runs. rewrite foldl_snoc. by apply step_consistent.
Qed.

(** X14.  A new lint supersedes the old one: at all times, whatever calls
    of [goLint] and ends of tool runs came before, every tool run still in
    flight has had its token cancelled, except the run started by the latest
    call; so at most one run that is not cancelled is in flight.  Every
    call, also one that returns at once, advances the epoch and cancels the
    token source in place when a run is flagged. *)
Theorem superseded_runs_are_cancelled (events : list event) :
  let s := (runs events).1 in
  let inFlight := (runs events).2 in
  (∀ t, t ∈ inFlight → t ∈ cancelled s ∨ (t = epoch s ∧ running s = true))
  ∧ length (filter (λ t, t ∉ cancelled s) inFlight) ≤ 1
  ∧ ∀ h c,
      let s' := (goLint h c s).1.1 in
      epoch s' = S (epoch s)
      ∧ ∀ t, running s = true → tokenSource s = Some t → t ∈ cancelled s'.
Proof.
  cbv zeta. destruct (runs_consistent events) as (Hnd & Hts & Hin).
  set (s := (runs events).1) in *. set (inFlight := (runs events).2) in *.
  split; [intros t Ht; by apply Hin|]. split.
  - assert (∀ t, t ∈ filter (λ t, t ∉ cancelled s) inFlight → t = epoch s) as Hone.
    { intros t [Hnc Ht]%list_elem_of_filter. by destruct (Hin t Ht) as [_ [? | [? _]]]. }
    pose proof (NoDup_filter (λ t, t ∉ cancelled s) _ Hnd) as Hnd'.
    destruct (filter (λ t, t ∉ cancelled s) inFlight) as [|t1 [|t2 l]]; cbn [length];
      [lia | lia |].
    exfalso. apply NoDup_cons in Hnd' as [Hnot _]. apply Hnot.
    rewrite (Hone t1), <- (Hone t2) by set_solver. by left.
  - intros h c.
    assert ((goLint h c s).1.1 = renew s ∨ (goLint h c s).1.1 = setRunning true (renew s))
      as Hs'.
    { destruct (goLint h c s) as [[s' out] [|r]] eqn:Hrun; cbn [fst].
      - left. by apply goLint_not_started in Hrun as (_ & _ & ->).
      - right. by apply goLint_started in Hrun as (_ & _ & _ & _ & _ & _ & ->). }
    destruct Hs' as [-> | ->]; cbn [setRunning renew epoch cancelled];
      (split; [done|]); intros t -> ->; by left.
Qed.

(** *** [lintCode] *)

(** X15.  Without an active editor [lintCode] never gets to [goLint]: it
    shows a message for every scope but [workspace], and for scope
    [workspace] it throws a [TypeError] on reading [editor.document].  With
    an editor it calls [goLint] exactly when the file is a Go file or the
    scope is [workspace]. *)
Theorem lintCode_needs_an_editor (scope : value) :
  lintCode None scope =
    (if is_str scope "workspace" then ThrowsTypeError
     else ShowInformationMessage noEditorMessage)
  ∧ ∀ ed, lintCode (Some ed) scope =
      if String.eqb (languageId ed) "go" || is_str scope "workspace"
      then CallsGoLint ed
      else ShowInformationMessage notGoMessage.
Proof.
  unfold lintCode. split.
  - rewrite bool_decide_eq_false_2 by (by intros [? ?]).
    by destruct (is_str scope "workspace").
  - intros ed. rewrite bool_decide_eq_true_2 by eauto.
    by destruct (String.eqb (languageId ed) "go"), (is_str scope "workspace").
Qed.

End LintFacts.

(** * More about the mutex *)

Section MutexProgress.

Import Mutex View Progress.

Lemma next_view_waits (i : input) (A : view) :
  wf A → waits_for_others A → waits_for_others (next_view i A).
Proof.
  intros Hwf Hw. pose proof (wf_done_le A Hwf) as Hle.
  destruct i as [fn| | |k o|k]; unfold next_view.
  1, 2: unfold submit, waits_for_others; cbn [v_phase v_done v_callers]; intros b Hb;
    unfold wf in Hwf; destruct (v_phase A) as [ph|] eqn:Hp; [|done];
    rewrite lookup_app_l by lia; apply (Hw b); congruence.
  - destruct (v_phase A) as [[| |[]|o []|o []]|] eqn:Hph; try exact Hw;
      try (by intros b; cbn [set_phase v_phase]).
    + destruct (v_callers A !! length (v_done A)) as [[[v|e|]|]|] eqn:Hc;
        try exact Hw; intros b; cbn [set_phase v_phase v_done v_callers];
        try done; intros _; rewrite Hc; auto.
    + intros b _. cbn [set_phase v_done v_callers]. by apply (Hw false).
    + intros b. unfold finish. cbn [v_phase]. by destruct (decide _).
  - destruct (v_phase A) as [[| |b| |]|] eqn:Hph; try exact Hw.
    destruct (v_callers A !! k) as [[[]|]|] eqn:Hc; try exact Hw.
    destruct (decide _) as [-> | ?]; [|exact Hw]. by intros b'.
  - destruct (v_phase A) as [[| |b| |]|] eqn:Hph; try exact Hw.
    destruct (v_callers A !! k) as [[|]|] eqn:Hc; try exact Hw.
    destruct (decide _) as [-> | ?]; [|exact Hw]. by intros b'.
Qed.

Lemma reachable_waits (inputs : list input) : waits_for_others (view_after inputs).
Proof.
  induction inputs as [|i inputs IH] using rev_ind; [done|].
  unfold view_after. rewrite foldl_snoc.
  apply next_view_waits; [apply reachable_rep | apply IH].
Qed.

Lemma submissions_app (l1 l2 : list input) :
  submissions (l1 ++ l2) = submissions l1 ++ submissions l2.
Proof. unfold submissions. apply omap_app. Qed.

Lemma submissions_jobs (m : nat) : submissions (replicate m RunJob) = [].
Proof. induction m as [|m IH]; [done|]. exact IH. Qed.

(** X16.  No starvation: when every submission is a [dispatch] of a body
    that returns a plain value or throws, then, once the microtask queue is
    drained, every body has run exactly once, in the order of submission,
    and every [dispatch] has settled with what its body returned or
    threw. *)
Theorem synchronous_bodies_all_complete (inputs : list input) :
  Forall (λ c, ∃ v, c = Dispatch (Returns v) ∨ c = Dispatch (Throws v))
         (submissions inputs) →
  let s := run inputs init in
  let n := length (callers s) in
  let s' := run (replicate (5 * n) RunJob) s in
  queue s' = []
  ∧ begun (trace s') = seq 0 n
  ∧ ended (trace s') = seq 0 n
  ∧ ∀ j fn, callers s !! j = Some (Dispatch fn) →
      ∃ o, heap s' !! PResult j = Some (Settled o) ∧ outcome_of (Dispatch fn) o.
Proof.
  intros Hsync. cbv zeta.
  destruct (reachable_rep inputs) as [Hwf HA].
  set (s := run inputs init) in *. set (n := length (callers s)).
  destruct (drain (5 * n) (view_after inputs) s Hwf HA) as (A0 & _ & HA0 & Hq0 & _).
  { subst n. rewrite (rep_callers _ _ HA). by apply fuel_bound. }
  set (all := inputs ++ replicate (5 * n) RunJob).
  destruct (reachable_rep all) as [Hwf' HA'].
  assert (run all init = run (replicate (5 * n) RunJob) s) as Hall by apply run_app.
  rewrite Hall in HA'. set (s' := run (replicate (5 * n) RunJob) s) in *.
  set (A := view_after all) in *.
  assert (queue_of A = []) as Hq.
  { by rewrite <- (rep_queue _ _ HA'), (rep_queue _ _ HA0). }
  assert (v_callers A = callers s) as Hcs.
  { subst A all. rewrite view_after_callers, submissions_app, submissions_jobs, app_nil_r.
    by rewrite (rep_callers _ _ HA), view_after_callers. }
  assert (callers s = submissions inputs) as Hsub
    by (by rewrite (rep_callers _ _ HA), view_after_callers).
  assert (v_phase A = None) as Hph.
  { destruct (quiet_phase A Hq) as [? | Hrun]; [done|]. exfalso.
    destruct (reachable_waits all true Hrun) as [Hc | Hc]; fold A in Hc;
      rewrite Hcs, Hsub in Hc;
      apply list_elem_of_lookup_2 in Hc;
      rewrite Forall_forall in Hsync; destruct (Hsync _ Hc) as [v [? | ?]]; done. }
  assert (length (v_done A) = n) as Hn.
  { unfold wf in Hwf'. rewrite Hph in Hwf'. subst n. by rewrite <- Hcs. }
  assert (trace s' = finished_trace (v_done A)) as Htr.
  { rewrite (rep_trace _ _ HA'). unfold trace_of. by rewrite Hph, app_nil_r. }
  split; [by rewrite (rep_queue _ _ HA')|].
  split; [|split].
  - rewrite Htr. unfold finished_trace.
    rewrite <- (app_nil_r (turns 0 _)), begun_turns, Hn. by rewrite app_nil_r.
  - rewrite Htr. unfold finished_trace.
    rewrite <- (app_nil_r (turns 0 _)), ended_turns, Hn. by rewrite app_nil_r.
  - intros j fn Hj. pose proof (lookup_lt_Some _ _ _ Hj) as Hlt.
    destruct (lookup_lt_is_Some_2 (v_done A) j) as [o Ho]; [fold n in Hlt; lia|].
    exists o. rewrite (rep_heap _ _ HA'). cbn [heap_at].
    rewrite (stage_finished _ _ _ Ho), Hcs, Hj. split; [done|].
    destruct (reachable_fitting all) as [Hdone _]. fold A in Hdone.
    apply (Hdone j); [done|]. by rewrite Hcs.
Qed.

(** X17.  An [unlock] that is called again does nothing: once the critical
    section of a submission is over, a call of its [unlock] leaves the state
    as it is, so it cannot end the critical section of a later holder. *)
Theorem stale_unlock_does_nothing (inputs : list input) (k : nat) (o : outcome) :
  let s := run inputs init in
  End k o ∈ trace s → step (CallUnlock k) s = s.
Proof.
  cbv zeta. destruct (reachable_rep inputs) as [Hwf HA].
  set (s := run inputs init) in *. set (A := view_after inputs) in *.
  rewrite (rep_trace _ _ HA). intros Hend. unfold step.
  rewrite (rep_held _ _ HA).
  destruct (v_callers A !! k) as [[fn|]|] eqn:Hc; cbn [held_at]; try done.
  apply elem_of_trace_of_end in Hend as [Hdone | (-> & b & [Hph | Hph])].
  - rewrite (stage_finished _ _ _ Hdone). cbn [unlock_of].
    rewrite (rep_heap _ _ HA). cbn [heap_at]. by rewrite (stage_finished _ _ _ Hdone).
  - exfalso. unfold wf in Hwf. rewrite Hph in Hwf. by destruct Hwf as [_ Hne].
  - rewrite stage_turn, Hph. cbn [from_option unlock_of].
    rewrite (rep_heap _ _ HA). cbn [heap_at]. by rewrite stage_turn, Hph.
Qed.

(** X18.  Failures never reach the chain of the mutex: the only promises
    that are ever rejected are the results of [dispatch] and the promises of
    the bodies; the promise of [this.mutex], the promises [lock] returns and
    the ones it hands to [begin] are pending or fulfilled at all times. *)
Theorem chain_is_never_rejected (inputs : list input) (p : pid) (e : val) :
  let s := run inputs init in
  heap s !! p = Some (Settled (Rejected e)) →
  ∃ j, (p = PResult j ∨ p = PBody j)
       ∧ End j (Rejected e) ∈ trace s.
Proof.
  cbv zeta. destruct (reachable_rep inputs) as [Hwf HA].
  set (s := run inputs init) in *. set (A := view_after inputs) in *.
  rewrite (rep_heap _ _ HA), (rep_trace _ _ HA).
  destruct p as [|j|j|j|j|j]; cbn [heap_at]; try done.
  - unfold chain_at. by repeat case_match.
  - unfold lock_at. by repeat case_match.
  - unfold inner_at. by repeat case_match.
  - intros Hres. exists j. split; [by left|]. apply elem_of_trace_of_end.
    destruct (v_callers A !! j) as [[fn|]|]; try done. cbn [result_at] in Hres.
    destruct (stage_of A j) as [| |ph|o'] eqn:Hst; try done.
    + destruct ph; try done. injection Hres as ->.
      apply stage_active in Hst as [-> Hph]. right. eauto.
    + injection Hres as ->. left. by apply stage_finished_lookup.
  - intros Hres. exists j. split; [by right|]. apply elem_of_trace_of_end.
    unfold body_at in Hres.
    destruct (v_callers A !! j) as [[[]|]|]; try done;
      destruct (stage_of A j) as [| |ph|o'] eqn:Hst; try done;
      try (destruct ph; try done; injection Hres as ->;
           apply stage_active in Hst as [-> Hph]; right; by eauto);
      injection Hres as ->; left; by apply stage_finished_lookup.
Qed.

(** The submission inside its critical section, read off the view. *)
Lemma running_trace_of (A : view) :
  running (trace_of A) =
    match v_phase A with
    | Some (Running _) => [length (v_done A)]
    | _ => []
    end.
Proof.
  unfold running, trace_of, finished_trace.
  rewrite begun_turns, ended_turns, filter_app.
  rewrite filter_none by (intros x Hx Hn; apply Hn; apply elem_of_app; by left).
  cbn [app Nat.add].
  assert (length (v_done A) ∉ seq 0 (length (v_done A))) as Hnot.
  { rewrite elem_of_seq. lia. }
  destruct (v_phase A) as [[| |b|o b|o b]|]; cbn [begun ended omap list_omap];
    rewrite ?app_nil_r; try done.
  - rewrite filter_cons_True by done. done.
  - rewrite filter_cons_False; [done|]. intros Hn. apply Hn. set_solver.
  - rewrite filter_cons_False; [done|]. intros Hn. apply Hn. set_solver.
Qed.

Lemma blocked_while_running (m : nat) (A : view) (s : state) :
  wf A → Rep A s → (∃ b, v_phase A = Some (Running b)) →
  trace (run (replicate m RunJob) s) = trace s.
Proof.
  revert A s. induction m as [|m IH]; intros A s Hwf HA [b Hb]; [done|].
  cbn [replicate]. change (run (RunJob :: replicate m RunJob) s)
    with (run (replicate m RunJob) (step RunJob s)).
  pose proof (step_sim RunJob A s Hwf HA) as HA'.
  pose proof (next_view_wf RunJob A Hwf) as Hwf'.
  assert (v_phase (next_view RunJob A) = Some (Running true)
          ∧ v_done (next_view RunJob A) = v_done A) as [Hph Hdone].
  { unfold next_view. rewrite Hb. by destruct b. }
  rewrite (IH _ _ Hwf' HA') by eauto.
  rewrite (rep_trace _ _ HA'), (rep_trace _ _ HA). unfold trace_of.
  by rewrite Hph, Hdone, Hb.
Qed.

(** X20.  The mutex has no timeout: while a critical section is open (a
    body has begun and not ended, or a direct caller holds the lock), running
    microtasks, however many, begins and ends nothing; the submissions that
    wait go on waiting until the body settles or [unlock] is called. *)
Theorem open_section_blocks_the_queue (inputs : list input) (m : nat) :
  let s := run inputs init in
  running (trace s) ≠ [] →
  trace (run (replicate m RunJob) s) = trace s.
Proof.
  cbv zeta. destruct (reachable_rep inputs) as [Hwf HA].
  rewrite (rep_trace _ _ HA) at 1. rewrite running_trace_of. intros Hrun.
  apply (blocked_while_running m _ _ Hwf HA).
  destruct (v_phase (view_after inputs)) as [[| |b|o b|o b]|]; try done. by exists b.
Qed.

End MutexProgress.

(** * Picking a configuration *)

Section PickFacts.

Import Resolver Pick.

Variable defaultDebugAdapterType : string.
Variable resolvePath : value → value.
Variable parse : value → option properties.
Variable unparse : properties → list string.

Local Abbreviation resolveDebugConfiguration :=
  (Resolver.resolveDebugConfiguration defaultDebugAdapterType resolvePath parse unparse).
Local Abbreviation pickConfiguration := (Pick.pickConfiguration defaultDebugAdapterType).

(** X19.  Whatever item is picked and whatever is entered, the
    configuration [pickConfiguration] returns resolves as it is when [dlv]
    is installed: it has a request, so no editor is needed; no warning is
    shown; and request and mode, which is never [auto], are returned
    unchanged.  A dismissed pick yields no configuration. *)
Theorem picked_configuration_resolves_silently (h : Host) (ch : choice) (a : answers) :
  Path.isAbsolute (dlvBinPath h) = true →
  pickConfiguration None a = []
  ∧ ∃ c c',
      pickConfiguration (Some ch) a = [c]
      ∧ resolveDebugConfiguration h (Some c) = (Returned (Some c'), [])
      ∧ c' !! "request" = c !! "request"
      ∧ get c' "mode" = get c "mode"
      ∧ get c "mode" ≠ VStr "auto".
Proof.
  intros Hdlv. split; [done|]. eexists _. cbn [Pick.pickConfiguration].
  assert (∀ c, truthy (get c "request") = true →
               truthy (get c "buildFlags") = false →
               truthy (get c "env") = false →
               is_str (get c "request") "launch" && is_str (get c "mode") "remote" = false →
               is_str (get c "request") "attach" && is_str (get c "mode") "remote"
                 && truthy (get c "program") = false →
               is_str (get c "mode") "auto" = false →
               ∃ c', [c] = [c]
                     ∧ resolveDebugConfiguration h (Some c) = (Returned (Some c'), [])
                     ∧ c' !! "request" = c !! "request"
                     ∧ get c' "mode" = get c "mode"
                     ∧ get c "mode" ≠ VStr "auto") as Hquiet.
  { intros c H1 H2 H3 H4 H5 H6.
    destruct (resolves_silently defaultDebugAdapterType resolvePath parse unparse
                h c H1 Hdlv H2 H3 H4 H5) as (c' & Hr & Hreq & Hmode).
    exists c'. rewrite H6 in Hmode. repeat split; try done.
    intros Hauto. apply is_str_eq in Hauto. congruence. }
  apply Hquiet;
    destruct ch; unfold fill, entered;
    repeat match goal with
      | |- context [match ?x a with _ => _ end] => destruct (x a) as [?|]
      | |- context [if truthy ?v then _ else _] => destruct (truthy v)
      end;
    vm_compute; reflexivity.
Qed.

End PickFacts.

(** * The tools that are offered *)

Section ToolsFacts.

Import Tools.

Variable inherited : string → bool.
Variable toString : value → string.

Local Abbreviation maybeAddTool := (Tools.maybeAddTool inherited).
Local Abbreviation getConfiguredTools := (Tools.getConfiguredTools inherited toString).

Lemma maybeAddTool_keeps (ls : bool) (tools : list entry) (name : string) :
  ∃ more, maybeAddTool ls tools name = tools ++ more.
Proof.
  unfold Tools.maybeAddTool.
  repeat case_match; eauto; exists []; by rewrite app_nil_r.
Qed.

(** With the language server, what is added is not replaced by it. *)
Lemma maybeAddTool_not_replaced (tools : list entry) (name : string) :
  (∀ tool, Known tool ∈ tools → notReplaced tool = true) →
  ∀ tool, Known tool ∈ maybeAddTool true tools name → notReplaced tool = true.
Proof.
  intros Hok tool. unfold Tools.maybeAddTool.
  destruct (lookup inherited name) as [[t|n]|]; [|by set_solver..].
  cbn [negb orb]. destruct (notReplaced t) eqn:Ht; [|by auto].
  intros [Hin | Hin]%elem_of_app; [by auto|].
  apply list_elem_of_singleton in Hin. by injection Hin as ->.
Qed.

Lemma foldl_not_replaced (names : list string) (tools : list entry) :
  (∀ tool, Known tool ∈ tools → notReplaced tool = true) →
  ∀ tool, Known tool ∈ foldl (maybeAddTool true) tools names → notReplaced tool = true.
Proof.
  revert tools. induction names as [|n names IH]; intros tools Hok; [done|].
  cbn [foldl]. apply IH. by apply maybeAddTool_not_replaced.
Qed.

(** X21.  With the language server in use (the setting is truthy and Go is
    newer than 1.11), [gopls] is among the tools offered and no tool that
    [gopls] replaces is. *)
Theorem language_server_replaces_tools (goVersion : GoVersion) (goConfig : settings) :
  truthy (useLanguageServer goConfig) = true →
  gt goVersion "1.11" = true →
  let tools := getConfiguredTools goVersion goConfig in
  (∃ gopls, allToolsInformation !! "gopls" = Some gopls
            ∧ name gopls = "gopls"
            ∧ Known gopls ∈ tools)
  ∧ ∀ tool, Known tool ∈ tools → replacedByGopls tool ≠ Some true.
Proof.
  intros Hls Hgt. cbv zeta. unfold Tools.getConfiguredTools. rewrite Hls, Hgt.
  cbn [andb]. cbv zeta.
  set (t1 := foldl (maybeAddTool true) [] defaultTools).
  set (t2 := if bool_decide (arch goConfig ∈ dlvArchitectures)
             then maybeAddTool true t1 "dlv" else t1).
  set (t3 := if gt goVersion "1.10" then maybeAddTool true t2 "gocode-gomod" else t2).
  set (t4 := if is_str (docsTool goConfig) "godoc" then maybeAddTool true t3 "godef"
             else maybeAddTool true t3 (toString (docsTool goConfig))).
  set (t5 := maybeAddTool true t4 (toString (formatTool goConfig))).
  set (t6 := maybeAddTool true t5 (toString (lintTool goConfig))).
  set (t7 := maybeAddTool true t6 "gopls").
  split.
  - destruct (allToolsInformation !! "gopls") as [gopls|] eqn:Hg;
      [|by vm_compute in Hg].
    assert (name gopls = "gopls" ∧ notReplaced gopls = true) as [Hname Hnot].
    { vm_compute in Hg. injection Hg as <-. by vm_compute. }
    exists gopls. split; [done|]. split; [done|].
    assert (Known gopls ∈ t7) as Hin.
    { subst t7. unfold Tools.maybeAddTool, lookup. rewrite Hg. cbn [negb orb].
      rewrite Hnot. apply elem_of_app. right. by apply list_elem_of_singleton. }
    destruct (goLiveErrorsEnabled goConfig); [|done].
    destruct (maybeAddTool_keeps true t7 "gotype-live") as [more ->].
    apply elem_of_app. by left.
  - assert (∀ tool, Known tool ∈ t1 → notReplaced tool = true) as H1.
    { apply foldl_not_replaced. by intros tool ?%elem_of_nil. }
    assert (∀ tool, Known tool ∈ t2 → notReplaced tool = true) as H2.
    { subst t2. case_bool_decide; [by apply maybeAddTool_not_replaced | done]. }
    assert (∀ tool, Known tool ∈ t3 → notReplaced tool = true) as H3.
    { subst t3. destruct (gt goVersion "1.10");
        [by apply maybeAddTool_not_replaced | done]. }
    assert (∀ tool, Known tool ∈ t4 → notReplaced tool = true) as H4.
    { subst t4. destruct (is_str _ _); by apply maybeAddTool_not_replaced. }
    assert (∀ tool, Known tool ∈ t7 → notReplaced tool = true) as H7.
    { subst t7 t6 t5. by do 3 apply maybeAddTool_not_replaced. }
    intros tool Hin.
    assert (notReplaced tool = true) as Hnot.
    { destruct (goLiveErrorsEnabled goConfig); [|by apply H7].
      by apply (maybeAddTool_not_replaced t7 "gotype-live"). }
    intros Hrep. unfold notReplaced in Hnot. by rewrite Hrep in Hnot.
Qed.

(** Every tool of the table is filed under its own name. *)
Lemma table_names (key : string) (tool : Tool) :
  allToolsInformation !! key = Some tool → name tool = key.
Proof.
  unfold allToolsInformation. intros Hk%elem_of_list_to_map_2.
  repeat (apply elem_of_cons in Hk as [[= -> ->] | Hk]; [reflexivity|]).
  by apply elem_of_nil in Hk.
Qed.

Lemma maybeAddTool_elem (ls : bool) (tools : list entry) (key : string) (tool : Tool) :
  Known tool ∈ maybeAddTool ls tools key →
  Known tool ∈ tools ∨ (allToolsInformation !! key = Some tool ∧ name tool = key).
Proof.
  unfold Tools.maybeAddTool, lookup.
  destruct (allToolsInformation !! key) as [t|] eqn:Hk.
  - destruct (negb ls || notReplaced t); [|by left].
    intros [Hin | Hin]%elem_of_app; [by left | right].
    apply list_elem_of_singleton in Hin. injection Hin as ->.
    split; [done | by apply table_names].
  - destruct (inherited key); [|by left].
    intros [Hin | Hin]%elem_of_app; [by left|].
    by apply list_elem_of_singleton in Hin.
Qed.

Lemma foldl_maybeAddTool_elem (ls : bool) (names : list string) (tools : list entry)
    (tool : Tool) :
  Known tool ∈ foldl (maybeAddTool ls) tools names →
  Known tool ∈ tools ∨ (allToolsInformation !! name tool = Some tool ∧ name tool ∈ names).
Proof.
  revert tools. induction names as [|n names IH]; intros tools; [by left|].
  cbn [foldl]. intros [Hin | [Hk Hin]]%IH.
  - apply maybeAddTool_elem in Hin as [? | [Hk <-]]; [by left | right].
    split; [done | by left].
  - right. split; [done | by right].
Qed.

(** X22.  No tool is offered that was not asked for: a tool of the result
    is in the table under its own name, and that name is one of the twelve
    default tools, [dlv] on one of the 64-bit architectures, [gocode-gomod]
    for Go newer than 1.10, [godef] for the docs tool [godoc], the configured
    docs, format or lint tool, [gopls] with the language server, or
    [gotype-live] with live errors enabled. *)
Theorem offered_tools_were_asked_for (goVersion : GoVersion) (goConfig : settings)
    (tool : Tool) :
  Known tool ∈ getConfiguredTools goVersion goConfig →
  allToolsInformation !! name tool = Some tool
  ∧ (name tool ∈ defaultTools
     ∨ (name tool = "dlv" ∧ arch goConfig ∈ dlvArchitectures)
     ∨ (name tool = "gocode-gomod" ∧ gt goVersion "1.10" = true)
     ∨ (name tool = "godef" ∧ docsTool goConfig = VStr "godoc")
     ∨ name tool = toString (docsTool goConfig)
     ∨ name tool = toString (formatTool goConfig)
     ∨ name tool = toString (lintTool goConfig)
     ∨ (name tool = "gopls"
        ∧ truthy (useLanguageServer goConfig) && gt goVersion "1.11" = true)
     ∨ (name tool = "gotype-live" ∧ goLiveErrorsEnabled goConfig = true)).
Proof.
  unfold Tools.getConfiguredTools. cbv zeta.
  set (ls := truthy (useLanguageServer goConfig) && gt goVersion "1.11").
  set (t1 := foldl (maybeAddTool ls) [] defaultTools).
  set (t2 := if bool_decide (arch goConfig ∈ dlvArchitectures)
             then maybeAddTool ls t1 "dlv" else t1).
  set (t3 := if gt goVersion "1.10" then maybeAddTool ls t2 "gocode-gomod" else t2).
  set (t4 := if is_str (docsTool goConfig) "godoc" then maybeAddTool ls t3 "godef"
             else maybeAddTool ls t3 (toString (docsTool goConfig))).
  set (t5 := maybeAddTool ls t4 (toString (formatTool goConfig))).
  set (t6 := maybeAddTool ls t5 (toString (lintTool goConfig))).
  set (t7 := if ls then maybeAddTool ls t6 "gopls" else t6).
  intros H8.
  assert (Known tool ∈ t7 ∨ (allToolsInformation !! name tool = Some tool
                             ∧ name tool = "gotype-live"
                             ∧ goLiveErrorsEnabled goConfig = true)) as [H7 | H].
  { destruct (goLiveErrorsEnabled goConfig); [|by left].
    apply maybeAddTool_elem in H8 as [? | [Hk Hn]]; [by left | right].
    by rewrite Hn. }
  2: { destruct H as (? & ? & ?). split; [done|]. do 8 right. done. }
  assert (Known tool ∈ t6 ∨ (allToolsInformation !! name tool = Some tool
                             ∧ name tool = "gopls" ∧ ls = true)) as [H6 | H].
  { subst t7. destruct ls; [|by left].
    apply maybeAddTool_elem in H7 as [? | [Hk Hn]]; [by left | right].
    by rewrite Hn. }
  2: { destruct H as (? & ? & ?). split; [done|]. do 7 right. left. done. }
  apply maybeAddTool_elem in H6 as [H5 | [Hk Hn]].
  2: { rewrite <- Hn in Hk. split; [done|]. do 6 right. left. done. }
  apply maybeAddTool_elem in H5 as [H4 | [Hk Hn]].
  2: { rewrite <- Hn in Hk. split; [done|]. do 5 right. left. done. }
  assert (Known tool ∈ t3
          ∨ (allToolsInformation !! name tool = Some tool
             ∧ ((name tool = "godef" ∧ docsTool goConfig = VStr "godoc")
                ∨ name tool = toString (docsTool goConfig)))) as [H3 | H].
  { subst t4. destruct (is_str (docsTool goConfig) "godoc") eqn:Hd.
    - apply is_str_eq in Hd.
      apply maybeAddTool_elem in H4 as [? | [Hk Hn]]; [by left | right].
      rewrite <- Hn in Hk. auto.
    - apply maybeAddTool_elem in H4 as [? | [Hk Hn]]; [by left | right].
      rewrite <- Hn in Hk. auto. }
  2: { destruct H as (? & [? | ?]); (split; [done|]).
       - do 3 right. left. done.
       - do 4 right. left. done. }
  assert (Known tool ∈ t2 ∨ (allToolsInformation !! name tool = Some tool
                             ∧ name tool = "gocode-gomod"
                             ∧ gt goVersion "1.10" = true)) as [H2 | H].
  { subst t3. destruct (gt goVersion "1.10"); [|by left].
    apply maybeAddTool_elem in H3 as [? | [Hk Hn]]; [by left | right].
    by rewrite Hn. }
  2: { destruct H as (? & ? & ?). split; [done|]. do 2 right. left. done. }
  assert (Known tool ∈ t1 ∨ (allToolsInformation !! name tool = Some tool
                             ∧ name tool = "dlv"
                             ∧ arch goConfig ∈ dlvArchitectures)) as [H1 | H].
  { subst t2. case_bool_decide; [|by left].
    apply maybeAddTool_elem in H2 as [? | [Hk Hn]]; [by left | right].
    by rewrite Hn. }
  2: { destruct H as (? & ? & ?). split; [done|]. right. left. done. }
  apply foldl_maybeAddTool_elem in H1 as [H0 | [Hk Hn]]; [by apply elem_of_nil in H0|].
  split; [done | by left].
Qed.

End ToolsFacts.

(** * The package of a directory *)

Section ModulesFacts.

Import Lint Modules.

Variable inherited : string → bool.

Local Abbreviation getCurrentPackage := (Modules.getCurrentPackage inherited).

(** *** Strings *)

Lemma append_String (c : ascii) (s t : string) : String c s +:+ t = String c (s +:+ t).
Proof. done. Qed.

Lemma append_append (p s t : string) : p +:+ (s +:+ t) = (p +:+ s) +:+ t.
Proof. induction p as [|a p IH]; [done|]. rewrite !append_String. by rewrite IH. Qed.

Lemma startsWith_append (p s : string) : startsWith (p +:+ s) p = true.
Proof.
  unfold startsWith. induction p as [|a p IH]; [by destruct s|].
  rewrite append_String. cbn [String.prefix]. by destruct (ascii_dec a a).
Qed.

Lemma substring_all (s : string) : String.substring 0 (String.length s) s = s.
Proof. induction s as [|a s IH]; [done|]. cbn. by rewrite IH. Qed.

Lemma substrFrom_append (p s : string) : substrFrom (String.length p) (p +:+ s) = s.
Proof.
  unfold substrFrom. induction p as [|a p IH].
  - cbn [String.length]. change ("" +:+ s) with s. rewrite Nat.sub_0_r.
    apply substring_all.
  - rewrite append_String. cbn [String.length String.substring Nat.sub]. apply IH.
Qed.

Lemma substrTo_append (p s : string) : substrTo (String.length p) (p +:+ s) = p.
Proof.
  unfold substrTo. induction p as [|a p IH]; [by destruct s|].
  rewrite append_String. cbn [String.length String.substring]. by rewrite IH.
Qed.

Lemma length_append (p s : string) :
  String.length (p +:+ s) = String.length p + String.length s.
Proof. induction p as [|a p IH]; [done|]. rewrite append_String. cbn. by rewrite IH. Qed.

(** A path in which no version starts is followed by a version. *)
Lemma versionIndex_append (p : string) (d : ascii) (rest : string) :
  versionIndex p = None →
  isDigit d = true →
  versionIndex (p +:+ String "@" (String "v" (String d rest))) = Some (String.length p).
Proof.
  intros Hp Hd. induction p as [|a p IH].
  - change ("" +:+ ?s) with s. cbn [versionIndex versionHere]. by rewrite Hd.
  - rewrite append_String. cbn [versionIndex] in *.
    destruct (versionHere (String a p)) eqn:Hhere; [done|].
    destruct (versionIndex p) eqn:Hp'; [done|].
    rewrite IH by done. cbn [String.length fmap option_fmap option_map].
    assert (versionHere (String a (p +:+ String "@" (String "v" (String d rest))))
            = false) as ->; [|done].
    destruct p as [|b [|c p]]; cbn [versionHere] in *.
    + change ("" +:+ ?s) with s. cbn. by repeat case_match.
    + rewrite append_String. change ("" +:+ ?s) with s. cbn.
      repeat case_match; try done.
    + rewrite !append_String. done.
Qed.

(** No version starts in the part before the leftmost version. *)
Lemma versionIndex_cut (s : string) (i : nat) :
  versionIndex s = Some i → versionIndex (substrTo i s) = None.
Proof.
  revert i. unfold substrTo. induction s as [|a s IH]; intros i; [done|].
  cbn [versionIndex]. destruct (versionHere (String a s)) eqn:Hhere.
  - by intros [= <-].
  - destruct (versionIndex s) as [j|] eqn:Hs; [|done]. intros [= <-].
    cbn [String.substring versionIndex]. rewrite (IH j) by done.
    assert (versionHere (String a (String.substring 0 j s)) = false) as ->; [|done].
    destruct (versionHere (String a (String.substring 0 j s))) eqn:Hcut; [|done].
    rewrite <- Hhere. cbn [versionHere] in *.
    destruct a as [[] [] [] [] [] [] [] []]; try done.
    destruct s as [|b s]; [by destruct j|]. destruct j as [|j]; [done|].
    cbn [String.substring] in Hcut.
    destruct b as [[] [] [] [] [] [] [] []]; try done.
    destruct s as [|c s]; [by destruct j|]. destruct j as [|j]; [done|].
    cbn [String.substring] in Hcut. done.
Qed.

(** *** Lines *)

Local Abbreviation newline := ("010"%char).

Lemma splitLines_single (l : string) :
  newline ∉ String.list_ascii_of_string l → splitLines l = [l].
Proof.
  induction l as [|c l IH]; [done|]. cbn [String.list_ascii_of_string splitLines].
  intros Hc. destruct (Ascii.eqb_spec c newline) as [->|_]; [set_solver|].
  rewrite IH; [done|set_solver].
Qed.

Lemma splitLines_line (l r : string) :
  newline ∉ String.list_ascii_of_string l →
  splitLines (l +:+ String newline r) = l :: splitLines r.
Proof.
  induction l as [|c l IH]; [done|]. rewrite append_String.
  cbn [String.list_ascii_of_string splitLines].
  intros Hc. destruct (Ascii.eqb_spec c newline) as [->|_]; [set_solver|].
  rewrite IH; [done|set_solver].
Qed.

(** Splitting undoes joining. *)
Lemma splitLines_concat (lines : list string) :
  lines ≠ [] →
  Forall (λ l, newline ∉ String.list_ascii_of_string l) lines →
  splitLines (String.concat (String newline "") lines) = lines.
Proof.
  intros Hne Hall. induction Hall as [|x [|y r] Hx Hr IH]; [done| |].
  - by apply splitLines_single.
  - cbn [String.concat] in *. change (String newline "" ++ ?s)%string with (String newline s).
    rewrite splitLines_line by done. by rewrite IH.
Qed.

Lemma filter_ignored (lines : list string) :
  Forall (λ l, l = "" ∨ noSpace l = false) lines →
  filter (λ line, truthy (VStr line) && noSpace line = true) lines = [].
Proof.
  induction 1 as [|l lines Hl _ IH]; [done|].
  rewrite filter_cons_False; [done|].
  destruct Hl as [->| ->]; [done|]. by rewrite andb_false_r.
Qed.

(** *** [getCurrentPackage] *)

(** X23 (getCurrentPackage, the module cache): for a directory that is not
    remembered yet and lies in the module cache, the package is what follows
    the module cache and one more character, up to its first version
    ([@v] and a digit): it is remembered, and [go list] is not run. *)
Theorem module_cache_directory_package (m : gmap string string) (w : world)
    (cwd : string) (sep d : ascii) (p rest : string) :
  m !! cwd = None →
  inherited cwd = false →
  cwd = moduleCache w +:+ String sep (p +:+ String "@" (String "v" (String d rest))) →
  versionIndex p = None →
  isDigit d = true →
  getCurrentPackage m w cwd = (<[cwd := p]> m, Package p, []).
Proof.
  intros Hm Hin Hcwd Hp Hd. unfold Modules.getCurrentPackage. rewrite Hm, Hin.
  assert (startsWith cwd (moduleCache w) = true) as ->
    by (rewrite Hcwd; apply startsWith_append).
  assert (importPathInCache (moduleCache w) cwd = p) as ->; [|done].
  unfold importPathInCache.
  assert (substrFrom (String.length (moduleCache w) + 1) cwd
          = p +:+ String "@" (String "v" (String d rest))) as ->.
  { rewrite Hcwd.
    change (moduleCache w +:+ String sep ?s)
      with (moduleCache w +:+ (String sep "" +:+ s)).
    rewrite append_append.
    replace (String.length (moduleCache w) + 1)
      with (String.length (moduleCache w +:+ String sep "")).
    - apply substrFrom_append.
    - rewrite length_append. done. }
  rewrite versionIndex_append by done. apply substrTo_append.
Qed.

(** X24 (getCurrentPackage, folderToPackageMapping): once a call has
    resolved with a package that is not the empty string, every later call
    for the same directory resolves with that package from the mapping,
    whatever the module cache, the [go] binary or [go list] have become,
    and does nothing else. *)
Theorem package_is_remembered (m m' : gmap string string) (w w' : world)
    (cwd p : string) (effects : list effect) :
  getCurrentPackage m w cwd = (m', Package p, effects) →
  p ≠ "" →
  getCurrentPackage m' w' cwd = (m', Package p, []).
Proof.
  intros Hcall Hp.
  assert (truthy (VStr p) = true) as Htrue.
  { cbn. by destruct (String.eqb_spec p ""). }
  assert (m' !! cwd = Some p) as Hm'.
  { unfold Modules.getCurrentPackage in Hcall.
    repeat case_match; simplify_eq; try done; by rewrite ?lookup_insert_eq. }
  unfold Modules.getCurrentPackage. by rewrite Hm', Htrue.
Qed.

(** X25 (getCurrentPackage, the output of go list): outside the module
    cache, with a [go] binary and nothing remembered, [go list] is run in
    the directory; if among the lines of its output exactly one is neither
    empty nor has a space, that line is the package and is remembered. *)
Theorem package_line_among_logs (m : gmap string string) (w : world)
    (cwd pkg : string) (before after : list string) :
  m !! cwd = None →
  inherited cwd = false →
  startsWith cwd (moduleCache w) = false →
  goRuntimePath w ≠ "" →
  stdout w = String.concat (String newline "") (before ++ pkg :: after) →
  Forall (λ l, newline ∉ String.list_ascii_of_string l) (before ++ pkg :: after) →
  Forall (λ l, l = "" ∨ noSpace l = false) (before ++ after) →
  pkg ≠ "" →
  noSpace pkg = true →
  getCurrentPackage m w cwd
  = (<[cwd := pkg]> m, Package pkg, [Spawn (goRuntimePath w) ["list"] cwd (toolEnv w)]).
Proof.
  intros Hm Hin Hcache Hgo Hout Hlines Hlogs Hpkg Hspace.
  unfold Modules.getCurrentPackage. rewrite Hm, Hin, Hcache.
  assert (truthy (VStr (goRuntimePath w)) = true) as ->.
  { cbn. by destruct (String.eqb_spec (goRuntimePath w) ""). }
  cbn [negb]. unfold packageLines. rewrite Hout.
  rewrite splitLines_concat by (done || by destruct before).
  apply Forall_app in Hlogs as [Hbefore Hafter].
  rewrite filter_app, filter_cons_True.
  - by rewrite !filter_ignored.
  - rewrite Hspace, andb_true_r. cbn. by destruct (String.eqb_spec pkg "").
Qed.

End ModulesFacts.

(** * The further properties on concrete inputs *)

Module MoreRuns.

Import Resolver Examples MoreExamples.

Local Abbreviation resolve :=
  (resolveDebugConfiguration "go" (λ v, v) Flags.parse Flags.unparse).

(** Skeleton defaulting leaves [attachRemote] and [gcflagsInGoflags] as
    they are. *)
Lemma attachRemote_given (h : Host) : skeleton "go" h (Some attachRemote) = Some attachRemote.
Proof. apply skeleton_given. vm_compute. reflexivity. Qed.

Lemma gcflagsInGoflags_given (h : Host) :
  skeleton "go" h (Some gcflagsInGoflags) = Some gcflagsInGoflags.
Proof. apply skeleton_given. vm_compute. reflexivity. Qed.

(** The call for [attachRemote] returns a configuration and shows the
    warning about [program]. *)
Lemma attachRemote_resolved :
  resolve hostDelve (Some attachRemote)
  = (Returned (Some (returned (resolve hostDelve (Some attachRemote)))),
     (resolve hostDelve (Some attachRemote)).2).
Proof. vm_compute. reflexivity. Qed.

Lemma gcflagsInGoflags_resolved :
  resolve host (Some gcflagsInGoflags)
  = (Returned (Some (returned (resolve host (Some gcflagsInGoflags)))),
     (resolve host (Some gcflagsInGoflags)).2).
Proof. vm_compute. reflexivity. Qed.

Lemma other_fields_example :
  ∃ c' w,
    resolve hostDelve (Some attachRemote) = (Returned (Some c'), w)
    ∧ ∀ k, k ∉ ["type"; "packagePathToGoModPathMap"; "apiVersion"; "dlvLoadConfig";
                "showGlobalVariables"; "cwd"; "buildFlags"; "env"; "dlvToolPath";
                "mode"] →
           c' !! k = attachRemote !! k.
Proof.
  eexists _, _. split; [exact attachRemote_resolved|].
  apply (other_fields_are_kept "go" (λ v, v) Flags.parse Flags.unparse
           hostDelve (Some attachRemote) attachRemote _ _
           (attachRemote_given hostDelve) attachRemote_resolved).
Defined.

Lemma delve_settings_example :
  ∃ c' w,
    resolve hostDelve (Some attachRemote) = (Returned (Some c'), w)
    ∧ get c' "apiVersion" = VNum 1
    ∧ get c' "dlvLoadConfig" = VObj {[ "maxStringLen" := VNum 64 ]}
    ∧ get c' "showGlobalVariables" = VUndefined.
Proof.
  eexists _, _. split; [exact attachRemote_resolved|].
  apply (delve_settings_precedence "go" (λ v, v) Flags.parse Flags.unparse
           hostDelve (Some attachRemote) attachRemote _ _
           (attachRemote_given hostDelve) attachRemote_resolved).
Defined.

Lemma filled_in_fields_example :
  ∃ c' w,
    resolve hostDelve (Some attachRemote) = (Returned (Some c'), w)
    ∧ get c' "type" = VStr "go"
    ∧ get c' "packagePathToGoModPathMap" = VObj {[ "/ws" := VStr "/ws" ]}
    ∧ get c' "dlvToolPath" = VStr "/go/bin/dlv"
    ∧ Path.isAbsolute "/go/bin/dlv" = true
    ∧ get c' "cwd" = VStr "${workspaceFolder}".
Proof.
  eexists _, _. split; [exact attachRemote_resolved|].
  apply (filled_in_fields "go" (λ v, v) Flags.parse Flags.unparse
           hostDelve (Some attachRemote) attachRemote _ _
           (attachRemote_given hostDelve) attachRemote_resolved).
Defined.

Lemma remote_mode_warnings_example :
  ∃ c' w,
    resolve hostDelve (Some attachRemote) = (Returned (Some c'), w)
    ∧ warningsWithKey "ignoreDebugLaunchRemoteWarning" w = []
    ∧ warningsWithKey "ignoreUsingRemotePathAndProgramWarning" w = [remoteProgramMessage]
    ∧ (get attachRemote "mode" = VStr "remote" → get c' "mode" = VStr "remote")
    ∧ c' !! "request" = attachRemote !! "request"
    ∧ c' !! "program" = attachRemote !! "program".
Proof.
  eexists _, _. split; [exact attachRemote_resolved|].
  apply (remote_mode_warnings "go" (λ v, v) Flags.parse Flags.unparse
           hostDelve (Some attachRemote) attachRemote _ _
           (attachRemote_given hostDelve) attachRemote_resolved).
Defined.

Lemma gcflags_in_GOFLAGS_example :
  ∃ c' w,
    resolve host (Some gcflagsInGoflags) = (Returned (Some c'), w)
    ∧ ∃ argv,
        Flags.parse (VStr "--gcflags=all=-l") = Some argv
        ∧ prop (get c' "env") "GOFLAGS"
          = VStr (String.concat " " (Flags.unparse (deleteProperty "gcflags" argv)))
        ∧ ∀ k, k ≠ "GOFLAGS" →
               prop (get c' "env") k = prop (get gcflagsInGoflags "env") k.
Proof.
  eexists _, _. split; [exact gcflagsInGoflags_resolved|].
  pose proof (gcflags_stripped_from_GOFLAGS "go" (λ v, v) Flags.parse Flags.unparse
                host (Some gcflagsInGoflags) gcflagsInGoflags _ _
                (gcflagsInGoflags_given host) gcflagsInGoflags_resolved) as H.
  cbv zeta in H.
  change (truthy (get gcflagsInGoflags "env")
          && truthy (prop (get gcflagsInGoflags "env") "GOFLAGS")) with true in H.
  cbv iota in H. destruct H as (argv & Hp & H). exists argv. split; [exact Hp|].
  assert (truthy (property argv "gcflags") = true) as Hg.
  { change (prop (get gcflagsInGoflags "env") "GOFLAGS")
      with (VStr "--gcflags=all=-l") in Hp.
    vm_compute in Hp. injection Hp as <-. reflexivity. }
  rewrite Hg in H. exact H.
Defined.


Lemma partial_configuration_example :
  ∃ c0,
    skeleton "go" host (Some partial) = Some c0
    ∧ get c0 "name" = VStr "Launch"
    ∧ get c0 "type" = VStr "go"
    ∧ get c0 "request" = VStr "launch"
    ∧ get c0 "mode" = VStr "auto"
    ∧ get c0 "program" = VStr (Path.dirname "/ws/main.go")
    ∧ ∀ k, k ∉ ["name"; "type"; "request"; "mode"; "program"] → c0 !! k = partial !! k.
Proof.
  apply (skeleton_overrides_partial_configuration "go" host partial
           {| languageId := "go"; fileName := "/ws/main.go" |});
    [vm_compute; reflexivity | reflexivity | reflexivity].
Defined.

Lemma dismissed_warning_example :
  (resolve (Warning.answerWarning host
              (ShowWarningMessage "ignoreDebugGCFlagsWarning" gcflagsBuildFlagsMessage)
              Warning.NeverAgain)
     (Some gcflagsInBoth)).2
  = filter (λ e, Warning.keyOf e ≠ Some "ignoreDebugGCFlagsWarning")
      (resolve host (Some gcflagsInBoth)).2.
Proof.
  apply (dismissed_warning_stays_away "go" (λ v, v) Flags.parse Flags.unparse host
           "ignoreDebugGCFlagsWarning" gcflagsBuildFlagsMessage (Some gcflagsInBoth)).
  by eexists.
Defined.

Lemma resolved_twice_example :
  let finalize :=
    resolveDebugConfigurationWithSubstitutedVariables (λ v, v)
      (parseEnvFiles envFileContents) host in
  finalize (finalize withEnvFile) = finalize withEnvFile
  ∧ ∀ k, k ≠ "env" → k ≠ "envFile" → finalize withEnvFile !! k = withEnvFile !! k.
Proof.
  apply (substituted_variables_idempotent (λ v, v) (parseEnvFiles envFileContents)
           host withEnvFile).
  reflexivity.
Defined.

Lemma config_flag_example :
  Lint.addFlag (λ v, v) text [] ("--config=" +:+ " ~/lint.yml ") =
    if String.eqb (Lint.trim " ~/lint.yml ") "" then []
    else [] ++ ["--config=" +:+ text (VStr (Lint.trim " ~/lint.yml "))].
Proof.
  apply (config_flag_is_resolved (λ v, v) text [] "--config=" " ~/lint.yml ").
  by left.
Defined.

(** The call [lintPackage] starts the linter. *)
Lemma lintPackage_started :
  Lint.goLint (λ v, v) text host lintPackage Lint.init
  = ((Lint.goLint (λ v, v) text host lintPackage Lint.init).1.1,
     (Lint.goLint (λ v, v) text host lintPackage Lint.init).1.2,
     Lint.RunTool (started (Lint.goLint (λ v, v) text host lintPackage Lint.init).2)).
Proof. vm_compute. reflexivity. Qed.

Example lintPackage_arguments :
  Lint.args (started (Lint.goLint (λ v, v) text host lintPackage Lint.init).2)
  = ["run"; "--config=~/lint.yml"; "--issues-exit-code=1"; "--print-issued-lines=false";
     "--out-format=colored-line-number"; "--issues-exit-code=0"].
Proof. vm_compute. reflexivity. Qed.

Lemma json_flag_example :
  "--json" ∉ Lint.args (started (Lint.goLint (λ v, v) text host lintPackage Lint.init).2).
Proof.
  apply (json_flag_is_never_passed (λ v, v) text host lintPackage Lint.init _ _ _
           lintPackage_started).
Defined.

Lemma golangci_lint_example :
  let r := started (Lint.goLint (λ v, v) text host lintPackage Lint.init).2 in
  "run" ∈ Lint.args r
  ∧ "--print-issued-lines=false" ∈ Lint.args r
  ∧ "--out-format=colored-line-number" ∈ Lint.args r
  ∧ ("run" ∉ Lint.lintFlags lintPackage → head (Lint.args r) = Some "run")
  ∧ ("--issues-exit-code=" ∉ Lint.lintFlags lintPackage →
     ∃ before,
       Lint.args r =
         before ++ "--issues-exit-code=0"
           :: (if is_str (Lint.scope lintPackage) "workspace"
                  && truthy (VStr (Lint.currentWorkspace lintPackage))
               then ["./..."]
               else if is_str (Lint.scope lintPackage) "file"
                    then [Lint.fsPath lintPackage] else [])).
Proof.
  apply (golangci_lint_arguments (λ v, v) text host lintPackage Lint.init _ _ _
           lintPackage_started).
  reflexivity.
Defined.

Lemma picked_configuration_example :
  Pick.pickConfiguration "go" None
    {| Pick.testFunc := Some "TestFoo"; Pick.host := None; Pick.port := None |} = []
  ∧ ∃ c c',
      Pick.pickConfiguration "go" (Some Pick.LaunchTestFunction)
        {| Pick.testFunc := Some "TestFoo"; Pick.host := None; Pick.port := None |} = [c]
      ∧ resolve hostNoEditor (Some c) = (Returned (Some c'), [])
      ∧ c' !! "request" = c !! "request"
      ∧ get c' "mode" = get c "mode"
      ∧ get c "mode" ≠ VStr "auto".
Proof.
  apply (picked_configuration_resolves_silently "go" (λ v, v) Flags.parse Flags.unparse
           hostNoEditor Pick.LaunchTestFunction).
  reflexivity.
Defined.

End MoreRuns.

Module MoreMutexRuns.

Import Mutex Histories MoreHistories.

Lemma synchronous_bodies_example :
  let s := run failing init in
  let n := length (callers s) in
  let s' := run (replicate (5 * n) RunJob) s in
  queue s' = []
  ∧ begun (trace s') = seq 0 n
  ∧ ended (trace s') = seq 0 n
  ∧ ∀ j fn, callers s !! j = Some (Dispatch fn) →
      ∃ o, heap s' !! PResult j = Some (Settled o) ∧ outcome_of (Dispatch fn) o.
Proof.
  apply (synchronous_bodies_all_complete failing).
  repeat constructor; eexists; eauto.
Defined.

Lemma stale_unlock_example :
  step (CallUnlock 3) (run history init) = run history init.
Proof.
  apply (stale_unlock_does_nothing history 3 (Fulfilled VUndef)).
  replace (trace (run history init))
    with [Begin 0; End 0 (Fulfilled (VData 1)); Begin 1; End 1 (Rejected (VData 2));
          Begin 2; End 2 (Rejected (VData 7)); Begin 3; End 3 (Fulfilled VUndef)]
    by (vm_compute; reflexivity).
  do 7 apply list_elem_of_further. apply list_elem_of_here.
Defined.

Lemma rejected_promise_example :
  ∃ j, (PResult 1 = PResult j ∨ PResult 1 = PBody j)
       ∧ End j (Rejected (VData 2)) ∈ trace (run history init).
Proof.
  apply (chain_is_never_rejected history (PResult 1) (VData 2)).
  vm_compute. reflexivity.
Defined.

Lemma open_section_example :
  trace (run (replicate 10 RunJob) (run holding init)) = trace (run holding init).
Proof.
  apply (open_section_blocks_the_queue holding 10).
  vm_compute. discriminate.
Defined.

End MoreMutexRuns.

Module MoreToolRuns.

Import Lint Tools Modules ToolExamples MoreExamples.

Lemma language_server_example :
  (∃ gopls, allToolsInformation !! "gopls" = Some gopls
            ∧ name gopls = "gopls"
            ∧ Known gopls ∈ getConfiguredTools objectPrototype text go115 withGopls)
  ∧ ∀ tool, Known tool ∈ getConfiguredTools objectPrototype text go115 withGopls →
            replacedByGopls tool ≠ Some true.
Proof.
  apply (language_server_replaces_tools objectPrototype text go115 withGopls);
    reflexivity.
Defined.

Lemma golint_offered :
  Known golint ∈ getConfiguredTools objectPrototype text go115 withGopls.
Proof. apply (list_elem_of_lookup_2 _ 7). vm_compute. reflexivity. Qed.

Lemma offered_tools_example :
  allToolsInformation !! name golint = Some golint
  ∧ (name golint ∈ defaultTools
     ∨ (name golint = "dlv" ∧ arch withGopls ∈ dlvArchitectures)
     ∨ (name golint = "gocode-gomod" ∧ gt go115 "1.10" = true)
     ∨ (name golint = "godef" ∧ docsTool withGopls = VStr "godoc")
     ∨ name golint = text (docsTool withGopls)
     ∨ name golint = text (formatTool withGopls)
     ∨ name golint = text (lintTool withGopls)
     ∨ (name golint = "gopls"
        ∧ truthy (useLanguageServer withGopls) && gt go115 "1.11" = true)
     ∨ (name golint = "gotype-live" ∧ goLiveErrorsEnabled withGopls = true)).
Proof.
  apply (offered_tools_were_asked_for objectPrototype text go115 withGopls golint).
  apply golint_offered.
Defined.

Lemma module_cache_directory_example :
  getCurrentPackage objectPrototype ∅ listed "/go/pkg/mod/golang.org/x/tools@v0.0.1/go/ast"
  = (<["/go/pkg/mod/golang.org/x/tools@v0.0.1/go/ast" := "golang.org/x/tools"]> ∅,
     Package "golang.org/x/tools", []).
Proof.
  apply (module_cache_directory_package objectPrototype ∅ listed
           "/go/pkg/mod/golang.org/x/tools@v0.0.1/go/ast" "/" "0"
           "golang.org/x/tools" ".0.1/go/ast");
    reflexivity.
Defined.

Lemma package_line_example :
  getCurrentPackage objectPrototype ∅ listed "/ws"
  = (<["/ws" := "example.com/ws"]> ∅, Package "example.com/ws",
     [Spawn "/usr/local/go/bin/go" ["list"] "/ws" {[ "GOPATH" := VStr "/go" ]}]).
Proof.
  apply (package_line_among_logs objectPrototype ∅ listed "/ws" "example.com/ws"
           ["go: downloading example.com/dep v1.2.0"] [""]);
    try reflexivity; try discriminate.
  - repeat constructor; cbn; intros Hin;
      repeat (apply elem_of_cons in Hin as [[=] | Hin]); by apply elem_of_nil in Hin.
  - constructor; [right; reflexivity|].
    constructor; [left; reflexivity | constructor].
Defined.

(** What the call for [/ws] gives on [listed]. *)
Lemma listed_workspace :
  getCurrentPackage objectPrototype ∅ listed "/ws"
  = (<["/ws" := "example.com/ws"]> ∅, Package "example.com/ws",
     [Spawn "/usr/local/go/bin/go" ["list"] "/ws" {[ "GOPATH" := VStr "/go" ]}]).
Proof. vm_compute. reflexivity. Qed.

Lemma package_remembered_example :
  getCurrentPackage objectPrototype (<["/ws" := "example.com/ws"]> ∅) later "/ws"
  = (<["/ws" := "example.com/ws"]> ∅, Package "example.com/ws", []).
Proof.
  apply (package_is_remembered objectPrototype ∅ (<["/ws" := "example.com/ws"]> ∅)
           listed later "/ws" "example.com/ws"
           [Spawn "/usr/local/go/bin/go" ["list"] "/ws" {[ "GOPATH" := VStr "/go" ]}]);
    [exact listed_workspace | discriminate].
Defined.

End MoreToolRuns.
